(** * DocumentAI: coordinate resolution, region estimation and cropping

    A shallow embedding of the coordinate-to-crop pipeline of
    [document_ocr_with_coordinates.py] (class [DocumentOCRProcessor]); the
    methods shared word for word with [form_parser_with_coordinates.py] are
    modelled once.

    Conventions of the embedding:
    - Python [float] values are idealised as rationals ([Q]); [int(x)] on a
      float truncates toward zero.
    - a Python [str] is a list of code points ([pystr]); slicing follows the
      rules of the language (a negative index counts from the end).
    - the objects of the document service are records; an attribute that the
      source probes with [hasattr] is an [option] field.
    - a [try/except Exception] that returns [None] is an [option] result.
    - the imaging library (PIL) is an interface whose operations may raise. *)

From Stdlib Require Import ZArith QArith Qabs Qminmax Qround Lqa Lia.
From Stdlib Require Import List Bool String Ascii NArith Permutation.
Import ListNotations.

Local Open Scope Z_scope.

(* ================================================================== *)
(** * Part I: the program                                              *)
(* ================================================================== *)

(** ** Python strings *)

Module PyStr.

(** A code point. *)
Definition char := N.
Definition pystr := list char.

(** [str.isspace] on one character: the code points with bidirectional
    class WS, B or S, or of category Zs. *)
Definition isspace (c : char) : bool :=
  ((9 <=? c) && (c <=? 13) || (28 <=? c) && (c <=? 32)
   || (c =? 133) || (c =? 160) || (c =? 5760)
   || (8192 <=? c) && (c <=? 8202)
   || (c =? 8232) || (c =? 8233) || (c =? 8239) || (c =? 8287)
   || (c =? 12288))%N.

Fixpoint lstrip (s : pystr) : pystr :=
  match s with
  | [] => []
  | c :: r => if isspace c then lstrip r else s
  end.

Definition rstrip (s : pystr) : pystr := rev (lstrip (rev s)).

(** [s.strip()] *)
Definition strip (s : pystr) : pystr := rstrip (lstrip s).

(** Truth value of a string: non-empty. *)
Definition truthy (s : pystr) : bool :=
  match s with [] => false | _ => true end.

(** Resolution of one bound of [s[start:stop]] against the length [n]:
    a negative bound has [n] added and is then raised to 0, any other
    bound is lowered to [n]. *)
Definition slice_index (n i : Z) : Z :=
  if i <? 0 then Z.max 0 (i + n) else Z.min i n.

(** [s[start:stop]] *)
Definition slice (s : pystr) (start stop : Z) : pystr :=
  let n := Z.of_nat (List.length s) in
  let lo := slice_index n start in
  let hi := slice_index n stop in
  firstn (Z.to_nat (hi - lo)) (skipn (Z.to_nat lo) s).

Fixpoint startswith (p s : pystr) : bool :=
  match p, s with
  | [], _ => true
  | _ :: _, [] => false
  | a :: p', b :: s' => (a =? b)%N && startswith p' s'
  end.

(** [p in s]: [p] occurs in [s] as a contiguous run. *)
Fixpoint contains (p s : pystr) : bool :=
  startswith p s ||
  match s with
  | [] => false
  | _ :: s' => contains p s'
  end.

(** Code points of an ASCII literal. *)
Fixpoint of_string (s : string) : pystr :=
  match s with
  | EmptyString => []
  | String a r => N_of_ascii a :: of_string r
  end.

End PyStr.
Import PyStr.

(** ** Objects of the document service *)

Record Segment := mkSegment {
  start_index : option Z;
  end_index : option Z
}.

Record TextAnchor := mkTextAnchor {
  text_segments : option (list Segment)
}.

Record Vertex := mkVertex {
  vertex_x : option Q;
  vertex_y : option Q
}.

Record BoundingPoly := mkBoundingPoly {
  normalized_vertices : option (list Vertex)
}.

Record Layout := mkLayout {
  text_anchor : option TextAnchor;
  bounding_poly : option BoundingPoly
}.

Record Block := mkBlock {
  layout : option Layout
}.

(** ** Result dictionaries *)

Record Point := mkPoint { px : Q; py : Q }.

(** The [bounding_box] dictionary. *)
Record BBox := mkBBox {
  left : Q; top : Q; right : Q; bottom : Q; width : Q; height : Q
}.

(** The [block_data] dictionary; the empty [bounding_box] is [None]. *)
Record BlockData := mkBlockData {
  bd_page : Z;
  bd_block_id : Z;
  bd_text : pystr;
  bd_coordinates : list Point;
  bd_bounding_box : option BBox
}.

(** ** CoordinateResolver: [_extract_text_block_with_coordinates] *)

(** [int(segment.start_index) if hasattr(segment, 'start_index') else 0] *)
Definition index_or_zero (i : option Z) : Z :=
  match i with Some v => v | None => 0 end.

(** The loop over [text_anchor.text_segments], appending to the text. *)
Definition append_segments (full_text : pystr) (segs : list Segment)
    (text : pystr) : pystr :=
  fold_left
    (fun acc seg =>
       let start_idx := index_or_zero (start_index seg) in
       let end_idx := index_or_zero (end_index seg) in
       acc ++ slice full_text start_idx end_idx)
    segs text.

(** The text part: the anchor's segments when [layout], [text_anchor] and
    [text_segments] are all present. *)
Definition block_text_of (b : Block) (full_text : pystr) : pystr :=
  match layout b with
  | Some l =>
      match text_anchor l with
      | Some ta =>
          match text_segments ta with
          | Some segs => append_segments full_text segs []
          | None => []
          end
      | None => []
      end
  | None => []
  end.

(** The loop over the vertices: one point per vertex that has both [x] and
    [y]. *)
Definition collect_coordinates (vs : list Vertex) : list Point :=
  fold_left
    (fun acc v =>
       match vertex_x v, vertex_y v with
       | Some x, Some y => acc ++ [mkPoint x y]
       | _, _ => acc
       end)
    vs [].

(** The box of a list of at least four points: point 0 and point 2. *)
Definition bbox_of_coordinates (cs : list Point) : option BBox :=
  match cs with
  | p0 :: _ :: p2 :: _ :: _ =>
      Some (mkBBox (px p0) (py p0) (px p2) (py p2)
                   (px p2 - px p0)%Q (py p2 - py p0)%Q)
  | _ => None
  end.

(** The coordinate part: [(coordinates, bounding_box)], both left empty
    unless at least four points were collected. *)
Definition block_box_of (b : Block) : list Point * option BBox :=
  match layout b with
  | Some l =>
      match bounding_poly l with
      | Some bp =>
          match normalized_vertices bp with
          | Some vs =>
              let coordinates := collect_coordinates vs in
              if (4 <=? List.length coordinates)%nat
              then (coordinates, bbox_of_coordinates coordinates)
              else ([], None)
          | None => ([], None)
          end
      | None => ([], None)
      end
  | None => ([], None)
  end.

Definition _extract_text_block_with_coordinates
    (block : Block) (full_text : pystr) (page_num block_num : Z)
    : option BlockData :=
  let text := block_text_of block full_text in
  let '(coordinates, bounding_box) := block_box_of block in
  let block_data :=
    mkBlockData page_num block_num text coordinates bounding_box in
  if truthy (strip (bd_text block_data)) then Some block_data else None.

(** ** Floats as rationals *)

Definition Qltb (a b : Q) : bool :=
  match (a ?= b)%Q with Lt => true | _ => false end.

Definition Qleb (a b : Q) : bool :=
  match (a ?= b)%Q with Gt => false | _ => true end.

(** [int(x)] of a float: truncation toward zero. *)
Definition int_of_float (x : Q) : Z := Z.quot (Qnum x) (Zpos (Qden x)).

(** [enumerate(xs)] *)
Definition enumerate {A : Type} (xs : list A) : list (nat * A) :=
  combine (seq 0 (List.length xs)) xs.

(** ** Visual elements and the results dictionary *)

(** The [element_id] of a visual element: the element number given by the
    caller, or one of the formatted identifiers [block_<n>],
    [estimated_<n>] and [keyword_<keyword>_<n>]. *)
Inductive ElementId :=
| IdNumber (n : Z)
| IdBlock (n : Z)
| IdEstimated (n : Z)
| IdKeyword (keyword : pystr) (n : Z).

(** The [text_reference] dictionary of a keyword estimate. *)
Record TextReference := mkTextReference {
  tr_block_idx : Z;
  tr_keyword : pystr;
  tr_text_content : pystr
}.

(** A dictionary of [results["visual_elements"]]; keys that only some
    producers write are [option] fields. *)
Record VisualElement := mkVisualElement {
  ve_page : Z;
  ve_element_id : ElementId;
  ve_type : string;
  ve_source : option string;
  ve_estimated_type : option pystr;
  ve_text_reference : option TextReference;
  ve_coordinates : list Point;
  ve_bounding_box : option BBox
}.

(** File names written under [output_dir]:
    [page_<page>.png], [estimated_<estimated_type>_page<page>.png] and
    [figure_page<page>_elem<element_id>.png]. *)
Inductive FileName :=
| PageFile (page : Z)
| EstimatedFile (estimated_type : pystr) (page : Z)
| FigureFile (page : Z) (element_id : ElementId).

(** The dictionary returned by [_save_page_image]. *)
Record PageImage := mkPageImage {
  pi_page : Z;
  pi_filename : FileName;
  pi_filepath : FileName;
  pi_width : Z;
  pi_height : Z
}.

Record PixelBox := mkPixelBox {
  pix_left : Z; pix_top : Z; pix_right : Z; pix_bottom : Z
}.

(** The dictionary returned by [_crop_figure_from_page]. *)
Record CroppedInfo := mkCroppedInfo {
  ci_page : Z;
  ci_element_id : ElementId;
  ci_filename : FileName;
  ci_filepath : FileName;
  ci_original_coordinates : list Point;
  ci_pixel_coordinates : PixelBox;
  ci_width : Z;
  ci_height : Z
}.

Record Summary := mkSummary {
  total_pages : Z;
  total_blocks : Z;
  total_figures : Z;
  coordinates_found : Z;
  images_saved : Z
}.

Record Results := mkResults {
  full_text : pystr;
  text_blocks : list BlockData;
  visual_elements : list VisualElement;
  extracted_figures : list CroppedInfo;
  page_images : list PageImage;
  summary : Summary
}.

Definition set_total_figures (n : Z) (s : Summary) : Summary :=
  mkSummary (total_pages s) (total_blocks s) n (coordinates_found s)
            (images_saved s).

(** [results["visual_elements"].append(e)] followed by
    [results["summary"]["total_figures"] += 1]. *)
Definition append_figure (e : VisualElement) (r : Results) : Results :=
  mkResults (full_text r) (text_blocks r) (visual_elements r ++ [e])
            (extracted_figures r) (page_images r)
            (set_total_figures (total_figures (summary r) + 1) (summary r)).

(** A page of the document. *)
Record Page := mkPage {
  blocks : option (list Block)
}.

(** [not hasattr(page, 'blocks') or not page.blocks] *)
Definition page_blocks (page : Page) : option (list Block) :=
  match blocks page with
  | Some (b :: bs) => Some (b :: bs)
  | _ => None
  end.

(** ** The page loop over text blocks (in [analyze_document_with_ocr]) *)

Definition add_text_block (bd : BlockData) (r : Results) : Results :=
  let s := summary r in
  let found :=
    match bd_coordinates bd with
    | [] => coordinates_found s
    | _ => coordinates_found s + 1
    end in
  mkResults (full_text r) (text_blocks r ++ [bd]) (visual_elements r)
            (extracted_figures r) (page_images r)
            (mkSummary (total_pages s) (total_blocks s + 1) (total_figures s)
                       found (images_saved s)).

(** [for block_idx, block in enumerate(page.blocks): ...] on page
    [page_idx + 1]; a block whose extraction gives [None] is passed over. *)
Definition extract_page_blocks (document_text : pystr) (page_idx : nat)
    (bs : list Block) (results : Results) : Results :=
  fold_left
    (fun r ib =>
       let '(block_idx, block) := ib in
       match _extract_text_block_with_coordinates block document_text
               (Z.of_nat page_idx + 1) (Z.of_nat block_idx + 1) with
       | Some block_data => add_text_block block_data r
       | None => r
       end)
    (enumerate bs) results.

(** ** RegionMerger: [_merge_adjacent_areas] *)

(** An area dictionary of the grid estimator. *)
Record Area := mkArea {
  a_left : Q; a_top : Q; a_right : Q; a_bottom : Q;
  a_width : Q; a_height : Q; a_area : Q
}.

(** The [used] set of indices. *)
Definition used_mem (j : nat) (used : list nat) : bool :=
  existsb (Nat.eqb j) used.

(** The adjacency test of the inner loop, with [tol] the value of
    [1/grid_size * 1.1]. *)
Definition adjacent (tol : Q) (current_area other_area : Area) : bool :=
  Qltb (Qabs (a_right current_area - a_left other_area)) tol
  || Qltb (Qabs (a_left current_area - a_right other_area)) tol
  || Qltb (Qabs (a_bottom current_area - a_top other_area)) tol
  || Qltb (Qabs (a_top current_area - a_bottom other_area)) tol.

(** The seven assignments that absorb [other_area] into [current_area]. *)
Definition absorb (current_area other_area : Area) : Area :=
  let l := Qmin (a_left current_area) (a_left other_area) in
  let t := Qmin (a_top current_area) (a_top other_area) in
  let r := Qmax (a_right current_area) (a_right other_area) in
  let b := Qmax (a_bottom current_area) (a_bottom other_area) in
  let w := (r - l)%Q in
  let h := (b - t)%Q in
  mkArea l t r b w h (w * h)%Q.

Record MergeState := mkMergeState {
  ms_current : Area;
  ms_used : list nat;
  ms_changed : bool
}.

(** One iteration of [for j, other_area in enumerate(areas)]. *)
Definition merge_step (tol : Q) (st : MergeState) (jo : nat * Area)
    : MergeState :=
  let '(j, other_area) := jo in
  if used_mem j (ms_used st) then st
  else if adjacent tol (ms_current st) other_area
       then mkMergeState (absorb (ms_current st) other_area)
                         (j :: ms_used st) true
       else st.

(** One pass of the inner [for] loop, entered with [changed = False]. *)
Definition merge_pass (tol : Q) (areas : list Area) (current_area : Area)
    (used : list nat) : MergeState :=
  fold_left (merge_step tol) (enumerate areas)
            (mkMergeState current_area used false).

(** [while changed: ...]; [None] when the fuel runs out. *)
Fixpoint merge_while (fuel : nat) (tol : Q) (areas : list Area)
    (current_area : Area) (used : list nat) : option (Area * list nat) :=
  match fuel with
  | O => None
  | S fuel' =>
      let st := merge_pass tol areas current_area used in
      if ms_changed st
      then merge_while fuel' tol areas (ms_current st) (ms_used st)
      else Some (ms_current st, ms_used st)
  end.

(** One iteration of [for i, area in enumerate(areas)]. *)
Definition merge_outer_step (fuel : nat) (tol : Q) (areas : list Area)
    (st : option (list Area * list nat)) (ia : nat * Area)
    : option (list Area * list nat) :=
  match st with
  | None => None
  | Some (merged, used) =>
      let '(i, area) := ia in
      if used_mem i used then Some (merged, used)
      else
        match merge_while fuel tol areas area (i :: used) with
        | Some (current_area, used') => Some (merged ++ [current_area], used')
        | None => None
        end
  end.

Definition merge_loop (fuel : nat) (tol : Q) (areas : list Area)
    : option (list Area * list nat) :=
  fold_left (merge_outer_step fuel tol areas) (enumerate areas)
            (Some ([], [])).

(** [1/grid_size * 1.1] for a non-zero [grid_size]. *)
Definition tolerance (grid_size : Z) : Q :=
  (1 / inject_Z grid_size * (11 # 10))%Q.

(** [_merge_adjacent_areas(areas, grid_size)]. The tolerance is computed in
    the adjacency test, so [grid_size = 0] raises [ZeroDivisionError] as
    soon as a test is reached, which is when there are two areas or more;
    [None] stands for that exception. Each pass of the [while] loop that
    goes on to another marks a further index as used, so one pass more than
    there are areas is enough. *)
Definition _merge_adjacent_areas (areas : list Area) (grid_size : Z)
    : option (list Area) :=
  if (grid_size =? 0) && (2 <=? List.length areas)%nat then None
  else
    match merge_loop (S (List.length areas)) (tolerance grid_size) areas with
    | Some (merged, _) => Some merged
    | None => None
    end.

(** ** RegionEstimator: [_estimate_visual_regions_from_text_gaps] *)

(** A dictionary of [text_regions]. *)
Record TextRegion := mkTextRegion {
  rg_left : Q; rg_top : Q; rg_right : Q; rg_bottom : Q
}.

(** [float(vertices[0].x)], [float(vertices[0].y)], [float(vertices[2].x)],
    [float(vertices[2].y)] of a list of at least four vertices; [None] when
    one of the attributes is missing ([AttributeError]). *)
Definition region_of_vertices (vs : list Vertex) : option TextRegion :=
  match vs with
  | v0 :: _ :: v2 :: _ :: _ =>
      match vertex_x v0, vertex_y v0, vertex_x v2, vertex_y v2 with
      | Some l, Some t, Some r, Some b => Some (mkTextRegion l t r b)
      | _, _, _, _ => None
      end
  | _ => None
  end.

(** The loop collecting [text_regions]; [None] when it raises. *)
Fixpoint collect_text_regions (bs : list Block) (text_regions : list TextRegion)
    : option (list TextRegion) :=
  match bs with
  | [] => Some text_regions
  | block :: bs' =>
      match layout block with
      | Some l =>
          match bounding_poly l, text_anchor l with
          | Some bp, Some _ =>
              match normalized_vertices bp with
              | Some vs =>
                  if (4 <=? List.length vs)%nat
                  then
                    match region_of_vertices vs with
                    | Some rg => collect_text_regions bs' (text_regions ++ [rg])
                    | None => None
                    end
                  else collect_text_regions bs' text_regions
              | None => collect_text_regions bs' text_regions
              end
          | _, _ => collect_text_regions bs' text_regions
          end
      | None => collect_text_regions bs' text_regions
      end
  end.

(** [range(n)] *)
Definition range (n : Z) : list Z := map Z.of_nat (seq 0 (Z.to_nat n)).

(** The cell of the grid at [(row, col)]. *)
Definition grid_cell (grid_size row col : Z) : Area :=
  let g := inject_Z grid_size in
  mkArea (inject_Z col / g)%Q (inject_Z row / g)%Q
         (inject_Z (col + 1) / g)%Q (inject_Z (row + 1) / g)%Q
         (1 / g)%Q (1 / g)%Q ((1 / g) ^ 2)%Q.

Definition overlaps_text (text_regions : list TextRegion) (cell : Area)
    : bool :=
  existsb
    (fun text_region =>
       Qltb (rg_left text_region) (a_right cell)
       && Qltb (a_left cell) (rg_right text_region)
       && Qltb (rg_top text_region) (a_bottom cell)
       && Qltb (a_top cell) (rg_bottom text_region))
    text_regions.

(** The cells of the grid, row by row, that overlap no text region. *)
Definition potential_image_areas (grid_size : Z)
    (text_regions : list TextRegion) : list Area :=
  flat_map
    (fun row =>
       flat_map
         (fun col =>
            let cell := grid_cell grid_size row col in
            if overlaps_text text_regions cell then [] else [cell])
         (range grid_size))
    (range grid_size).

Definition grid_size : Z := 20.

Definition estimated_figure (page_num : Z) (i : nat) (area : Area)
    : VisualElement :=
  mkVisualElement page_num (IdEstimated (Z.of_nat i + 1))
    "estimated_figure" (Some "text_gap_analysis"%string) None None
    [ mkPoint (a_left area) (a_top area);
      mkPoint (a_right area) (a_top area);
      mkPoint (a_right area) (a_bottom area);
      mkPoint (a_left area) (a_bottom area) ]
    (Some (mkBBox (a_left area) (a_top area) (a_right area) (a_bottom area)
                  (a_width area) (a_height area))).

(** What the estimator makes of the collected [text_regions]: the figures
    it goes on to append, in order. *)
Definition gap_figures (text_regions : list TextRegion) (page_num : Z)
    : list VisualElement :=
  if (List.length text_regions <? 2)%nat then []
  else
    match potential_image_areas grid_size text_regions with
    | [] => []
    | areas =>
        match _merge_adjacent_areas areas grid_size with
        | Some merged_areas =>
            let significant_areas :=
              filter (fun area => Qleb (2 # 1000) (a_area area)
                                  && Qleb (a_area area) (8 # 10))
                     merged_areas in
            map (fun ia => estimated_figure page_num (fst ia) (snd ia))
                (enumerate significant_areas)
        | None => []
        end
    end.

Definition _estimate_visual_regions_from_text_gaps
    (page : Page) (results : Results) (page_num : Z) : Results :=
  match page_blocks page with
  | None => results
  | Some bs =>
      match collect_text_regions bs [] with
      | Some text_regions =>
          fold_left (fun r e => append_figure e r)
                    (gap_figures text_regions page_num) results
      | None => results
      end
  end.

(** ** KeywordRegionEstimator *)

Record Offset := mkOffset {
  off_top : Q; off_bottom : Q; off_left : Q; off_right : Q
}.

(** The attributes of the processor read by the estimator. *)
Record Processor := mkProcessor {
  chair_keywords : list pystr;
  area_offset : Offset
}.

(** The values set by [__init__]. *)
Definition init_processor : Processor :=
  mkProcessor
    [ [12456; 12483; 12464; 12481; 12455; 12450]%N;
      [12450; 12531; 12488; 12481; 12455; 12450]%N;
      [12473; 12527; 12531; 12481; 12455; 12450]%N;
      [12475; 12502; 12531; 12481; 12455; 12450]%N;
      [12505; 12523; 12499; 12517; 12540; 12539; 12481; 12455; 12450]%N;
      [12450; 12522; 12531; 12467; 12481; 12455; 12450]%N ]
    (mkOffset (1 # 10) (1 # 10) (15 # 100) (15 # 100)).

(** The [block_coords] dictionary of a matching block. *)
Record TextBlock := mkTextBlock {
  tb_block_idx : Z;
  tb_text : pystr;
  tb_keyword : pystr;
  tb_left : Q; tb_top : Q; tb_right : Q; tb_bottom : Q
}.

Definition _create_estimated_image_area (self : Processor)
    (text_block : TextBlock) (keyword : pystr) (instance_num : Z)
    : option VisualElement :=
  let text_center_x := ((tb_left text_block + tb_right text_block) / 2)%Q in
  let text_center_y := ((tb_top text_block + tb_bottom text_block) / 2)%Q in
  let estimated_left :=
    Qmax 0 (text_center_x - off_left (area_offset self)) in
  let estimated_right :=
    Qmin 1 (text_center_x + off_right (area_offset self)) in
  let estimated_top :=
    Qmax 0 (text_center_y - off_top (area_offset self)) in
  let estimated_bottom :=
    Qmin 1 (text_center_y + off_bottom (area_offset self)) in
  Some
    (mkVisualElement 1 (IdKeyword keyword instance_num)
       "estimated_figure" (Some "keyword_search"%string)
       (Some (keyword ++ of_string "_area"))
       (Some (mkTextReference (tb_block_idx text_block) keyword
                              (tb_text text_block)))
       [ mkPoint estimated_left estimated_top;
         mkPoint estimated_right estimated_top;
         mkPoint estimated_right estimated_bottom;
         mkPoint estimated_left estimated_bottom ]
       (Some (mkBBox estimated_left estimated_top
                     estimated_right estimated_bottom
                     (estimated_right - estimated_left)%Q
                     (estimated_bottom - estimated_top)%Q))).

(** The text of a block as the keyword search reads it. The attribute
    [text_segments] is read without a [hasattr] test: [None] when it is
    missing ([AttributeError]). *)
Definition keyword_block_text (block : Block) (full_text : pystr)
    : option pystr :=
  match layout block with
  | Some l =>
      match text_anchor l with
      | Some ta =>
          match text_segments ta with
          | Some segs => Some (append_segments full_text segs [])
          | None => None
          end
      | None => Some []
      end
  | None => Some []
  end.

(** One iteration of the loop over the blocks: [Some (Some m)] for a match
    [m] to append, [Some None] for no match, [None] when it raises. *)
Definition match_block (keyword full_text : pystr) (block_idx : nat)
    (block : Block) : option (option TextBlock) :=
  match keyword_block_text block full_text with
  | None => None
  | Some block_text =>
      if contains keyword block_text then
        match layout block with
        | Some l =>
            match bounding_poly l with
            | Some bp =>
                match normalized_vertices bp with
                | Some vertices =>
                    if (4 <=? List.length vertices)%nat then
                      match region_of_vertices vertices with
                      | Some rg =>
                          Some (Some (mkTextBlock
                                        (Z.of_nat block_idx + 1)
                                        (strip block_text) keyword
                                        (rg_left rg) (rg_top rg)
                                        (rg_right rg) (rg_bottom rg)))
                      | None => None
                      end
                    else Some None
                | None => Some None
                end
            | None => Some None
            end
        | None => Some None
        end
      else Some None
  end.

(** The loop that builds [matching_blocks]; [None] when it raises. *)
Fixpoint matching_blocks_from (keyword full_text : pystr)
    (ibs : list (nat * Block)) (matching_blocks : list TextBlock)
    : option (list TextBlock) :=
  match ibs with
  | [] => Some matching_blocks
  | (block_idx, block) :: ibs' =>
      match match_block keyword full_text block_idx block with
      | Some (Some m) =>
          matching_blocks_from keyword full_text ibs' (matching_blocks ++ [m])
      | Some None =>
          matching_blocks_from keyword full_text ibs' matching_blocks
      | None => None
      end
  end.

(** The loop over [enumerate(matching_blocks)]. *)
Definition append_estimates (self : Processor) (keyword : pystr)
    (matching_blocks : list TextBlock) (results : Results) : Results :=
  fold_left
    (fun r im =>
       match _create_estimated_image_area self (snd im) keyword
               (Z.of_nat (fst im) + 1) with
       | Some estimated_area => append_figure estimated_area r
       | None => r
       end)
    (enumerate matching_blocks) results.

(** The loop over [self.chair_keywords]; an exception leaves the function
    with what was appended for the keywords before. *)
Fixpoint keyword_loop (self : Processor) (keywords : list pystr)
    (bs : list Block) (full_text : pystr) (results : Results) : Results :=
  match keywords with
  | [] => results
  | keyword :: keywords' =>
      match matching_blocks_from keyword full_text (enumerate bs) [] with
      | Some matching_blocks =>
          keyword_loop self keywords' bs full_text
            (append_estimates self keyword matching_blocks results)
      | None => results
      end
  end.

Definition _extract_estimated_image_areas_by_keywords (self : Processor)
    (page : Page) (results : Results) (page_num : Z) (full_text : pystr)
    : Results :=
  match page_blocks page with
  | None => results
  | Some bs => keyword_loop self (chair_keywords self) bs full_text results
  end.

(** ** ImageCropper *)

(** The operations of the imaging library that the cropper calls:
    [Image.open], [.size], [.crop] and [.save]; an operation that raises
    gives [None]. The answers are taken as fixed for one run. *)
Record ImageLibrary := mkImageLibrary {
  image : Type;
  image_open : FileName -> option image;
  image_size : image -> Z * Z;
  image_crop : image -> PixelBox -> option image;
  image_save : image -> FileName -> option unit
}.

(** The name under which a crop is saved; [None] when a keyword estimate
    has no [estimated_type] ([KeyError]). *)
Definition crop_filename (figure : VisualElement) : option FileName :=
  match ve_source figure with
  | Some src =>
      if String.eqb src "keyword_search" then
        match ve_estimated_type figure with
        | Some estimated_type =>
            Some (EstimatedFile estimated_type (ve_page figure))
        | None => None
        end
      else Some (FigureFile (ve_page figure) (ve_element_id figure))
  | None => Some (FigureFile (ve_page figure) (ve_element_id figure))
  end.

Definition _crop_figure_from_page (lib : ImageLibrary)
    (figure : VisualElement) (page_image : PageImage)
    : option CroppedInfo :=
  match image_open lib (pi_filepath page_image) with
  | None => None
  | Some page_img =>
      let '(page_width, page_height) := image_size lib page_img in
      match ve_bounding_box figure with
      | None => None
      | Some bbox =>
          let l := int_of_float (left bbox * inject_Z page_width) in
          let t := int_of_float (top bbox * inject_Z page_height) in
          let r := int_of_float (right bbox * inject_Z page_width) in
          let b := int_of_float (bottom bbox * inject_Z page_height) in
          match image_crop lib page_img (mkPixelBox l t r b) with
          | None => None
          | Some cropped_img =>
              match crop_filename figure with
              | None => None
              | Some filename =>
                  match image_save lib cropped_img filename with
                  | None => None
                  | Some _ =>
                      Some (mkCroppedInfo (ve_page figure)
                              (ve_element_id figure) filename filename
                              (ve_coordinates figure)
                              (mkPixelBox l t r b) (r - l) (b - t))
                  end
              end
          end
      end
  end.

(** The lines printed by the cropping stage. *)
Inductive LogLine :=
| LogNoFigures
| LogStart (n : nat)
| LogPageImageMissing (page_num : Z)
| LogCropError
| LogCropped (filename : FileName)
| LogDone (extracted_count : Z).

(** [elem["type"] in ["figure", "estimated_figure", "potential_image"]] *)
Definition is_figure_type (t : string) : bool :=
  String.eqb t "figure" || String.eqb t "estimated_figure"
  || String.eqb t "potential_image".

(** [next((img for img in results["page_images"] if img["page"] == page_num),
    None)] *)
Definition find_page_image (results : Results) (page_num : Z)
    : option PageImage :=
  find (fun img => pi_page img =? page_num) (page_images results).

Record CropState := mkCropState {
  cs_results : Results;
  cs_extracted_count : Z;
  cs_log : list LogLine
}.

Definition add_extracted (info : CroppedInfo) (r : Results) : Results :=
  mkResults (full_text r) (text_blocks r) (visual_elements r)
            (extracted_figures r ++ [info]) (page_images r) (summary r).

(** One iteration of [for figure in figure_elements]; the line
    [LogCropError] is the warning that [_crop_figure_from_page] prints
    before it returns [None]. *)
Definition crop_step (lib : ImageLibrary) (st : CropState)
    (figure : VisualElement) : CropState :=
  let page_num := ve_page figure in
  match find_page_image (cs_results st) page_num with
  | None =>
      mkCropState (cs_results st) (cs_extracted_count st)
                  (cs_log st ++ [LogPageImageMissing page_num])
  | Some page_image =>
      match _crop_figure_from_page lib figure page_image with
      | Some cropped_info =>
          mkCropState (add_extracted cropped_info (cs_results st))
                      (cs_extracted_count st + 1)
                      (cs_log st ++ [LogCropped (ci_filename cropped_info)])
      | None =>
          mkCropState (cs_results st) (cs_extracted_count st)
                      (cs_log st ++ [LogCropError])
      end
  end.

Definition figure_elements (results : Results) : list VisualElement :=
  filter (fun elem => is_figure_type (ve_type elem)) (visual_elements results).

(** [_extract_figure_images(results)]: the results as the call leaves them
    and the lines it printed. *)
Definition _extract_figure_images (lib : ImageLibrary) (results : Results)
    : Results * list LogLine :=
  match figure_elements results with
  | [] => (results, [LogNoFigures])
  | figures =>
      let st :=
        fold_left (crop_step lib) figures
                  (mkCropState results 0 [LogStart (List.length figures)]) in
      let r := cs_results st in
      (mkResults (full_text r) (text_blocks r) (visual_elements r)
                 (extracted_figures r) (page_images r)
                 (set_total_figures (cs_extracted_count st) (summary r)),
       cs_log st ++ [LogDone (cs_extracted_count st)])
  end.

(** ** Reference definitions used by the properties *)

(** A model of the imaging library over stored rasters known by their
    sizes, after Pillow: [crop] raises when the right edge is left of the
    left edge or the lower edge above the upper one and otherwise gives an
    image of the size of the box (the part outside the page is padded);
    [save] raises on an image without pixels. *)
Definition raster_library (files : FileName -> option (Z * Z))
    : ImageLibrary :=
  mkImageLibrary (Z * Z)%type files (fun im => im)
    (fun _ box =>
       if (pix_right box <? pix_left box) || (pix_bottom box <? pix_top box)
       then None
       else Some (pix_right box - pix_left box, pix_bottom box - pix_top box))
    (fun im _ => if (fst im =? 0) || (snd im =? 0) then None else Some tt).

(** Clamping of an index to [[0, n]]. *)
Definition clamp (n i : Z) : Z := Z.max 0 (Z.min i n).

(** The slice in which both bounds are clamped to [[0, len(s)]]. *)
Definition clamped_slice (s : pystr) (start stop : Z) : pystr :=
  let n := Z.of_nat (List.length s) in
  firstn (Z.to_nat (clamp n stop - clamp n start))
         (skipn (Z.to_nat (clamp n start)) s).

(** A block with the given layout parts. *)
Definition block_of (segs : option (list Segment))
    (vs : option (list Vertex)) : Block :=
  mkBlock
    (Some (mkLayout
             (match segs with
              | Some sg => Some (mkTextAnchor (Some sg))
              | None => None
              end)
             (match vs with
              | Some v => Some (mkBoundingPoly (Some v))
              | None => None
              end))).

(** The four corners of the rectangle from [(l, t)] to [(r, b)]. *)
Definition quad (l t r b : Q) : list Vertex :=
  [ mkVertex (Some l) (Some t); mkVertex (Some r) (Some t);
    mkVertex (Some r) (Some b); mkVertex (Some l) (Some b) ].

(** The pixel box of a normalized box on a raster of the given size. *)
Definition to_pixel_box (bbox : BBox) (size : Z * Z) : PixelBox :=
  mkPixelBox (int_of_float (left bbox * inject_Z (fst size)))
             (int_of_float (top bbox * inject_Z (snd size)))
             (int_of_float (right bbox * inject_Z (fst size)))
             (int_of_float (bottom bbox * inject_Z (snd size))).

(** The same with the floor in place of the truncation. *)
Definition floor_pixel_box (bbox : BBox) (size : Z * Z) : PixelBox :=
  mkPixelBox (Qfloor (left bbox * inject_Z (fst size)))
             (Qfloor (top bbox * inject_Z (snd size)))
             (Qfloor (right bbox * inject_Z (fst size)))
             (Qfloor (bottom bbox * inject_Z (snd size))).


(** A figure dictionary as [_extract_visual_element_with_coordinates]
    builds it from a four-point polygon. *)
Definition detected_figure (page_num elem_num : Z) (l t r b : Q)
    : VisualElement :=
  mkVisualElement page_num (IdNumber elem_num) "figure" None None None
    [mkPoint l t; mkPoint r t; mkPoint r b; mkPoint l b]
    (Some (mkBBox l t r b (r - l)%Q (b - t)%Q)).

(** The entry of [page_images] for a page. *)
Definition page_image_of (page_num w h : Z) : PageImage :=
  mkPageImage page_num (PageFile page_num) (PageFile page_num) w h.

(** The figures that one keyword match contributes. *)
Definition estimate_of (self : Processor) (keyword : pystr)
    (im : nat * TextBlock) : list VisualElement :=
  match _create_estimated_image_area self (snd im) keyword
          (Z.of_nat (fst im) + 1) with
  | Some estimated_area => [estimated_area]
  | None => []
  end.

(** The figures that the keyword loop appends, in order. *)
Fixpoint keyword_figures (self : Processor) (keywords : list pystr)
    (bs : list Block) (full_text : pystr) : list VisualElement :=
  match keywords with
  | [] => []
  | keyword :: keywords' =>
      match matching_blocks_from keyword full_text (enumerate bs) [] with
      | Some matching_blocks =>
          flat_map (estimate_of self keyword) (enumerate matching_blocks)
          ++ keyword_figures self keywords' bs full_text
      | None => []
      end
  end.

Definition empty_results : Results :=
  mkResults [] [] [] [] [] (mkSummary 0 0 0 0 0).

(** The crop that the loop of [_extract_figure_images] attempts for a
    figure: on the first page image recorded for the figure's page. *)
Definition crop_of (lib : ImageLibrary) (results : Results)
    (figure : VisualElement) : option CroppedInfo :=
  match find_page_image results (ve_page figure) with
  | Some page_image => _crop_figure_from_page lib figure page_image
  | None => None
  end.

(** The values of [f] that are not [None], in order. *)
Definition keep_some {A B : Type} (f : A -> option B) (l : list A) : list B :=
  flat_map (fun x => match f x with Some y => [y] | None => [] end) l.

(** The values of [l] on which [f] is [None], in order. *)
Definition keep_none {A B : Type} (f : A -> option B) (l : list A) : list A :=
  filter (fun x => match f x with Some _ => false | None => true end) l.

Definition is_warning (line : LogLine) : bool :=
  match line with
  | LogPageImageMissing _ | LogCropError => true
  | _ => false
  end.

(** A results dictionary records a figure when an entry of
    [extracted_figures] is about it. *)
Definition recorded (r : Results) (figure : VisualElement) : Prop :=
  exists info, In info (extracted_figures r)
               /\ ci_page info = ve_page figure
               /\ ci_element_id info = ve_element_id figure.

(** The box of [outer] contains the box of [inner]. *)
Definition covers (outer inner : Area) : Prop :=
  (a_left outer <= a_left inner /\ a_top outer <= a_top inner
   /\ a_right inner <= a_right outer /\ a_bottom inner <= a_bottom outer)%Q.

(** [g] is a group of input indices absorbed into the output area [m]. *)
Definition group_of (areas : list Area) (m : Area) (g : list nat) : Prop :=
  g <> []
  /\ forall j, In j g -> exists a, nth_error areas j = Some a /\ covers m a.

(** The number of indices below [n] that are not in [used]. *)
Definition unused (n : nat) (used : list nat) : nat :=
  List.length (filter (fun j => negb (used_mem j used)) (seq 0 n)).

(** What a run of the inner loops has added to [used0], starting from the
    area [cur0]: the indices [g], each of an input area that the current
    area covers. *)
Definition grown (areas : list Area) (cur0 : Area) (used0 : list nat)
    (cur : Area) (used : list nat) (g : list nat) : Prop :=
  used = g ++ used0
  /\ NoDup used
  /\ (forall j, In j g ->
        exists a, nth_error areas j = Some a /\ covers cur a)
  /\ covers cur cur0.

(** The state of the outer loop once the indices below [k] are done. *)
Definition outer_inv (areas : list Area) (k : nat)
    (st : option (list Area * list nat)) : Prop :=
  exists merged used groups,
    st = Some (merged, used)
    /\ NoDup used
    /\ (forall j, In j used -> (j < List.length areas)%nat)
    /\ (forall i, (i < k)%nat -> In i used)
    /\ Forall2 (group_of areas) merged groups
    /\ Permutation (List.concat groups) used.

(** ** Visual elements of the service:
       [_extract_visual_element_with_coordinates] *)

(** A visual element as the service gives it; [vp_type] is
    [str(element.type)]. *)
Record VisualProto := mkVisualProto {
  vp_type : option string;
  vp_layout : option Layout
}.

(** [c.lower()] on an ASCII letter. *)
Definition lower_ascii (c : ascii) : ascii :=
  let n := nat_of_ascii c in
  if (65 <=? n)%nat && (n <=? 90)%nat then ascii_of_nat (n + 32) else c.

(** [s.lower()] on an ASCII string. *)
Fixpoint lower (s : string) : string :=
  match s with
  | EmptyString => EmptyString
  | String c r => String (lower_ascii c) (lower r)
  end.

Definition _extract_visual_element_with_coordinates (element : VisualProto)
    (page_num elem_num : Z) : option VisualElement :=
  let type :=
    match vp_type element with
    | Some t => lower t
    | None => "unknown"%string
    end in
  let '(coordinates, bounding_box) :=
    block_box_of (mkBlock (vp_layout element)) in
  let elem_data :=
    mkVisualElement page_num (IdNumber elem_num) type None None None
                    coordinates bounding_box in
  match ve_coordinates elem_data with
  | [] => None
  | _ => Some elem_data
  end.

(** [results["visual_elements"].append(e)] *)
Definition add_visual_element (e : VisualElement) (r : Results) : Results :=
  mkResults (full_text r) (text_blocks r) (visual_elements r ++ [e])
            (extracted_figures r) (page_images r) (summary r).

(** The loop over [page.visual_elements] in the page loop: an element that
    gives a dictionary is appended, and counted when its type is
    [figure]. *)
Definition visual_loop (page_idx : nat) (elements : list VisualProto)
    (results : Results) : Results :=
  fold_left
    (fun r ie =>
       match _extract_visual_element_with_coordinates (snd ie)
               (Z.of_nat page_idx + 1) (Z.of_nat (fst ie) + 1) with
       | Some elem_data =>
           if String.eqb (ve_type elem_data) "figure"
           then append_figure elem_data r
           else add_visual_element elem_data r
       | None => r
       end)
    (enumerate elements) results.

(** ** [_investigate_image_blocks_in_text_blocks] *)

(** [has_text_content]: the anchor has a non-empty [text_segments]. *)
Definition has_text_content (block : Block) : bool :=
  match layout block with
  | Some l =>
      match text_anchor l with
      | Some ta =>
          match text_segments ta with
          | Some (_ :: _) => true
          | _ => false
          end
      | None => false
      end
  | None => false
  end.

(** The candidate that one block gives: a block with a polygon and no
    text, at least four points and an area above 0.001. *)
Definition potential_image_of (page_num : Z) (block_idx : nat)
    (block : Block) : option VisualElement :=
  match layout block with
  | Some l =>
      match bounding_poly l with
      | Some bp =>
          if has_text_content block then None
          else
            match normalized_vertices bp with
            | Some vs =>
                let coordinates := collect_coordinates vs in
                if (4 <=? List.length coordinates)%nat then
                  match bbox_of_coordinates coordinates with
                  | Some bounding_box =>
                      let area :=
                        (width bounding_box * height bounding_box)%Q in
                      if Qltb (1 # 1000) area
                      then Some (mkVisualElement page_num
                                   (IdBlock (Z.of_nat block_idx + 1))
                                   "potential_image"
                                   (Some "text_blocks_analysis"%string)
                                   None None coordinates
                                   (Some bounding_box))
                      else None
                  | None => None
                  end
                else None
            | None => None
            end
      | None => None
      end
  | None => None
  end.

(** The loop over the blocks: the results and [image_blocks_found]. *)
Definition investigate_loop (page_num : Z) (bs : list Block)
    (results : Results) : Results * Z :=
  fold_left
    (fun st ib =>
       match potential_image_of page_num (fst ib) (snd ib) with
       | Some image_block_data =>
           (add_visual_element image_block_data (fst st), snd st + 1)
       | None => st
       end)
    (enumerate bs) (results, 0).

Definition _investigate_image_blocks_in_text_blocks (page : Page)
    (results : Results) (page_num : Z) : Results :=
  match page_blocks page with
  | None => results
  | Some bs =>
      let '(r, image_blocks_found) := investigate_loop page_num bs results in
      if 0 <? image_blocks_found
      then mkResults (full_text r) (text_blocks r) (visual_elements r)
             (extracted_figures r) (page_images r)
             (set_total_figures
                (total_figures (summary r) + image_blocks_found) (summary r))
      else r
  end.

(** ** The page loop of [analyze_document_with_ocr] *)

(** A page with the attributes that the page loop reads beside the blocks;
    [dp_image] is [hasattr(page, 'image') and page.image]. *)
Record DocPage := mkDocPage {
  dp_page : Page;
  dp_visual_elements : option (list VisualProto);
  dp_image : bool
}.

Definition add_page_image (info : PageImage) (r : Results) : Results :=
  let s := summary r in
  mkResults (full_text r) (text_blocks r) (visual_elements r)
            (extracted_figures r) (page_images r ++ [info])
            (mkSummary (total_pages s) (total_blocks s) (total_figures s)
                       (coordinates_found s) (images_saved s + 1)).

(** The body of [for page_idx, page in enumerate(document.pages)];
    [save_page_image] stands for [self._save_page_image]. *)
Definition process_page (self : Processor)
    (save_page_image : DocPage -> Z -> option PageImage)
    (document_text : pystr) (results : Results) (ip : nat * DocPage)
    : Results :=
  let '(page_idx, page) := ip in
  let page_num := Z.of_nat page_idx + 1 in
  let r1 :=
    match page_blocks (dp_page page) with
    | Some bs => extract_page_blocks document_text page_idx bs results
    | None => results
    end in
  let r2 :=
    match dp_visual_elements page with
    | Some [] =>
        let ra :=
          _investigate_image_blocks_in_text_blocks (dp_page page) r1
            page_num in
        let rb :=
          _estimate_visual_regions_from_text_gaps (dp_page page) ra
            page_num in
        _extract_estimated_image_areas_by_keywords self (dp_page page) rb
          page_num document_text
    | Some elements => visual_loop page_idx elements r1
    | None => r1
    end in
  if dp_image page then
    match save_page_image page page_num with
    | Some page_image_info => add_page_image page_image_info r2
    | None => r2
    end
  else r2.

(** The dictionary that [analyze_document_with_ocr] starts from, once the
    text of the document is known. *)
Definition initial_results (document_text : pystr) : Results :=
  mkResults document_text [] [] [] [] (mkSummary 0 0 0 0 0).

Definition set_total_pages (n : Z) (r : Results) : Results :=
  let s := summary r in
  mkResults (full_text r) (text_blocks r) (visual_elements r)
            (extracted_figures r) (page_images r)
            (mkSummary n (total_blocks s) (total_figures s)
                       (coordinates_found s) (images_saved s)).

(** Steps 3 and 4 of [analyze_document_with_ocr]: the results after the
    page loop. *)
Definition analyze_pages (self : Processor)
    (save_page_image : DocPage -> Z -> option PageImage)
    (document_text : pystr) (pages : list DocPage) : Results :=
  match pages with
  | [] => initial_results document_text
  | _ =>
      fold_left (process_page self save_page_image document_text)
        (enumerate pages)
        (set_total_pages (Z.of_nat (List.length pages))
                         (initial_results document_text))
  end.

(** Steps 3 to 5: the page loop followed by the cropping of the figures. *)
Definition analyze_document (self : Processor) (lib : ImageLibrary)
    (save_page_image : DocPage -> Z -> option PageImage)
    (document_text : pystr) (pages : list DocPage)
    : Results * list LogLine :=
  _extract_figure_images lib
    (analyze_pages self save_page_image document_text pages).

(** ** Tables of the form parser: [_extract_table_row_data] and
       [_extract_table_data] *)

Record TableCell := mkTableCell {
  cell_layout : option Layout
}.

Record TableRow := mkTableRow {
  cells : option (list TableCell)
}.

Record Table := mkTable {
  table_layout : option Layout;
  header_rows : option (list TableRow);
  body_rows : option (list TableRow)
}.

(** The formatted row identifiers [header_<n>] and [body_<n>]. *)
Inductive RowId :=
| HeaderRow (n : nat)
| BodyRow (n : nat).

Record CellData := mkCellData {
  cell_id : nat;
  cell_text : pystr
}.

Record RowData := mkRowData {
  row_id : RowId;
  row_cells : list CellData
}.

Record TableData := mkTableData {
  td_page : Z;
  td_table_id : Z;
  td_rows : list RowData;
  td_coordinates : list Point;
  td_bounding_box : option BBox
}.

(** The loop over [enumerate(row.cells)]: one entry per cell, with the
    stripped text of its segments. *)
Definition row_cells_of (full_text : pystr) (cs : list TableCell)
    : list CellData :=
  fold_left
    (fun acc ic =>
       let cell_text :=
         block_text_of (mkBlock (cell_layout (snd ic))) full_text in
       acc ++ [mkCellData (fst ic) (strip cell_text)])
    (enumerate cs) [].

Definition _extract_table_row_data (row : TableRow) (full_text : pystr)
    (row_id : RowId) : option RowData :=
  let row_data :=
    mkRowData row_id
      match cells row with
      | Some cs => row_cells_of full_text cs
      | None => []
      end in
  match row_cells row_data with
  | [] => None
  | _ => Some row_data
  end.

(** One of the two loops over the rows of a table. *)
Definition append_rows (full_text : pystr) (mk_id : nat -> RowId)
    (rows : option (list TableRow)) (acc : list RowData) : list RowData :=
  match rows with
  | Some rs =>
      fold_left
        (fun acc ir =>
           match _extract_table_row_data (snd ir) full_text
                   (mk_id (fst ir)) with
           | Some row_data => acc ++ [row_data]
           | None => acc
           end)
        (enumerate rs) acc
  | None => acc
  end.

Definition _extract_table_data (table : Table) (full_text : pystr)
    (page_num table_num : Z) : option TableData :=
  let '(coordinates, bounding_box) :=
    block_box_of (mkBlock (table_layout table)) in
  let rows :=
    append_rows full_text BodyRow (body_rows table)
      (append_rows full_text HeaderRow (header_rows table) []) in
  let table_data :=
    mkTableData page_num table_num rows coordinates bounding_box in
  match td_rows table_data with
  | [] => None
  | _ => Some table_data
  end.

(** ** [_extract_text_element_with_coordinates] of the form parser *)

(** The [elem_data] dictionary of a text element. *)
Record TextElementData := mkTextElementData {
  te_page : Z;
  te_element_id : Z;
  te_element_type : string;
  te_text : pystr;
  te_coordinates : list Point;
  te_bounding_box : option BBox
}.

Definition _extract_text_element_with_coordinates (element : Block)
    (full_text : pystr) (page_num elem_num : Z) (elem_type : string)
    : option TextElementData :=
  let text := block_text_of element full_text in
  let '(coordinates, bounding_box) := block_box_of element in
  let elem_data :=
    mkTextElementData page_num elem_num elem_type text coordinates
                      bounding_box in
  if truthy (strip (te_text elem_data)) then Some elem_data else None.

(** ** Reference definitions for the further properties *)

(** The vertices of the polygon of a layout, none when a part is
    missing. *)
Definition layout_vertices (l : option Layout) : list Vertex :=
  match l with
  | Some l' =>
      match bounding_poly l' with
      | Some bp =>
          match normalized_vertices bp with
          | Some vs => vs
          | None => []
          end
      | None => []
      end
  | None => []
  end.

(** [block_data["coordinates"]] is not empty. *)
Definition has_coordinates (bd : BlockData) : bool :=
  match bd_coordinates bd with
  | [] => false
  | _ => true
  end.

(** A segment with both indices. *)
Definition segment (start stop : Z) : Segment :=
  mkSegment (Some start) (Some stop).

(** The keyword search keeps the block: it matches and has four
    vertices with the coordinates of vertices 0 and 2. *)
Definition block_matches (keyword full_text : pystr) (ib : nat * Block)
    : bool :=
  match match_block keyword full_text (fst ib) (snd ib) with
  | Some (Some _) => true
  | _ => false
  end.

(** The centre of the box of a matched block. *)
Definition center_x (tb : TextBlock) : Q := ((tb_left tb + tb_right tb) / 2)%Q.
Definition center_y (tb : TextBlock) : Q := ((tb_top tb + tb_bottom tb) / 2)%Q.

(** An area that lies on the unit page, is not inverted and whose
    [width], [height] and [area] agree with its edges. *)
Definition sound_area (a : Area) : Prop :=
  (0 <= a_left a /\ a_left a <= a_right a /\ a_right a <= 1
   /\ 0 <= a_top a /\ a_top a <= a_bottom a /\ a_bottom a <= 1
   /\ a_width a == a_right a - a_left a
   /\ a_height a == a_bottom a - a_top a
   /\ a_area a == a_width a * a_height a)%Q.

(** A cell and a text region overlap: the strict test of the grid scan. *)
Definition overlap (cell : Area) (text_region : TextRegion) : Prop :=
  (rg_left text_region < a_right cell /\ a_left cell < rg_right text_region
   /\ rg_top text_region < a_bottom cell
   /\ a_top cell < rg_bottom text_region)%Q.

(** The four edges of an area. *)
Definition edges : list (Area -> Q) := [a_left; a_top; a_right; a_bottom].

(** Every edge of [m] is the same edge of an input area of the group. *)
Definition tight (areas : list Area) (m : Area) (g : list nat) : Prop :=
  forall f, In f edges ->
    exists j a, In j g /\ nth_error areas j = Some a /\ f a = f m.

(** No output area is adjacent to an input area of a later group. *)
Fixpoint closed_after (tol : Q) (areas : list Area) (merged : list Area)
    (groups : list (list nat)) : Prop :=
  match merged, groups with
  | m :: ms, _ :: gs =>
      (forall j a, In j (List.concat gs) -> nth_error areas j = Some a ->
                   adjacent tol m a = false)
      /\ closed_after tol areas ms gs
  | _, _ => True
  end.

(** The inner loops have taken the current area from [cur0] to [cur] and
    the used indices from [used0] to [used]: each edge of [cur] is the
    edge of [cur0] or of an input area marked on the way. *)
Definition tight_from (areas : list Area) (cur0 : Area) (used0 : list nat)
    (cur : Area) (used : list nat) : Prop :=
  incl used0 used
  /\ forall f, In f edges ->
       f cur = f cur0
       \/ exists j a, In j used /\ ~ In j used0
                      /\ nth_error areas j = Some a /\ f a = f cur.

(** The state of the outer loop once the indices below [k] are done, with
    the groups that the output areas stand for. *)
Definition outer_inv2 (tol : Q) (areas : list Area) (k : nat)
    (st : option (list Area * list nat)) : Prop :=
  exists merged used groups,
    st = Some (merged, used)
    /\ NoDup used
    /\ (forall j, In j used -> (j < List.length areas)%nat)
    /\ (forall i, (i < k)%nat -> In i used)
    /\ Forall2 (group_of areas) merged groups
    /\ Permutation (List.concat groups) used
    /\ Forall2 (tight areas) merged groups
    /\ closed_after tol areas merged groups
    /\ (forall m j a, In m merged -> nth_error areas j = Some a ->
                      ~ In j used -> adjacent tol m a = false).

(** The rows of an attribute of a table, none when it is missing. *)
Definition rows_of (rows : option (list TableRow)) : list TableRow :=
  match rows with
  | Some rs => rs
  | None => []
  end.

(** The cells of a row, none when the attribute is missing. *)
Definition cells_of (row : TableRow) : list TableCell :=
  match cells row with
  | Some cs => cs
  | None => []
  end.

(** The entry that the row loop writes for the cell at position [k]. *)
Definition cell_entry (full_text : pystr) (k : nat) (c : TableCell)
    : CellData :=
  mkCellData k (strip (block_text_of (mkBlock (cell_layout c)) full_text)).

(** The counters of the summary agree with the lists of the results, and
    no figure has been cropped yet. *)
Definition counted (n : Z) (r : Results) : Prop :=
  total_pages (summary r) = n
  /\ total_blocks (summary r) = Z.of_nat (List.length (text_blocks r))
  /\ coordinates_found (summary r)
     = Z.of_nat (List.length (filter has_coordinates (text_blocks r)))
  /\ images_saved (summary r) = Z.of_nat (List.length (page_images r))
  /\ extracted_figures r = []
  /\ 0 <= total_figures (summary r)
     <= Z.of_nat (List.length (figure_elements r)).

(** One pair of opposite edges of the current area and another area
    differs by less than [1.1 / grid_size] in absolute value. *)
Definition passes_edge_test (grid_size : Z) (current_area other_area : Area)
    : Prop :=
  (Qabs (a_right current_area - a_left other_area)
     < (11 # 10) / inject_Z grid_size
   \/ Qabs (a_left current_area - a_right other_area)
        < (11 # 10) / inject_Z grid_size
   \/ Qabs (a_bottom current_area - a_top other_area)
        < (11 # 10) / inject_Z grid_size
   \/ Qabs (a_top current_area - a_bottom other_area)
        < (11 # 10) / inject_Z grid_size)%Q.

(** The blocks of a page, none when the attribute is missing or empty. *)
Definition page_block_list (page : Page) : list Block :=
  match page_blocks page with
  | Some bs => bs
  | None => []
  end.

(** A block that the search for image blocks takes: no text segments and
    a box, from at least four usable vertices, of area above 0.001. *)
Definition qualifies (block : Block) : bool :=
  negb (has_text_content block)
  && match snd (block_box_of block) with
     | Some bb => Qltb (1 # 1000) (width bb * height bb)
     | None => false
     end.

(** The dictionary appended for the block at a position of the page. *)
Definition image_candidate (page_num : Z) (ib : nat * Block)
    : VisualElement :=
  mkVisualElement page_num (IdBlock (Z.of_nat (fst ib) + 1))
    "potential_image" (Some "text_blocks_analysis"%string) None None
    (fst (block_box_of (snd ib))) (snd (block_box_of (snd ib))).

(* ================================================================== *)
(** * Part II: properties                                              *)
(* ================================================================== *)

(** ** Strings *)

Example slice_inside :
  slice (of_string "abcde") 1 3 = of_string "bc".
Proof. reflexivity. Qed.

Lemma lstrip_nil_iff (s : pystr) :
  lstrip s = [] <-> forallb isspace s = true.
Proof.
  induction s as [|c r IH]; simpl.
  - tauto.
  - destruct (isspace c) eqn:Hc; simpl.
    + exact IH.
    + split; discriminate.
Qed.

Lemma forallb_rev {A : Type} (f : A -> bool) (l : list A) :
  forallb f (rev l) = forallb f l.
Proof.
  induction l as [|a l IH]; simpl.
  - reflexivity.
  - rewrite forallb_app, IH. simpl. rewrite andb_true_r. apply andb_comm.
Qed.

Lemma rev_nil_iff {A : Type} (l : list A) : rev l = [] <-> l = [].
Proof.
  split; intro H.
  - rewrite <- (rev_involutive l), H. reflexivity.
  - subst. reflexivity.
Qed.

(** The stripped string is empty exactly when every character is white
    space. *)
Lemma strip_nil_iff (s : pystr) :
  strip s = [] <-> forallb isspace s = true.
Proof.
  split; intro H.
  - unfold strip, rstrip in H.
    apply rev_nil_iff, lstrip_nil_iff in H. rewrite forallb_rev in H.
    apply lstrip_nil_iff.
    destruct (lstrip s) as [|c r] eqn:E; [reflexivity|].
    exfalso.
    assert (Hc : isspace c = false).
    { clear H. induction s as [|d s IH]; simpl in E; [discriminate|].
      destruct (isspace d) eqn:Hd.
      - apply IH. exact E.
      - injection E as -> _. exact Hd. }
    simpl in H. rewrite Hc in H. discriminate.
  - apply lstrip_nil_iff in H. unfold strip. rewrite H. reflexivity.
Qed.

Lemma truthy_false_iff (s : pystr) : truthy s = false <-> s = [].
Proof. destruct s; simpl; split; congruence. Qed.

Lemma slice_index_range (n i : Z) : 0 <= n -> 0 <= slice_index n i <= n.
Proof. unfold slice_index. destruct (i <? 0) eqn:E; lia. Qed.

Lemma append_segments_concat (full_text : pystr) (segs : list Segment)
    (text : pystr) :
  append_segments full_text segs text =
  text ++ List.concat (map (fun seg =>
                         slice full_text (index_or_zero (start_index seg))
                               (index_or_zero (end_index seg))) segs).
Proof.
  unfold append_segments. revert text.
  induction segs as [|seg segs IH]; intros text; simpl.
  - now rewrite app_nil_r.
  - rewrite IH, <- app_assoc. reflexivity.
Qed.

(** ** CoordinateResolver *)

(** C2, as stated, fails: a block that has a well-formed four-point
    polygon and no text is dropped. *)
Lemma C2_box_without_text_is_dropped :
  let block := block_of None (Some (quad (1 # 10) (1 # 10) (3 # 10) (3 # 10))) in
  snd (block_box_of block)
    = Some (mkBBox (1 # 10) (1 # 10) (3 # 10) (3 # 10)
                   ((3 # 10) - (1 # 10)) ((3 # 10) - (1 # 10)))
  /\ _extract_text_block_with_coordinates block (of_string "abcde") 1 1 = None.
Proof. split; reflexivity. Qed.

(** C2, amended: the extraction of a text block gives [None] exactly when
    the concatenated text is empty or all white space, whatever the
    polygon; otherwise it gives the dictionary holding the text and the
    coordinate part. *)
Theorem C2_none_iff_text_blank (block : Block) (full_text : pystr)
    (page_num block_num : Z) :
  (_extract_text_block_with_coordinates block full_text page_num block_num
     = None
   <-> forallb isspace (block_text_of block full_text) = true)
  /\ (forallb isspace (block_text_of block full_text) = false ->
      _extract_text_block_with_coordinates block full_text page_num block_num
      = Some (mkBlockData page_num block_num
                (block_text_of block full_text)
                (fst (block_box_of block)) (snd (block_box_of block)))).
Proof.
  unfold _extract_text_block_with_coordinates.
  destruct (block_box_of block) as [cs bb]; simpl.
  destruct (truthy (strip (block_text_of block full_text))) eqn:E.
  - assert (Hne : forallb isspace (block_text_of block full_text) <> true).
    { intro H. apply strip_nil_iff in H. rewrite H in E. discriminate. }
    split; [split; [discriminate | contradiction] | reflexivity].
  - apply truthy_false_iff, strip_nil_iff in E.
    split; [tauto | rewrite E; discriminate].
Qed.

Lemma C2_none_iff_text_blank_witness :
  _extract_text_block_with_coordinates
    (block_of (Some [mkSegment (Some 1) (Some 3)]) None)
    (of_string "abcde") 1 1
  = Some (mkBlockData 1 1 (of_string "bc") [] None).
Proof.
  apply (C2_none_iff_text_blank
           (block_of (Some [mkSegment (Some 1) (Some 3)]) None)
           (of_string "abcde") 1 1).
  reflexivity.
Defined.

(** C6, as stated, fails: a negative start index is not clamped to 0, it
    counts from the end of the text. *)
Lemma C6_negative_index_not_clamped :
  block_text_of (block_of (Some [mkSegment (Some (-2)) (Some 5)]) None)
                (of_string "abcde")
    = of_string "de"
  /\ clamped_slice (of_string "abcde") (-2) 5 = of_string "abcde"
  /\ slice (of_string "abcde") (-2) 5 <> clamped_slice (of_string "abcde") (-2) 5.
Proof. repeat split; try reflexivity. discriminate. Qed.

(** C6, amended: the text of a block is the concatenation, in order, of
    one slice per segment, a missing index being 0; the slice is defined
    for all indices, its bounds lie in [[0, len(full_text)]]; a bound that
    is not negative is clamped, a negative bound has the length added
    before it is clamped. *)
Theorem C6_segment_indices (full_text : pystr) :
  let n := Z.of_nat (List.length full_text) in
  (forall segs : list Segment,
      block_text_of (block_of (Some segs) None) full_text
      = List.concat (map (fun seg =>
                       slice full_text (index_or_zero (start_index seg))
                             (index_or_zero (end_index seg))) segs))
  /\ index_or_zero None = 0
  /\ (forall start stop,
        let lo := slice_index n start in
        let hi := slice_index n stop in
        0 <= lo <= n /\ 0 <= hi <= n
        /\ slice full_text start stop
           = firstn (Z.to_nat (hi - lo)) (skipn (Z.to_nat lo) full_text))
  /\ (forall i, 0 <= i -> slice_index n i = clamp n i)
  /\ (forall i, i < 0 -> slice_index n i = clamp n (i + n))
  /\ (forall start stop, 0 <= start -> 0 <= stop ->
        slice full_text start stop = clamped_slice full_text start stop).
Proof.
  intros n.
  assert (Hn : 0 <= n) by (unfold n; lia).
  assert (Hpos : forall i, 0 <= i -> slice_index n i = clamp n i).
  { intros i Hi. unfold slice_index, clamp.
    destruct (i <? 0) eqn:E; lia. }
  repeat split.
  - intros segs. simpl. apply append_segments_concat.
  - apply slice_index_range; exact Hn.
  - apply slice_index_range; exact Hn.
  - apply slice_index_range; exact Hn.
  - apply slice_index_range; exact Hn.
  - exact Hpos.
  - intros i Hi. unfold slice_index, clamp.
    destruct (i <? 0) eqn:E; lia.
  - intros start stop Hs He. unfold slice, clamped_slice. fold n.
    rewrite (Hpos start Hs), (Hpos stop He). reflexivity.
Qed.

Lemma C6_segment_indices_witness :
  slice (of_string "abcde") 3 99 = clamped_slice (of_string "abcde") 3 99.
Proof.
  apply (C6_segment_indices (of_string "abcde")); lia.
Defined.

(** ** ImageCropper *)

Lemma int_of_float_nonneg (x : Q) : (0 <= x)%Q -> int_of_float x = Qfloor x.
Proof.
  intros H. unfold int_of_float, Qfloor. destruct x as [n d]; simpl.
  unfold Qle in H; simpl in H.
  apply Z.quot_div_nonneg; lia.
Qed.

Lemma scaled_nonneg (x : Q) (w : Z) :
  (0 <= x)%Q -> 0 <= w -> (0 <= x * inject_Z w)%Q.
Proof.
  intros Hx Hw. apply Qmult_le_0_compat; [exact Hx|].
  unfold Qle; simpl. lia.
Qed.

(** The cropper returns a dictionary exactly when every step it takes
    succeeds, and then the dictionary holds the truncated pixel box. *)
Lemma crop_some_iff (lib : ImageLibrary) (figure : VisualElement)
    (page_image : PageImage) (info : CroppedInfo) :
  _crop_figure_from_page lib figure page_image = Some info
  <-> exists page_img bbox cropped_img filename,
        image_open lib (pi_filepath page_image) = Some page_img
        /\ ve_bounding_box figure = Some bbox
        /\ image_crop lib page_img
             (to_pixel_box bbox (image_size lib page_img)) = Some cropped_img
        /\ crop_filename figure = Some filename
        /\ image_save lib cropped_img filename = Some tt
        /\ info =
           let box := to_pixel_box bbox (image_size lib page_img) in
           mkCroppedInfo (ve_page figure) (ve_element_id figure)
             filename filename (ve_coordinates figure) box
             (pix_right box - pix_left box) (pix_bottom box - pix_top box).
Proof.
  unfold _crop_figure_from_page, to_pixel_box.
  destruct (image_open lib (pi_filepath page_image)) as [page_img|];
    [|split; [discriminate | intros (?&?&?&?&H&_); discriminate]].
  destruct (image_size lib page_img) as [w h] eqn:Hsz; simpl.
  destruct (ve_bounding_box figure) as [bbox|];
    [|split; [discriminate | intros (?&?&?&?&_&H&_); discriminate]].
  split.
  - destruct (image_crop lib page_img _) as [c|] eqn:Hc; [|discriminate].
    destruct (crop_filename figure) as [fn|]; [|discriminate].
    destruct (image_save lib c fn) as [[]|] eqn:Hs; [|discriminate].
    intros [= <-].
    exists page_img, bbox, c, fn. rewrite Hsz. simpl.
    repeat split; assumption.
  - intros (pi' & bb & c & fn & [= <-] & [= <-] & Hc & Hf & Hs & ->).
    rewrite Hsz in *. simpl in *. rewrite Hc, Hf, Hs. reflexivity.
Qed.




(** C5: for a box whose coordinates are not negative, on a raster whose
    sides are not negative, a crop whose library calls succeed returns the
    pixel box [floor(box.left * width)], [floor(box.top * height)],
    [floor(box.right * width)], [floor(box.bottom * height)]. *)
Theorem C5_pixel_box_is_floor (lib : ImageLibrary) (figure : VisualElement)
    (page_image : PageImage) (bbox : BBox) (page_img : image lib)
    (cropped_img : image lib) (filename : FileName) :
  ve_bounding_box figure = Some bbox ->
  (0 <= left bbox)%Q -> (0 <= top bbox)%Q ->
  (0 <= right bbox)%Q -> (0 <= bottom bbox)%Q ->
  image_open lib (pi_filepath page_image) = Some page_img ->
  0 <= fst (image_size lib page_img) ->
  0 <= snd (image_size lib page_img) ->
  image_crop lib page_img (floor_pixel_box bbox (image_size lib page_img))
    = Some cropped_img ->
  crop_filename figure = Some filename ->
  image_save lib cropped_img filename = Some tt ->
  exists info,
    _crop_figure_from_page lib figure page_image = Some info
    /\ ci_pixel_coordinates info
       = floor_pixel_box bbox (image_size lib page_img).
Proof.
  intros Hb Hl Ht Hr Hbt Ho Hw Hh Hc Hf Hs.
  assert (E : to_pixel_box bbox (image_size lib page_img)
              = floor_pixel_box bbox (image_size lib page_img)).
  { unfold to_pixel_box, floor_pixel_box.
    rewrite !int_of_float_nonneg by (apply scaled_nonneg; assumption).
    reflexivity. }
  eexists. split.
  - apply crop_some_iff.
    exists page_img, bbox, cropped_img, filename.
    rewrite E. repeat split; try eassumption; reflexivity.
  - reflexivity.
Qed.

Lemma C5_pixel_box_is_floor_witness :
  exists info,
    _crop_figure_from_page (raster_library (fun _ => Some (1000, 1000)))
      (detected_figure 1 1 (1 # 10) (1 # 10) (3 # 10) (3 # 10))
      (page_image_of 1 1000 1000) = Some info
    /\ ci_pixel_coordinates info = mkPixelBox 100 100 300 300.
Proof.
  apply (C5_pixel_box_is_floor
           (raster_library (fun _ => Some (1000, 1000)))
           (detected_figure 1 1 (1 # 10) (1 # 10) (3 # 10) (3 # 10))
           (page_image_of 1 1000 1000)
           (mkBBox (1 # 10) (1 # 10) (3 # 10) (3 # 10)
                   ((3 # 10) - (1 # 10)) ((3 # 10) - (1 # 10)))
           (1000, 1000) (200, 200) (FigureFile 1 (IdNumber 1)));
    try reflexivity; simpl; try lia; unfold Qle; simpl; lia.
Defined.

(** The truncation is not the floor below zero. *)
Example int_of_float_negative :
  int_of_float (-1 # 2) = 0 /\ Qfloor (-1 # 2) = -1.
Proof. split; reflexivity. Qed.

(** ** RegionEstimator *)

(** C3: with fewer than two text regions the grid estimator produces no
    region, and the call on a page that yields fewer than two text regions
    leaves the results as they were. *)
Theorem C3_fewer_than_two_regions (text_regions : list TextRegion)
    (page_num : Z) :
  (List.length text_regions < 2)%nat ->
  gap_figures text_regions page_num = []
  /\ forall page results bs,
       page_blocks page = Some bs ->
       collect_text_regions bs [] = Some text_regions ->
       _estimate_visual_regions_from_text_gaps page results page_num
       = results.
Proof.
  intros Hlen.
  assert (E : gap_figures text_regions page_num = []).
  { unfold gap_figures.
    destruct (List.length text_regions <? 2)%nat eqn:Hlt; [reflexivity|].
    apply Nat.ltb_ge in Hlt. lia. }
  split; [exact E|].
  intros page results bs Hp Hc.
  unfold _estimate_visual_regions_from_text_gaps.
  rewrite Hp, Hc, E. reflexivity.
Qed.

Lemma C3_fewer_than_two_regions_witness :
  gap_figures [mkTextRegion (1 # 10) (1 # 10) (9 # 10) (5 # 10)] 1 = []
  /\ gap_figures [] 1 = [].
Proof.
  split.
  - apply (C3_fewer_than_two_regions
             [mkTextRegion (1 # 10) (1 # 10) (9 # 10) (5 # 10)] 1).
    simpl. lia.
  - apply (C3_fewer_than_two_regions [] 1). simpl. lia.
Defined.

(** ** KeywordRegionEstimator *)

Lemma visual_elements_append_figure (e : VisualElement) (r : Results) :
  visual_elements (append_figure e r) = visual_elements r ++ [e].
Proof. reflexivity. Qed.

Lemma append_estimates_elements (self : Processor) (keyword : pystr)
    (ms : list TextBlock) (r : Results) :
  visual_elements (append_estimates self keyword ms r)
  = visual_elements r ++ flat_map (estimate_of self keyword) (enumerate ms).
Proof.
  unfold append_estimates. generalize (enumerate ms) as l. intros l.
  revert r. induction l as [|im l IH]; intros r; cbn [fold_left flat_map].
  - now rewrite app_nil_r.
  - rewrite IH.
    assert (E : visual_elements
                  match _create_estimated_image_area self (snd im) keyword
                          (Z.of_nat (fst im) + 1) with
                  | Some estimated_area => append_figure estimated_area r
                  | None => r
                  end
                = visual_elements r ++ estimate_of self keyword im).
    { unfold estimate_of.
      destruct (_create_estimated_image_area self (snd im) keyword
                  (Z.of_nat (fst im) + 1)) as [a|].
      - reflexivity.
      - now rewrite app_nil_r. }
    rewrite E, <- app_assoc. reflexivity.
Qed.

Lemma keyword_loop_elements (self : Processor) (keywords : list pystr)
    (bs : list Block) (full_text : pystr) (r : Results) :
  visual_elements (keyword_loop self keywords bs full_text r)
  = visual_elements r ++ keyword_figures self keywords bs full_text.
Proof.
  revert r. induction keywords as [|kw kws IH]; intros r; simpl.
  - now rewrite app_nil_r.
  - destruct (matching_blocks_from kw full_text (enumerate bs) []) as [ms|].
    + rewrite IH, append_estimates_elements, <- app_assoc. reflexivity.
    + now rewrite app_nil_r.
Qed.

Lemma matching_blocks_from_In (keyword full_text : pystr)
    (ibs : list (nat * Block)) :
  forall acc ms,
    matching_blocks_from keyword full_text ibs acc = Some ms ->
    (forall m, In m acc -> In m ms)
    /\ (forall i b tb, In (i, b) ibs ->
          match_block keyword full_text i b = Some (Some tb) -> In tb ms).
Proof.
  induction ibs as [|[j c] ibs IH]; intros acc ms H; simpl in H.
  - injection H as <-. split; [tauto|]. intros i b tb [].
  - destruct (match_block keyword full_text j c) as [[m|]|] eqn:E;
      [| |discriminate].
    + destruct (IH _ _ H) as [Hacc Hin]. split.
      * intros x Hx. apply Hacc, in_or_app. now left.
      * intros i b tb [[= <- <-]|Hi] Hm.
        -- rewrite E in Hm. injection Hm as <-.
           apply Hacc, in_or_app. right. now left.
        -- eapply Hin; eassumption.
    + destruct (IH _ _ H) as [Hacc Hin]. split; [exact Hacc|].
      intros i b tb [[= <- <-]|Hi] Hm.
      * rewrite E in Hm. discriminate.
      * eapply Hin; eassumption.
Qed.

Lemma In_combine_seq {A : Type} (x : A) (l : list A) :
  forall start, In x l ->
    exists i, In (i, x) (combine (seq start (List.length l)) l).
Proof.
  induction l as [|a l IH]; intros start H; simpl in *.
  - contradiction.
  - destruct H as [->|H].
    + exists start. now left.
    + destruct (IH (S start) H) as [i Hi]. exists i. now right.
Qed.

Lemma keyword_figures_In (self : Processor) (full_text : pystr)
    (bs : list Block) (keyword : pystr) (tb : TextBlock) :
  forall keywords,
    (forall kw, In kw keywords ->
       matching_blocks_from kw full_text (enumerate bs) [] <> None) ->
    In keyword keywords ->
    (exists i b, In (i, b) (enumerate bs)
                 /\ match_block keyword full_text i b = Some (Some tb)) ->
    exists n a,
      _create_estimated_image_area self tb keyword n = Some a
      /\ In a (keyword_figures self keywords bs full_text).
Proof.
  induction keywords as [|kw kws IH]; intros Hok Hin Hm; [destruct Hin|].
  simpl.
  destruct (matching_blocks_from kw full_text (enumerate bs) []) as [ms|] eqn:E;
    [|exfalso; apply (Hok kw); [now left | exact E]].
  destruct Hin as [->|Hin].
  - destruct Hm as (i & b & Hib & Hmb).
    destruct (matching_blocks_from_In _ _ _ _ _ E) as [_ Hall].
    specialize (Hall i b tb Hib Hmb).
    destruct (In_combine_seq tb ms 0%nat Hall) as [k Hk].
    destruct (_create_estimated_image_area self tb keyword (Z.of_nat k + 1))
      as [a|] eqn:Ea; [|discriminate].
    exists (Z.of_nat k + 1), a. split; [exact Ea|].
    apply in_or_app. left. apply in_flat_map.
    exists (k, tb). split; [exact Hk|].
    unfold estimate_of; cbn [fst snd]. rewrite Ea. now left.
  - destruct (IH (fun k Hk => Hok k (or_intror Hk)) Hin Hm)
      as (n & a & Ha & Hia).
    exists n, a. split; [exact Ha|]. apply in_or_app. now right.
Qed.

(** A block with text segments and a four-point polygon whose text
    contains the keyword matches, with the coordinates of its points 0
    and 2. *)
Lemma match_block_quad (keyword full_text : pystr) (block_idx : nat)
    (segs : list Segment) (l t r b : Q) :
  contains keyword (append_segments full_text segs []) = true ->
  match_block keyword full_text block_idx
    (block_of (Some segs) (Some (quad l t r b)))
  = Some (Some (mkTextBlock (Z.of_nat block_idx + 1)
                  (strip (append_segments full_text segs []))
                  keyword l t r b)).
Proof.
  intros H. unfold match_block. simpl. rewrite H. reflexivity.
Qed.

Lemma estimate_of_page (self : Processor) (keyword : pystr)
    (im : nat * TextBlock) (e : VisualElement) :
  In e (estimate_of self keyword im) ->
  ve_page e = 1 /\ ve_source e = Some "keyword_search"%string
  /\ is_figure_type (ve_type e) = true.
Proof.
  unfold estimate_of, _create_estimated_image_area.
  intros [<-|[]]. repeat split.
Qed.

Lemma keyword_figures_page (self : Processor) (bs : list Block)
    (full_text : pystr) (keywords : list pystr) :
  Forall (fun e => ve_page e = 1
                   /\ ve_source e = Some "keyword_search"%string
                   /\ is_figure_type (ve_type e) = true)
         (keyword_figures self keywords bs full_text).
Proof.
  induction keywords as [|kw kws IH]; simpl; [constructor|].
  destruct (matching_blocks_from kw full_text (enumerate bs) []) as [ms|];
    [|constructor].
  apply Forall_app. split; [|exact IH].
  apply Forall_forall. intros e He. apply in_flat_map in He.
  destruct He as (im & _ & He). eapply estimate_of_page; exact He.
Qed.

(** C4: a block that the keyword search matches gets an estimated region
    whose box is [left = max(0, cx - offset.left)],
    [right = min(1, cx + offset.right)], [top = max(0, cy - offset.top)],
    [bottom = min(1, cy + offset.bottom)] around the centre [(cx, cy)] of
    the block's box; with the centre at (0.5, 0.5) and the offsets 0.1,
    0.1, 0.15, 0.15 the box is 0.35, 0.4, 0.65, 0.6. *)
Theorem C4_keyword_estimate_box (self : Processor) (page : Page)
    (results : Results) (page_num : Z) (full_text : pystr)
    (bs : list Block) (keyword : pystr) (block_idx : nat) (block : Block)
    (tb : TextBlock) :
  page_blocks page = Some bs ->
  (forall kw, In kw (chair_keywords self) ->
     matching_blocks_from kw full_text (enumerate bs) [] <> None) ->
  In keyword (chair_keywords self) ->
  In (block_idx, block) (enumerate bs) ->
  match_block keyword full_text block_idx block = Some (Some tb) ->
  let cx := ((tb_left tb + tb_right tb) / 2)%Q in
  let cy := ((tb_top tb + tb_bottom tb) / 2)%Q in
  let offset := area_offset self in
  exists area bbox,
    In area (visual_elements
               (_extract_estimated_image_areas_by_keywords
                  self page results page_num full_text))
    /\ ve_bounding_box area = Some bbox
    /\ left bbox = Qmax 0 (cx - off_left offset)
    /\ right bbox = Qmin 1 (cx + off_right offset)
    /\ top bbox = Qmax 0 (cy - off_top offset)
    /\ bottom bbox = Qmin 1 (cy + off_bottom offset)
    /\ (cx == 1 # 2 -> cy == 1 # 2 ->
        offset = mkOffset (1 # 10) (1 # 10) (15 # 100) (15 # 100) ->
        left bbox == 35 # 100 /\ top bbox == 4 # 10
        /\ right bbox == 65 # 100 /\ bottom bbox == 6 # 10)%Q.
Proof.
  intros Hp Hok Hkw Hib Hm cx cy offset.
  destruct (keyword_figures_In self full_text bs keyword tb
              (chair_keywords self) Hok Hkw
              (ex_intro _ block_idx (ex_intro _ block (conj Hib Hm))))
    as (n & a & Ha & Hin).
  unfold _create_estimated_image_area in Ha. injection Ha as <-.
  eexists. eexists. split.
  { unfold _extract_estimated_image_areas_by_keywords. rewrite Hp.
    rewrite keyword_loop_elements. apply in_or_app. right. exact Hin. }
  split; [reflexivity|].
  - cbn [left right top bottom]. fold cx cy offset.
    repeat split; try reflexivity;
      match goal with H : offset = _ |- _ => rewrite H end;
      cbn [off_left off_right off_top off_bottom].
    + rewrite Q.max_r; lra.
    + rewrite Q.max_r; lra.
    + rewrite Q.min_r; lra.
    + rewrite Q.min_r; lra.
Qed.

Lemma C4_keyword_estimate_box_witness :
  let keyword := [12456; 12483; 12464; 12481; 12455; 12450]%N in
  let full_text := ([120] ++ keyword ++ [121])%N in
  let block :=
    block_of (Some [mkSegment (Some 0) (Some 8)])
             (Some (quad (4 # 10) (45 # 100) (6 # 10) (55 # 100))) in
  exists area bbox,
    In area (visual_elements
               (_extract_estimated_image_areas_by_keywords init_processor
                  (mkPage (Some [block])) empty_results 1 full_text))
    /\ ve_bounding_box area = Some bbox
    /\ (left bbox == 35 # 100 /\ top bbox == 4 # 10
        /\ right bbox == 65 # 100 /\ bottom bbox == 6 # 10)%Q.
Proof.
  intros keyword full_text block.
  destruct (C4_keyword_estimate_box init_processor (mkPage (Some [block]))
              empty_results 1 full_text [block] keyword 0%nat block
              (mkTextBlock 1 full_text keyword
                 (4 # 10) (45 # 100) (6 # 10) (55 # 100)))
    as (area & bbox & Hin & Hbb & _ & _ & _ & _ & Hex).
  - reflexivity.
  - intros kw Hkw. simpl in Hkw.
    repeat (destruct Hkw as [<-|Hkw]; [vm_compute; discriminate|]).
    destruct Hkw.
  - simpl. now left.
  - simpl. now left.
  - reflexivity.
  - exists area, bbox. split; [exact Hin|]. split; [exact Hbb|].
    apply Hex; reflexivity.
Defined.

(** C9: every region that the keyword search appends records page 1,
    whatever page number the search was called with, so the page image
    that the cropping loop pairs with it is the first one recorded for
    page 1. *)
Theorem C9_keyword_estimates_record_page_one (self : Processor) (page : Page)
    (results : Results) (page_num : Z) (full_text : pystr) :
  let out :=
    _extract_estimated_image_areas_by_keywords self page results page_num
      full_text in
  exists new,
    visual_elements out = visual_elements results ++ new
    /\ page_images out = page_images results
    /\ forall e, In e new ->
         ve_page e = 1
         /\ ve_source e = Some "keyword_search"%string
         /\ In e (figure_elements out)
         /\ forall lib r,
              crop_of lib r e
              = match find (fun img => pi_page img =? 1) (page_images r) with
                | Some page_image => _crop_figure_from_page lib e page_image
                | None => None
                end.
Proof.
  intros out.
  assert (Himg : forall kws bs r,
             page_images (keyword_loop self kws bs full_text r)
             = page_images r).
  { induction kws as [|kw kws IH]; intros bs r; simpl; [reflexivity|].
    destruct (matching_blocks_from kw full_text (enumerate bs) []) as [ms|];
      [|reflexivity].
    rewrite IH. unfold append_estimates.
    generalize (enumerate ms) as l. intros l. revert r.
    induction l as [|im l IHl]; intros r; cbn [fold_left]; [reflexivity|].
    rewrite IHl.
    destruct (_create_estimated_image_area self (snd im) kw
                (Z.of_nat (fst im) + 1)); reflexivity. }
  assert (Hnew : exists new,
             visual_elements out = visual_elements results ++ new
             /\ page_images out = page_images results
             /\ Forall (fun e => ve_page e = 1
                          /\ ve_source e = Some "keyword_search"%string
                          /\ is_figure_type (ve_type e) = true) new).
  { unfold out, _extract_estimated_image_areas_by_keywords.
    destruct (page_blocks page) as [bs|].
    - exists (keyword_figures self (chair_keywords self) bs full_text).
      split; [apply keyword_loop_elements|].
      split; [apply Himg | apply keyword_figures_page].
    - exists []. rewrite app_nil_r. repeat split. constructor. }
  destruct Hnew as (new & Hv & Hi & Hall).
  exists new. split; [exact Hv|]. split; [exact Hi|].
  intros e He. rewrite Forall_forall in Hall.
  destruct (Hall e He) as (Hpage & Hsrc & Hty).
  repeat split; try assumption.
  - unfold figure_elements. apply filter_In. split; [|exact Hty].
    rewrite Hv. apply in_or_app. now right.
  - intros lib r. unfold crop_of, find_page_image. rewrite Hpage.
    reflexivity.
Qed.

Lemma C9_keyword_estimates_record_page_one_witness :
  Forall (fun e => ve_page e = 1)
    (visual_elements
       (_extract_estimated_image_areas_by_keywords init_processor
          (mkPage (Some [block_of (Some [mkSegment (Some 0) (Some 6)])
                           (Some (quad (4 # 10) (45 # 100)
                                       (6 # 10) (55 # 100)))]))
          empty_results 2
          [12456; 12483; 12464; 12481; 12455; 12450]%N)).
Proof.
  destruct (C9_keyword_estimates_record_page_one init_processor
              (mkPage (Some [block_of (Some [mkSegment (Some 0) (Some 6)])
                               (Some (quad (4 # 10) (45 # 100)
                                           (6 # 10) (55 # 100)))]))
              empty_results 2
              [12456; 12483; 12464; 12481; 12455; 12450]%N)
    as (new & Hv & _ & Hall).
  rewrite Hv. apply Forall_forall. intros e He. apply Hall. exact He.
Defined.

(** A keyword found on page 2 is cropped out of the image of page 1: the
    pixel box is scaled by the 1000 x 1000 of page 1, not by the 500 x 500
    of page 2. *)
Example keyword_on_page_two_cropped_from_page_one :
  let keyword := [12456; 12483; 12464; 12481; 12455; 12450]%N in
  let block :=
    block_of (Some [mkSegment (Some 0) (Some 6)])
             (Some (quad (4 # 10) (45 # 100) (6 # 10) (55 # 100))) in
  let lib :=
    raster_library
      (fun f => match f with
                | PageFile 1 => Some (1000, 1000)
                | PageFile 2 => Some (500, 500)
                | _ => None
                end) in
  let r0 :=
    mkResults keyword [] [] []
      [page_image_of 1 1000 1000; page_image_of 2 500 500]
      (mkSummary 2 0 0 0 2) in
  let r1 :=
    _extract_estimated_image_areas_by_keywords init_processor
      (mkPage (Some [block])) r0 2 keyword in
  map ci_pixel_coordinates (extracted_figures (fst (_extract_figure_images lib r1)))
  = [mkPixelBox 350 400 650 600]
  /\ map ci_page (extracted_figures (fst (_extract_figure_images lib r1)))
     = [1].
Proof. split; vm_compute; reflexivity. Qed.

(** ** Isolation of failures *)

Lemma keep_some_app {A B : Type} (f : A -> option B) (l1 l2 : list A) :
  keep_some f (l1 ++ l2) = keep_some f l1 ++ keep_some f l2.
Proof. unfold keep_some. apply flat_map_app. Qed.

Lemma crop_step_page_images (lib : ImageLibrary) (st : CropState)
    (figure : VisualElement) :
  page_images (cs_results (crop_step lib st figure))
  = page_images (cs_results st).
Proof.
  unfold crop_step.
  destruct (find_page_image (cs_results st) (ve_page figure)) as [pi|];
    [|reflexivity].
  destruct (_crop_figure_from_page lib figure pi); reflexivity.
Qed.

(** The state of the cropping loop after a run over [figures]. *)
Lemma crop_loop_state (lib : ImageLibrary) (results : Results)
    (figures : list VisualElement) :
  forall st,
    page_images (cs_results st) = page_images results ->
    let st' := fold_left (crop_step lib) figures st in
    extracted_figures (cs_results st')
    = extracted_figures (cs_results st)
      ++ keep_some (crop_of lib results) figures
    /\ cs_extracted_count st'
       = cs_extracted_count st
         + Z.of_nat (List.length (keep_some (crop_of lib results) figures))
    /\ filter is_warning (cs_log st')
       = filter is_warning (cs_log st)
         ++ map (fun figure =>
                   match find_page_image results (ve_page figure) with
                   | Some _ => LogCropError
                   | None => LogPageImageMissing (ve_page figure)
                   end)
                (keep_none (crop_of lib results) figures)
    /\ full_text (cs_results st') = full_text (cs_results st)
    /\ text_blocks (cs_results st') = text_blocks (cs_results st)
    /\ visual_elements (cs_results st') = visual_elements (cs_results st)
    /\ page_images (cs_results st') = page_images (cs_results st)
    /\ summary (cs_results st') = summary (cs_results st).
Proof.
  induction figures as [|figure figures IH]; intros st Hst; cbn [fold_left].
  - cbn. rewrite !app_nil_r, Z.add_0_r. repeat split.
  - assert (Hst' : page_images (cs_results (crop_step lib st figure))
                   = page_images results)
      by (rewrite crop_step_page_images; exact Hst).
    specialize (IH _ Hst'). cbv zeta in IH.
    destruct IH as (He & Hc & Hl & H1 & H2 & H3 & H4 & H5).
    rewrite He, Hc, Hl, H1, H2, H3, H4, H5. clear He Hc Hl H1 H2 H3 H4 H5.
    assert (Hf : find_page_image (cs_results st) (ve_page figure)
                 = find_page_image results (ve_page figure))
      by (unfold find_page_image; rewrite Hst; reflexivity).
    unfold crop_step, keep_some, keep_none, crop_of. cbn [flat_map filter].
    rewrite Hf.
    destruct (find_page_image results (ve_page figure)) as [pi|] eqn:Efind.
    + destruct (_crop_figure_from_page lib figure pi) as [info|].
      * cbn [cs_results cs_extracted_count cs_log add_extracted
             extracted_figures full_text text_blocks visual_elements
             page_images summary app List.length].
        rewrite filter_app. cbn [filter is_warning]. rewrite app_nil_r.
        rewrite <- app_assoc. cbn [app].
        repeat split. lia.
      * cbn [cs_results cs_extracted_count cs_log app map].
        rewrite filter_app, Efind. cbn [filter is_warning].
        rewrite <- app_assoc. repeat split.
    + cbn [cs_results cs_extracted_count cs_log app map].
      rewrite filter_app, Efind. cbn [filter is_warning].
      rewrite <- app_assoc. repeat split.
Qed.

Lemma add_text_block_fields (bd : BlockData) (r : Results) :
  text_blocks (add_text_block bd r) = text_blocks r ++ [bd].
Proof. reflexivity. Qed.

(** The page loop keeps exactly the blocks whose own extraction gives a
    dictionary. *)
Lemma extract_page_blocks_text_blocks (document_text : pystr)
    (page_idx : nat) (bs : list Block) (results : Results) :
  text_blocks (extract_page_blocks document_text page_idx bs results)
  = text_blocks results
    ++ keep_some
         (fun ib => _extract_text_block_with_coordinates (snd ib)
                      document_text (Z.of_nat page_idx + 1)
                      (Z.of_nat (fst ib) + 1))
         (enumerate bs).
Proof.
  unfold extract_page_blocks. generalize (enumerate bs) as l. intros l.
  revert results. induction l as [|[i b] l IH]; intros r.
  - cbn. now rewrite app_nil_r.
  - cbn [fold_left]. rewrite IH. unfold keep_some. cbn [flat_map fst snd].
    destruct (_extract_text_block_with_coordinates b document_text
                (Z.of_nat page_idx + 1) (Z.of_nat i + 1)) as [bd|].
    + rewrite add_text_block_fields, <- app_assoc. reflexivity.
    + reflexivity.
Qed.

(** C8, as stated, fails: of two figures the first fails to crop (its box
    has no width) and the second succeeds; the results hold the second
    crop and the count 1, and nothing in them records the first. *)
Lemma C8_failed_crop_is_not_recorded :
  let lib := raster_library (fun _ => Some (1000, 1000)) in
  let f1 := detected_figure 1 1 (3 # 10) (1 # 10) (3 # 10) (3 # 10) in
  let f2 := detected_figure 1 2 (1 # 10) (1 # 10) (3 # 10) (3 # 10) in
  let page_image := page_image_of 1 1000 1000 in
  let results :=
    mkResults [] [] [f1; f2] [] [page_image] (mkSummary 1 0 2 0 1) in
  let info2 :=
    mkCroppedInfo 1 (IdNumber 2) (FigureFile 1 (IdNumber 2))
      (FigureFile 1 (IdNumber 2)) (ve_coordinates f2)
      (mkPixelBox 100 100 300 300) 200 200 in
  _crop_figure_from_page lib f1 page_image = None
  /\ _extract_figure_images lib results
     = (mkResults [] [] [f1; f2] [info2] [page_image] (mkSummary 1 0 1 0 1),
        [LogStart 2; LogCropError; LogCropped (FigureFile 1 (IdNumber 2));
         LogDone 1])
  /\ ~ recorded (fst (_extract_figure_images lib results)) f1.
Proof.
  split; [reflexivity|]. split; [reflexivity|].
  intros (info & Hin & _ & Hid). simpl in Hin.
  destruct Hin as [<-|[]]. discriminate.
Qed.

(** C8, amended: a failure stays with its element. The cropping loop
    appends to [extracted_figures] the crops that succeed, in order,
    whatever happens to the other figures, and counts them; a figure whose
    page image is missing or whose crop fails leaves one printed warning
    and nothing in the results. The page loop over the text blocks keeps,
    in the same way, the blocks whose own extraction gives a dictionary. *)
Theorem C8_failures_are_skipped_and_logged (lib : ImageLibrary)
    (results : Results) :
  let figures := figure_elements results in
  let out := _extract_figure_images lib results in
  extracted_figures (fst out)
    = extracted_figures results ++ keep_some (crop_of lib results) figures
  /\ (forall figure info,
        In figure figures -> crop_of lib results figure = Some info ->
        In info (extracted_figures (fst out)))
  /\ total_figures (summary (fst out))
     = match figures with
       | [] => total_figures (summary results)
       | _ => Z.of_nat (List.length (keep_some (crop_of lib results) figures))
       end
  /\ List.length (filter is_warning (snd out))
     = List.length (keep_none (crop_of lib results) figures)
  /\ full_text (fst out) = full_text results
  /\ text_blocks (fst out) = text_blocks results
  /\ visual_elements (fst out) = visual_elements results
  /\ page_images (fst out) = page_images results
  /\ forall document_text page_idx bs,
       text_blocks (extract_page_blocks document_text page_idx bs results)
       = text_blocks results
         ++ keep_some
              (fun ib => _extract_text_block_with_coordinates (snd ib)
                           document_text (Z.of_nat page_idx + 1)
                           (Z.of_nat (fst ib) + 1))
              (enumerate bs).
Proof.
  intros figures out.
  assert (Hex : extracted_figures (fst out)
                = extracted_figures results
                  ++ keep_some (crop_of lib results) figures
              /\ total_figures (summary (fst out))
                 = match figures with
                   | [] => total_figures (summary results)
                   | _ => Z.of_nat (List.length
                                      (keep_some (crop_of lib results) figures))
                   end
              /\ List.length (filter is_warning (snd out))
                 = List.length (keep_none (crop_of lib results) figures)
              /\ full_text (fst out) = full_text results
              /\ text_blocks (fst out) = text_blocks results
              /\ visual_elements (fst out) = visual_elements results
              /\ page_images (fst out) = page_images results).
  { unfold out, _extract_figure_images. fold figures.
    destruct figures as [|f fs] eqn:Ef.
    - cbn. rewrite app_nil_r. repeat split.
    - rewrite <- Ef.
      pose proof (crop_loop_state lib results figures
                    (mkCropState results 0 [LogStart (List.length figures)])
                    eq_refl) as H.
      cbv zeta in H. destruct H as (He & Hc & Hl & H1 & H2 & H3 & H4 & H5).
      cbn [fst snd extracted_figures summary total_figures
           set_total_figures full_text text_blocks visual_elements
           page_images].
      rewrite He, Hc, H1, H2, H3, H4.
      cbn [cs_results cs_extracted_count].
      rewrite filter_app, Hl.
      cbn [filter is_warning cs_log app]. rewrite app_nil_r, length_map.
      rewrite Ef. repeat split. }
  destruct Hex as (He & Ht & Hw & H1 & H2 & H3 & H4).
  repeat split; try assumption.
  - intros figure info Hin Hsome. rewrite He. apply in_or_app. right.
    unfold keep_some. apply in_flat_map. exists figure.
    split; [exact Hin|]. rewrite Hsome. now left.
  - intros document_text page_idx bs.
    apply extract_page_blocks_text_blocks.
Qed.

Lemma C8_failures_are_skipped_and_logged_witness :
  List.length
    (filter is_warning
       (snd (_extract_figure_images
               (raster_library (fun _ => Some (1000, 1000)))
               (mkResults [] []
                  [detected_figure 1 1 (3 # 10) (1 # 10) (3 # 10) (3 # 10);
                   detected_figure 1 2 (1 # 10) (1 # 10) (3 # 10) (3 # 10)]
                  [] [page_image_of 1 1000 1000] (mkSummary 1 0 2 0 1)))))
  = 1%nat.
Proof.
  destruct (C8_failures_are_skipped_and_logged
              (raster_library (fun _ => Some (1000, 1000)))
              (mkResults [] []
                 [detected_figure 1 1 (3 # 10) (1 # 10) (3 # 10) (3 # 10);
                  detected_figure 1 2 (1 # 10) (1 # 10) (3 # 10) (3 # 10)]
                 [] [page_image_of 1 1000 1000] (mkSummary 1 0 2 0 1)))
    as (_ & _ & _ & Hw & _).
  rewrite Hw. reflexivity.
Defined.

(** The keyword search reads [text_segments] without a test, so a block
    whose anchor lacks it stops the search: the block after it is not
    looked at. *)
Example keyword_search_stops_at_malformed_block :
  let keyword := [12456; 12483; 12464; 12481; 12455; 12450]%N in
  let good :=
    block_of (Some [mkSegment (Some 0) (Some 6)])
             (Some (quad (4 # 10) (45 # 100) (6 # 10) (55 # 100))) in
  let bad := mkBlock (Some (mkLayout (Some (mkTextAnchor None)) None)) in
  List.length (visual_elements
     (_extract_estimated_image_areas_by_keywords init_processor
        (mkPage (Some [good])) empty_results 1 keyword)) = 1%nat
  /\ visual_elements
       (_extract_estimated_image_areas_by_keywords init_processor
          (mkPage (Some [bad; good])) empty_results 1 keyword) = [].
Proof. split; vm_compute; reflexivity. Qed.

(** ** RegionMerger *)

Lemma Qltb_lt (a b : Q) : Qltb a b = true <-> (a < b)%Q.
Proof.
  unfold Qltb. rewrite Qlt_alt.
  destruct (a ?= b)%Q; split; congruence.
Qed.

Lemma adjacent_iff (tol : Q) (c o : Area) :
  adjacent tol c o = true
  <-> (Qabs (a_right c - a_left o) < tol
       \/ Qabs (a_left c - a_right o) < tol
       \/ Qabs (a_bottom c - a_top o) < tol
       \/ Qabs (a_top c - a_bottom o) < tol)%Q.
Proof.
  unfold adjacent. rewrite !orb_true_iff, !Qltb_lt. tauto.
Qed.

Lemma used_mem_In (j : nat) (used : list nat) :
  used_mem j used = true <-> In j used.
Proof.
  unfold used_mem. rewrite existsb_exists. split.
  - intros (x & Hx & E). apply Nat.eqb_eq in E. now subst.
  - intros H. exists j. split; [exact H | apply Nat.eqb_refl].
Qed.

Lemma used_mem_not_In (j : nat) (used : list nat) :
  used_mem j used = false <-> ~ In j used.
Proof.
  rewrite <- used_mem_In. destruct (used_mem j used); split; congruence.
Qed.

Lemma combine_seq_nth {A : Type} (l : list A) :
  forall s j a,
    In (j, a) (combine (seq s (List.length l)) l) ->
    (s <= j)%nat /\ nth_error l (j - s) = Some a.
Proof.
  induction l as [|x l IH]; intros s j a H; simpl in H.
  - contradiction.
  - destruct H as [[= <- <-]|H].
    + rewrite Nat.sub_diag. split; [lia | reflexivity].
    + destruct (IH _ _ _ H) as [Hle Hn]. split; [lia|].
      replace (j - s)%nat with (S (j - S s)) by lia. exact Hn.
Qed.

Lemma enumerate_nth {A : Type} (l : list A) (j : nat) (a : A) :
  In (j, a) (enumerate l) -> nth_error l j = Some a.
Proof.
  intros H. apply combine_seq_nth in H. destruct H as [_ H].
  now rewrite Nat.sub_0_r in H.
Qed.

Lemma fold_left_invariant {S X : Type} (P : S -> Prop) (f : S -> X -> S)
    (l : list X) :
  (forall st x, In x l -> P st -> P (f st x)) ->
  forall st, P st -> P (fold_left f l st).
Proof.
  induction l as [|x l IH]; intros Hstep st Hst; simpl.
  - exact Hst.
  - apply IH.
    + intros st' y Hy. apply Hstep. now right.
    + apply Hstep; [now left | exact Hst].
Qed.

Lemma covers_refl (a : Area) : covers a a.
Proof. unfold covers. repeat split; apply Qle_refl. Qed.

Lemma covers_trans (a b c : Area) : covers a b -> covers b c -> covers a c.
Proof.
  unfold covers. intros (H1 & H2 & H3 & H4) (K1 & K2 & K3 & K4).
  repeat split; eapply Qle_trans; eassumption.
Qed.

Lemma absorb_covers_current (c o : Area) : covers (absorb c o) c.
Proof.
  unfold covers, absorb; simpl.
  repeat split;
    [apply Q.le_min_l | apply Q.le_min_l | apply Q.le_max_l | apply Q.le_max_l].
Qed.

Lemma absorb_covers_other (c o : Area) : covers (absorb c o) o.
Proof.
  unfold covers, absorb; simpl.
  repeat split;
    [apply Q.le_min_r | apply Q.le_min_r | apply Q.le_max_r | apply Q.le_max_r].
Qed.

Lemma filter_length_lt {A : Type} (f h : A -> bool) (l : list A) :
  (forall x, In x l -> f x = true -> h x = true) ->
  (exists x, In x l /\ h x = true /\ f x = false) ->
  (List.length (filter f l) < List.length (filter h l))%nat.
Proof.
  induction l as [|a l IH]; intros Himp (x & Hx & Hh & Hf).
  - destruct Hx.
  - assert (Hle : forall l' : list A,
               (forall y, In y l' -> f y = true -> h y = true) ->
               (List.length (filter f l') <= List.length (filter h l'))%nat).
    { induction l' as [|b l' IHl']; intros Hi; simpl; [lia|].
      assert (Hrec := IHl' (fun y Hy => Hi y (or_intror Hy))).
      destruct (f b) eqn:Eb.
      - rewrite (Hi b (or_introl eq_refl) Eb). simpl. lia.
      - destruct (h b); simpl; lia. }
    simpl. destruct Hx as [->|Hx].
    + rewrite Hf, Hh. simpl.
      specialize (Hle l (fun y Hy => Himp y (or_intror Hy))). lia.
    + assert (Hrec : (List.length (filter f l)
                      < List.length (filter h l))%nat).
      { apply IH.
        - intros y Hy. apply Himp. now right.
        - exists x. repeat split; assumption. }
      destruct (f a) eqn:Ea.
      * rewrite (Himp a (or_introl eq_refl) Ea). simpl. lia.
      * destruct (h a); simpl; lia.
Qed.

Lemma unused_le (n : nat) (used : list nat) : (unused n used <= n)%nat.
Proof.
  unfold unused.
  etransitivity; [apply filter_length_le|]. now rewrite length_seq.
Qed.

Lemma length_concat_nonempty {A : Type} (groups : list (list A)) :
  Forall (fun g => g <> []) groups ->
  (List.length groups <= List.length (List.concat groups))%nat.
Proof.
  induction 1 as [|g groups Hg _ IH]; simpl; [lia|].
  rewrite length_app. destruct g; [congruence|]. simpl. lia.
Qed.

Section MergeLoop.

Variable tol : Q.
Variable areas : list Area.

Let n := List.length areas.

Lemma merge_pass_spec (cur : Area) (used : list nat) :
  NoDup used ->
  let st := merge_pass tol areas cur used in
  exists g,
    grown areas cur used (ms_current st) (ms_used st) g
    /\ (ms_changed st = false -> g = [] /\ ms_current st = cur)
    /\ (ms_changed st = true -> g <> []).
Proof.
  intros Hnd. unfold merge_pass.
  apply (fold_left_invariant
           (fun st => exists g,
                grown areas cur used (ms_current st) (ms_used st) g
                /\ (ms_changed st = false -> g = [] /\ ms_current st = cur)
                /\ (ms_changed st = true -> g <> []))).
  - intros st [j other] Hin (g & (Hu & Hn & Hm & Hc) & Hf & Ht).
    unfold merge_step.
    destruct (used_mem j (ms_used st)) eqn:Ej.
    { exists g. split; [exact (conj Hu (conj Hn (conj Hm Hc)))|].
      split; assumption. }
    destruct (adjacent tol (ms_current st) other) eqn:Ea.
    + exists (j :: g). simpl. split; [|split; [discriminate|discriminate]].
      split; [|split; [|split]].
      * now rewrite Hu.
      * constructor; [now apply used_mem_not_In | exact Hn].
      * intros k [<-|Hk].
        -- exists other. split; [now apply enumerate_nth|].
           apply absorb_covers_other.
        -- destruct (Hm k Hk) as (a & Ha & Hca). exists a.
           split; [exact Ha|].
           eapply covers_trans; [apply absorb_covers_current | exact Hca].
      * eapply covers_trans; [apply absorb_covers_current | exact Hc].
    + exists g. split; [exact (conj Hu (conj Hn (conj Hm Hc)))|].
      split; assumption.
  - exists []. simpl. split; [|split; [tauto | discriminate]].
    split; [reflexivity|]. split; [exact Hnd|].
    split; [intros j [] | apply covers_refl].
Qed.

Lemma merge_while_spec (fuel : nat) :
  forall cur used r,
    NoDup used ->
    merge_while fuel tol areas cur used = Some r ->
    exists g, grown areas cur used (fst r) (snd r) g.
Proof.
  induction fuel as [|fuel IH]; intros cur used r Hnd H; simpl in H.
  - discriminate.
  - destruct (merge_pass_spec cur used Hnd)
      as (g & (Hu & Hn & Hm & Hc) & _ & _).
    destruct (ms_changed (merge_pass tol areas cur used)).
    + destruct (IH _ _ _ Hn H) as (g2 & Hu2 & Hn2 & Hm2 & Hc2).
      exists (g2 ++ g). split; [|split; [|split]].
      * rewrite Hu2, Hu. now rewrite app_assoc.
      * exact Hn2.
      * intros j Hj. apply in_app_or in Hj. destruct Hj as [Hj|Hj].
        -- now apply Hm2.
        -- destruct (Hm j Hj) as (a & Ha & Hca). exists a.
           split; [exact Ha|]. eapply covers_trans; eassumption.
      * eapply covers_trans; eassumption.
    + injection H as <-. exists g.
      exact (conj Hu (conj Hn (conj Hm Hc))).
Qed.

Lemma unused_decreases (used g : list nat) :
  g <> [] -> NoDup (g ++ used) ->
  (forall j, In j g -> exists a, nth_error areas j = Some a) ->
  (unused n (g ++ used) < unused n used)%nat.
Proof.
  intros Hg Hnd Hm. unfold unused. apply filter_length_lt.
  - intros x _ Hx. apply negb_true_iff, used_mem_not_In in Hx.
    apply negb_true_iff, used_mem_not_In. intros Hi. apply Hx.
    apply in_or_app. now right.
  - destruct g as [|j g]; [congruence|]. exists j.
    destruct (Hm j (or_introl eq_refl)) as (a & Ha).
    assert (Hlt : (j < n)%nat).
    { apply nth_error_Some. unfold n. rewrite Ha. discriminate. }
    repeat split.
    + apply in_seq. lia.
    + apply negb_true_iff, used_mem_not_In.
      simpl in Hnd. inversion Hnd as [|? ? Hni _]; subst.
      intros Hi. apply Hni. apply in_or_app. now right.
    + apply negb_false_iff, used_mem_In. now left.
Qed.

(** The [while] loop ends: a pass that asks for another has marked a
    further index. *)
Lemma merge_while_total (fuel : nat) :
  forall cur used,
    NoDup used -> (unused n used < fuel)%nat ->
    exists r, merge_while fuel tol areas cur used = Some r.
Proof.
  induction fuel as [|fuel IH]; intros cur used Hnd Hlt; [lia|].
  simpl.
  destruct (merge_pass_spec cur used Hnd)
    as (g & (Hu & Hn & Hm & Hc) & _ & Ht).
  destruct (ms_changed (merge_pass tol areas cur used)) eqn:Ec.
  - apply IH; [exact Hn|].
    rewrite Hu. rewrite Hu in Hn.
    assert (unused n (g ++ used) < unused n used)%nat.
    { apply unused_decreases; [now apply Ht | exact Hn|].
      intros j Hj. destruct (Hm j Hj) as (a & Ha & _). now exists a. }
    lia.
  - eexists. reflexivity.
Qed.

Lemma merge_outer_step_inv (i : nat) (area : Area)
    (st : option (list Area * list nat)) :
  nth_error areas i = Some area ->
  outer_inv areas i st ->
  outer_inv areas (S i) (merge_outer_step (S n) tol areas st (i, area)).
Proof.
  intros Hi (merged & used & groups & -> & Hnd & Hlt & Hall & Hf & Hp).
  assert (Hin : (i < n)%nat).
  { apply nth_error_Some. unfold n. rewrite Hi. discriminate. }
  unfold merge_outer_step.
  destruct (used_mem i used) eqn:Eu.
  - exists merged, used, groups. repeat split; try assumption.
    intros k Hk. destruct (Nat.eq_dec k i) as [->|Hne].
    + now apply used_mem_In.
    + apply Hall. lia.
  - assert (Hnd' : NoDup (i :: used))
      by (constructor; [now apply used_mem_not_In | exact Hnd]).
    destruct (merge_while_total (S n) area (i :: used) Hnd')
      as ([cur used'] & Hw).
    { pose proof (unused_le n (i :: used)). lia. }
    rewrite Hw.
    destruct (merge_while_spec _ _ _ _ Hnd' Hw)
      as (g & Hu & Hn' & Hm & Hc).
    simpl in Hu, Hn', Hm, Hc.
    exists (merged ++ [cur]), used', (groups ++ [g ++ [i]]).
    repeat split.
    + exact Hn'.
    + intros j Hj. rewrite Hu in Hj. apply in_app_or in Hj.
      destruct Hj as [Hj|[<-|Hj]].
      * destruct (Hm j Hj) as (a & Ha & _).
        apply nth_error_Some. unfold n. rewrite Ha. discriminate.
      * exact Hin.
      * now apply Hlt.
    + intros k Hk. rewrite Hu. apply in_or_app. right.
      destruct (Nat.eq_dec k i) as [->|Hne]; [now left|].
      right. apply Hall. lia.
    + apply Forall2_app; [exact Hf|]. constructor; [|constructor].
      split.
      * destruct g; discriminate.
      * intros j Hj. apply in_app_or in Hj. destruct Hj as [Hj|[<-|[]]].
        -- now apply Hm.
        -- exists area. split; assumption.
    + rewrite concat_app. simpl. rewrite app_nil_r, Hu.
      replace (g ++ i :: used) with ((g ++ [i]) ++ used)
        by (now rewrite <- app_assoc).
      etransitivity; [apply Permutation_app_comm|].
      apply Permutation_app_head. exact Hp.
Qed.

Lemma merge_outer_fold_inv (l : list Area) :
  forall s st,
    (forall k a, nth_error l k = Some a ->
                 nth_error areas (s + k) = Some a) ->
    outer_inv areas s st ->
    outer_inv areas (s + List.length l)
      (fold_left (merge_outer_step (S n) tol areas)
                 (combine (seq s (List.length l)) l) st).
Proof.
  induction l as [|a l IH]; intros s st Hnth Hinv; simpl.
  - now rewrite Nat.add_0_r.
  - rewrite <- Nat.add_succ_comm. apply IH.
    + intros k b Hk. rewrite Nat.add_succ_comm. apply Hnth. exact Hk.
    + apply merge_outer_step_inv; [|exact Hinv].
      rewrite <- (Nat.add_0_r s). apply Hnth. reflexivity.
Qed.

(** The loops give a list of areas, and the input indices split into
    one group per area. *)
Lemma merge_loop_partition :
  exists merged used groups,
    merge_loop (S n) tol areas = Some (merged, used)
    /\ Forall2 (group_of areas) merged groups
    /\ Permutation (List.concat groups) (seq 0 n)
    /\ (List.length merged <= n)%nat.
Proof.
  destruct (merge_outer_fold_inv areas 0%nat (Some ([], [])))
    as (merged & used & groups & Hst & Hnd & Hlt & Hall & Hf & Hp).
  - intros k a Hk. exact Hk.
  - exists [], [], []. repeat split; try constructor.
    + intros j [].
    + intros i Hi. lia.
  - simpl in Hall. fold n in Hall, Hst.
    assert (Hperm : Permutation used (seq 0 n)).
    { apply NoDup_Permutation; [exact Hnd | apply seq_NoDup|].
      intros x. rewrite in_seq. split.
      - intros Hx. specialize (Hlt x Hx). lia.
      - intros Hx. apply Hall. lia. }
    exists merged, used, groups. repeat split.
    + exact Hst.
    + exact Hf.
    + etransitivity; eassumption.
    + rewrite (Forall2_length Hf).
      etransitivity; [apply length_concat_nonempty|].
      * clear -Hf. induction Hf as [|m g ms gs [Hg _] _ IH];
          constructor; assumption.
      * rewrite (Permutation_length Hp), (Permutation_length Hperm).
        now rewrite length_seq.
Qed.

End MergeLoop.

Lemma tolerance_eq (grid_size : Z) :
  grid_size <> 0 ->
  (tolerance grid_size == (11 # 10) / inject_Z grid_size)%Q.
Proof.
  intros H. unfold tolerance. field.
  intros E. apply H. unfold Qeq in E. simpl in E. lia.
Qed.

(** C7: for every list of areas and every tolerance the merge returns at
    most as many areas as it was given, and the indices of the input
    split into one non-empty group per output area, every index in
    exactly one group, such that the box of the output area contains the
    box of each input area of its group. For a non-zero [grid_size] (or
    fewer than two areas) this is the result of [_merge_adjacent_areas]. *)
Theorem C7_merge_partitions_input (areas : list Area) (tol : Q) :
  exists merged used groups,
    merge_loop (S (List.length areas)) tol areas = Some (merged, used)
    /\ (List.length merged <= List.length areas)%nat
    /\ Forall2 (group_of areas) merged groups
    /\ Permutation (List.concat groups) (seq 0 (List.length areas))
    /\ forall grid_size,
         tol = tolerance grid_size ->
         grid_size <> 0 \/ (List.length areas < 2)%nat ->
         _merge_adjacent_areas areas grid_size = Some merged.
Proof.
  destruct (merge_loop_partition tol areas)
    as (merged & used & groups & Hl & Hf & Hp & Hlen).
  exists merged, used, groups. repeat split; try assumption.
  intros grid_size -> Hg. unfold _merge_adjacent_areas.
  replace ((grid_size =? 0) && (2 <=? List.length areas)%nat) with false.
  - rewrite Hl. reflexivity.
  - symmetry. apply andb_false_iff. destruct Hg as [Hg|Hg].
    + left. now apply Z.eqb_neq.
    + right. apply Nat.leb_gt. exact Hg.
Qed.

Lemma C7_merge_partitions_input_witness :
  exists merged,
    _merge_adjacent_areas
      [grid_cell 20 0 0; grid_cell 20 0 1; grid_cell 20 5 5] 20
    = Some merged
    /\ (List.length merged <= 3)%nat.
Proof.
  destruct (C7_merge_partitions_input
              [grid_cell 20 0 0; grid_cell 20 0 1; grid_cell 20 5 5]
              (tolerance 20))
    as (merged & used & groups & _ & Hlen & _ & _ & Hm).
  exists merged. split; [|exact Hlen].
  apply Hm; [reflexivity | left; discriminate].
Defined.

(** A 2 x 2 block of cells of the 20 x 20 grid merges into one area of
    4/400; two cells far apart on the diagonal stay two areas. *)
Example merge_two_by_two :
  exists m,
    _merge_adjacent_areas
      [grid_cell 20 0 0; grid_cell 20 0 1; grid_cell 20 1 0; grid_cell 20 1 1]
      20 = Some [m]
    /\ (a_area m == 4 # 400)%Q.
Proof. eexists. split; [vm_compute; reflexivity | reflexivity]. Qed.

Example merge_diagonal_apart :
  _merge_adjacent_areas [grid_cell 20 0 0; grid_cell 20 5 5] 20
  = Some [grid_cell 20 0 0; grid_cell 20 5 5].
Proof. vm_compute. reflexivity. Qed.

(** Two areas given alone are merged as soon as one pair of opposite
    edges differs by less than [1.1 / grid_size] in absolute value. *)
Lemma merge_two_areas (grid_size : Z) (a b : Area) :
  0 < grid_size ->
  (Qabs (a_right a - a_left b) < (11 # 10) / inject_Z grid_size
   \/ Qabs (a_left a - a_right b) < (11 # 10) / inject_Z grid_size
   \/ Qabs (a_bottom a - a_top b) < (11 # 10) / inject_Z grid_size
   \/ Qabs (a_top a - a_bottom b) < (11 # 10) / inject_Z grid_size)%Q ->
  adjacent (tolerance grid_size) a b = true
  /\ _merge_adjacent_areas [a; b] grid_size = Some [absorb a b].
Proof.
  intros Hpos Hedge.
  assert (Hne : grid_size <> 0) by lia.
  assert (Hadj : adjacent (tolerance grid_size) a b = true).
  { apply adjacent_iff. rewrite (tolerance_eq grid_size Hne). exact Hedge. }
  split; [exact Hadj|].
  unfold _merge_adjacent_areas.
  replace (grid_size =? 0) with false by (symmetry; now apply Z.eqb_neq).
  cbn [andb List.length].
  unfold merge_loop, enumerate.
  cbn [List.length seq combine fold_left merge_outer_step used_mem existsb].
  cbn [merge_while]. unfold merge_pass, enumerate.
  cbn [List.length seq combine fold_left merge_step ms_used ms_current
       ms_changed used_mem existsb Nat.eqb orb].
  rewrite Hadj.
  cbn [List.length seq combine fold_left merge_step ms_used ms_current
       ms_changed used_mem existsb Nat.eqb orb app].
  reflexivity.
Qed.

(** The merged area of the two cells runs from the top of the page to its
    bottom. *)
Example merged_cells_span_page :
  let m := absorb (grid_cell 20 0 0) (grid_cell 20 19 1) in
  (a_left m == 0 /\ a_top m == 0 /\ a_right m == 1 # 10 /\ a_bottom m == 1)%Q.
Proof. repeat split. Qed.

(* ================================================================== *)
(** * Part III: further properties                                     *)
(* ================================================================== *)

(** ** Coordinates and boxes *)

(** The coordinate part of an element is all or nothing: no points and no
    box below four usable vertices, and from four on the points of all
    usable vertices with the box of points 0 and 2. *)
Lemma block_box_cases (b : Block) :
  let points := collect_coordinates (layout_vertices (layout b)) in
  (block_box_of b = ([], None) /\ (List.length points < 4)%nat)
  \/ exists p0 p1 p2 p3 rest,
       points = p0 :: p1 :: p2 :: p3 :: rest
       /\ block_box_of b
          = (points,
             Some (mkBBox (px p0) (py p0) (px p2) (py p2)
                          (px p2 - px p0) (py p2 - py p0))).
Proof.
  unfold block_box_of, layout_vertices.
  destruct (layout b) as [l|]; [|left; split; [reflexivity | simpl; lia]].
  destruct (bounding_poly l) as [bp|];
    [|left; split; [reflexivity | simpl; lia]].
  destruct (normalized_vertices bp) as [vs|];
    [|left; split; [reflexivity | simpl; lia]].
  cbv zeta.
  destruct (collect_coordinates vs) as [|p0 [|p1 [|p2 [|p3 rest]]]];
    try (left; split; [reflexivity | simpl; lia]).
  right. exists p0, p1, p2, p3, rest. split; reflexivity.
Qed.

(** X1: a text block that is returned carries its page and block numbers
    and the unstripped text, and its coordinates and bounding box go
    together: both empty, or at least four points with the box taken from
    points 0 and 2 and [width = right - left], [height = bottom - top]. *)
Theorem X1_text_block_box_and_points (block : Block) (full_text : pystr)
    (page_num block_num : Z) (bd : BlockData) :
  _extract_text_block_with_coordinates block full_text page_num block_num
    = Some bd ->
  bd_page bd = page_num /\ bd_block_id bd = block_num
  /\ bd_text bd = block_text_of block full_text
  /\ bd_coordinates bd
     = (if (4 <=? List.length
                    (collect_coordinates (layout_vertices (layout block))))%nat
        then collect_coordinates (layout_vertices (layout block))
        else [])
  /\ ((bd_coordinates bd = [] /\ bd_bounding_box bd = None)
      \/ exists p0 p1 p2 p3 rest bb,
           bd_coordinates bd = p0 :: p1 :: p2 :: p3 :: rest
           /\ bd_bounding_box bd = Some bb
           /\ left bb = px p0 /\ top bb = py p0
           /\ right bb = px p2 /\ bottom bb = py p2
           /\ width bb = (right bb - left bb)%Q
           /\ height bb = (bottom bb - top bb)%Q).
Proof.
  unfold _extract_text_block_with_coordinates.
  destruct (block_box_cases block) as [[E Hlen]|(p0 & p1 & p2 & p3 & rest & Hp & E)];
    cbv zeta in *; rewrite E; cbn [bd_text].
  - destruct (truthy _); [|discriminate]. intros [= <-].
    cbn [bd_page bd_block_id bd_text bd_coordinates bd_bounding_box].
    apply Nat.leb_gt in Hlen. rewrite Hlen. repeat split. now left.
  - destruct (truthy _); [|discriminate]. intros [= <-].
    cbn [bd_page bd_block_id bd_text bd_coordinates bd_bounding_box].
    rewrite Hp. cbn [List.length Nat.leb]. repeat split.
    right. exists p0, p1, p2, p3, rest. eexists. repeat split.
Qed.

Lemma X1_text_block_box_and_points_witness :
  exists bb,
    bd_bounding_box
      (mkBlockData 1 1 (of_string "bc")
         [mkPoint (1 # 10) (1 # 10); mkPoint (3 # 10) (1 # 10);
          mkPoint (3 # 10) (3 # 10); mkPoint (1 # 10) (3 # 10)]
         (Some (mkBBox (1 # 10) (1 # 10) (3 # 10) (3 # 10)
                       ((3 # 10) - (1 # 10)) ((3 # 10) - (1 # 10)))))
    = Some bb
    /\ width bb = (right bb - left bb)%Q.
Proof.
  destruct (X1_text_block_box_and_points
              (block_of (Some [segment 1 3])
                        (Some (quad (1 # 10) (1 # 10) (3 # 10) (3 # 10))))
              (of_string "abcde") 1 1 _ eq_refl)
    as (_ & _ & _ & _ & [[H _]|(p0 & p1 & p2 & p3 & rest & bb & _ & Hb & _ & _ & _ & _ & Hw & _)]).
  - discriminate H.
  - exists bb. split; [exact Hb | exact Hw].
Defined.

(** X2: a visual element is returned exactly when its polygon has at least
    four vertices that carry both [x] and [y]; a returned element always
    has a bounding box, the points of all usable vertices, the page and
    element numbers it was given and no [source]. *)
Theorem X2_visual_element_needs_four_points (element : VisualProto)
    (page_num elem_num : Z) :
  let points := collect_coordinates (layout_vertices (vp_layout element)) in
  (_extract_visual_element_with_coordinates element page_num elem_num = None
   <-> (List.length points < 4)%nat)
  /\ forall e,
       _extract_visual_element_with_coordinates element page_num elem_num
         = Some e ->
       ve_coordinates e = points
       /\ (exists bb, ve_bounding_box e = Some bb)
       /\ ve_page e = page_num
       /\ ve_element_id e = IdNumber elem_num
       /\ ve_source e = None
       /\ ve_type e = match vp_type element with
                      | Some t => lower t
                      | None => "unknown"%string
                      end.
Proof.
  unfold _extract_visual_element_with_coordinates.
  destruct (block_box_cases (mkBlock (vp_layout element)))
    as [[E Hlen]|(p0 & p1 & p2 & p3 & rest & Hp & E)];
    cbv zeta in *; cbn [layout] in *; rewrite E; cbn [ve_coordinates].
  - split; [tauto | discriminate].
  - rewrite Hp. split.
    + split; [discriminate | simpl; lia].
    + intros e [= <-]. cbn. repeat split. eexists. reflexivity.
Qed.

(** The type of a visual element is lower-cased before it is compared:
    an element reported as [FIGURE] is cropped like one reported as
    [figure]. *)
Example visual_element_type_is_lowered :
  option_map ve_type
    (_extract_visual_element_with_coordinates
       (mkVisualProto (Some "FIGURE"%string)
          (Some (mkLayout None
                   (Some (mkBoundingPoly
                            (Some (quad (1 # 10) (1 # 10) (3 # 10) (3 # 10))))))))
       1 1)
  = Some "figure"%string.
Proof. reflexivity. Qed.

(** ** Blocks without text as image candidates *)

Lemma potential_image_of_spec (page_num : Z) (block_idx : nat)
    (block : Block) (e : VisualElement) :
  potential_image_of page_num block_idx block = Some e ->
  has_text_content block = false
  /\ ve_type e = "potential_image"%string
  /\ ve_source e = Some "text_blocks_analysis"%string
  /\ ve_page e = page_num
  /\ ve_element_id e = IdBlock (Z.of_nat block_idx + 1)
  /\ exists bb, ve_bounding_box e = Some bb
                /\ (1 # 1000 < width bb * height bb)%Q.
Proof.
  unfold potential_image_of.
  destruct (layout block) as [l|]; [|discriminate].
  destruct (bounding_poly l) as [bp|]; [|discriminate].
  destruct (has_text_content block); [discriminate|].
  destruct (normalized_vertices bp) as [vs|]; [|discriminate].
  cbv zeta.
  destruct (4 <=? List.length (collect_coordinates vs))%nat; [|discriminate].
  destruct (bbox_of_coordinates (collect_coordinates vs)) as [bb|];
    [|discriminate].
  destruct (Qltb (1 # 1000) (width bb * height bb)) eqn:E; [|discriminate].
  intros [= <-]. cbn. repeat split.
  exists bb. split; [reflexivity | now apply Qltb_lt].
Qed.

Lemma investigate_loop_state (page_num : Z) (l : list (nat * Block)) :
  forall st,
    let st' :=
      fold_left
        (fun st ib =>
           match potential_image_of page_num (fst ib) (snd ib) with
           | Some image_block_data =>
               (add_visual_element image_block_data (fst st), snd st + 1)
           | None => st
           end) l st in
    let new :=
      keep_some (fun ib => potential_image_of page_num (fst ib) (snd ib)) l in
    visual_elements (fst st') = visual_elements (fst st) ++ new
    /\ snd st' = snd st + Z.of_nat (List.length new)
    /\ full_text (fst st') = full_text (fst st)
    /\ text_blocks (fst st') = text_blocks (fst st)
    /\ extracted_figures (fst st') = extracted_figures (fst st)
    /\ page_images (fst st') = page_images (fst st)
    /\ summary (fst st') = summary (fst st).
Proof.
  induction l as [|ib l IH]; intros st; cbn [fold_left].
  - cbn. rewrite app_nil_r, Z.add_0_r. repeat split.
  - specialize (IH match potential_image_of page_num (fst ib) (snd ib) with
                   | Some d => (add_visual_element d (fst st), snd st + 1)
                   | None => st
                   end).
    cbv zeta in IH. destruct IH as (H1 & H2 & H3 & H4 & H5 & H6 & H7).
    cbv zeta. rewrite H1, H2, H3, H4, H5, H6, H7.
    unfold keep_some. cbn [flat_map].
    destruct (potential_image_of page_num (fst ib) (snd ib)) as [d|].
    + cbn [fst snd add_visual_element visual_elements full_text text_blocks
           extracted_figures page_images summary app List.length].
      rewrite <- app_assoc. cbn [app]. repeat split. lia.
    + cbn [app]. repeat split.
Qed.

Lemma potential_image_of_eq (page_num : Z) (ib : nat * Block) :
  potential_image_of page_num (fst ib) (snd ib)
  = if qualifies (snd ib) then Some (image_candidate page_num ib) else None.
Proof.
  destruct ib as [i b]. cbn [fst snd].
  unfold potential_image_of, qualifies, image_candidate, block_box_of.
  cbn [fst snd].
  destruct (layout b) as [l|];
    [|cbn; now rewrite andb_false_r].
  destruct (bounding_poly l) as [bp|];
    [|cbn; now rewrite andb_false_r].
  destruct (has_text_content b); [reflexivity|]. cbn [negb andb].
  destruct (normalized_vertices bp) as [vs|]; [|reflexivity].
  cbv zeta.
  destruct (4 <=? List.length (collect_coordinates vs))%nat eqn:E;
    [|reflexivity].
  cbn [fst snd].
  destruct (bbox_of_coordinates (collect_coordinates vs)) as [bb|];
    [|reflexivity].
  destruct (Qltb (1 # 1000) (width bb * height bb)); reflexivity.
Qed.

Lemma keep_some_filter_map {A B : Type} (f : A -> option B) (q : A -> bool)
    (g : A -> B) (l : list A) :
  (forall x, f x = if q x then Some (g x) else None) ->
  keep_some f l = map g (filter q l).
Proof.
  intros H. unfold keep_some.
  induction l as [|x l IH]; [reflexivity|].
  cbn [flat_map filter]. rewrite H, IH.
  destruct (q x); reflexivity.
Qed.

(** X3: the search for image blocks among the text blocks appends exactly
    one [potential_image] for every block that has no text segments and a
    box, from at least four usable vertices, of area above 0.001: one per
    such block, in the order of the blocks, identified as
    [block_<position>] and carrying the block's points and box. It adds
    their number to [total_figures] and changes nothing else. *)
Theorem X3_one_candidate_per_textless_block (page : Page)
    (results : Results) (page_num : Z) :
  let out := _investigate_image_blocks_in_text_blocks page results page_num in
  let new :=
    map (image_candidate page_num)
        (filter (fun ib => qualifies (snd ib))
                (enumerate (page_block_list page))) in
  visual_elements out = visual_elements results ++ new
  /\ total_figures (summary out)
     = total_figures (summary results) + Z.of_nat (List.length new)
  /\ total_pages (summary out) = total_pages (summary results)
  /\ total_blocks (summary out) = total_blocks (summary results)
  /\ coordinates_found (summary out) = coordinates_found (summary results)
  /\ images_saved (summary out) = images_saved (summary results)
  /\ full_text out = full_text results
  /\ text_blocks out = text_blocks results
  /\ extracted_figures out = extracted_figures results
  /\ page_images out = page_images results
  /\ forall b,
       qualifies b = true
       <-> has_text_content b = false
           /\ exists p0 p1 p2 p3 rest,
                collect_coordinates (layout_vertices (layout b))
                = p0 :: p1 :: p2 :: p3 :: rest
                /\ (1 # 1000 < (px p2 - px p0) * (py p2 - py p0))%Q.
Proof.
  intros out new.
  assert (Hq : forall b,
             qualifies b = true
             <-> has_text_content b = false
                 /\ exists p0 p1 p2 p3 rest,
                      collect_coordinates (layout_vertices (layout b))
                      = p0 :: p1 :: p2 :: p3 :: rest
                      /\ (1 # 1000 < (px p2 - px p0) * (py p2 - py p0))%Q).
  { intros b. unfold qualifies.
    rewrite andb_true_iff, negb_true_iff.
    destruct (block_box_cases b)
      as [[E Hlen]|(p0 & p1 & p2 & p3 & rest & Hp & E)];
      cbv zeta in *; rewrite E; cbn [snd width height].
    - split; [intros [_ H]; discriminate H|].
      intros (_ & q0 & q1 & q2 & q3 & r & Hc & _).
      rewrite Hc in Hlen. simpl in Hlen. lia.
    - rewrite Qltb_lt. split.
      + intros [Ht Ha]. split; [exact Ht|].
        exists p0, p1, p2, p3, rest. split; [exact Hp | exact Ha].
      + intros (Ht & q0 & q1 & q2 & q3 & r & Hc & Ha).
        rewrite Hp in Hc. injection Hc as <- <- <- <- <-.
        split; assumption. }
  unfold out, new, _investigate_image_blocks_in_text_blocks, page_block_list.
  destruct (page_blocks page) as [bs|].
  - unfold investigate_loop.
    pose proof (investigate_loop_state page_num (enumerate bs) (results, 0))
      as H.
    cbv zeta in H. cbn [fst snd] in H.
    rewrite (keep_some_filter_map _ (fun ib => qualifies (snd ib))
               (image_candidate page_num) _
               (potential_image_of_eq page_num)) in H.
    destruct (fold_left _ (enumerate bs) (results, 0)) as [r found].
    cbn [fst snd] in H. destruct H as (H1 & H2 & H3 & H4 & H5 & H6 & H7).
    destruct (0 <? found) eqn:Ef.
    + cbn [visual_elements summary total_figures set_total_figures
           total_pages total_blocks coordinates_found images_saved
           full_text text_blocks extracted_figures page_images].
      rewrite H1, H2, H3, H4, H5, H6, H7.
      repeat split; try lia; apply Hq; assumption.
    + apply Z.ltb_ge in Ef.
      rewrite H1, H3, H4, H5, H6, H7.
      repeat split; try lia; apply Hq; assumption.
  - cbn [enumerate List.length seq combine filter map].
    rewrite app_nil_r, Z.add_0_r.
    repeat split; apply Hq; assumption.
Qed.

(** Of a text block, a block without text of a tenth of the page and a
    block without text of a ten-thousandth of it, the second alone is
    taken, as [block_2]. *)
Example only_the_large_textless_block_is_taken :
  let text_block :=
    block_of (Some [mkSegment (Some 0) (Some 5)])
             (Some (quad (1 # 10) (1 # 10) (9 # 10) (2 # 10))) in
  let large := block_of None (Some (quad (1 # 10) (3 # 10) (6 # 10) (5 # 10))) in
  let tiny := block_of None (Some (quad 0 0 (1 # 100) (1 # 100))) in
  let out :=
    _investigate_image_blocks_in_text_blocks
      (mkPage (Some [text_block; large; tiny])) empty_results 1 in
  map ve_element_id (visual_elements out) = [IdBlock 2]
  /\ map ve_bounding_box (visual_elements out)
     = [Some (mkBBox (1 # 10) (3 # 10) (6 # 10) (5 # 10)
                     ((6 # 10) - (1 # 10)) ((5 # 10) - (3 # 10)))]
  /\ total_figures (summary out) = 1.
Proof. repeat split. Qed.

(** ** Counters of the page loop over the text blocks *)

Lemma extract_page_blocks_state (document_text : pystr) (page_idx : nat)
    (l : list (nat * Block)) :
  forall r,
    let f := fun ib : nat * Block =>
               _extract_text_block_with_coordinates (snd ib) document_text
                 (Z.of_nat page_idx + 1) (Z.of_nat (fst ib) + 1) in
    let out :=
      fold_left
        (fun r ib =>
           let '(block_idx, block) := ib in
           match _extract_text_block_with_coordinates block document_text
                   (Z.of_nat page_idx + 1) (Z.of_nat block_idx + 1) with
           | Some block_data => add_text_block block_data r
           | None => r
           end) l r in
    text_blocks out = text_blocks r ++ keep_some f l
    /\ total_blocks (summary out)
       = total_blocks (summary r) + Z.of_nat (List.length (keep_some f l))
    /\ coordinates_found (summary out)
       = coordinates_found (summary r)
         + Z.of_nat (List.length (filter has_coordinates (keep_some f l)))
    /\ total_pages (summary out) = total_pages (summary r)
    /\ total_figures (summary out) = total_figures (summary r)
    /\ images_saved (summary out) = images_saved (summary r)
    /\ full_text out = full_text r
    /\ visual_elements out = visual_elements r
    /\ extracted_figures out = extracted_figures r
    /\ page_images out = page_images r.
Proof.
  induction l as [|[i b] l IH]; intros r; cbn [fold_left].
  - cbn. rewrite app_nil_r, !Z.add_0_r. repeat split.
  - specialize (IH match _extract_text_block_with_coordinates b document_text
                           (Z.of_nat page_idx + 1) (Z.of_nat i + 1) with
                   | Some bd => add_text_block bd r
                   | None => r
                   end).
    cbv zeta in IH.
    destruct IH as (H1 & H2 & H3 & H4 & H5 & H6 & H7 & H8 & H9 & H10).
    cbv zeta. rewrite H1, H2, H3, H4, H5, H6, H7, H8, H9, H10.
    unfold keep_some. cbn [flat_map fst snd].
    destruct (_extract_text_block_with_coordinates b document_text
                (Z.of_nat page_idx + 1) (Z.of_nat i + 1)) as [bd|].
    + cbn [add_text_block text_blocks summary total_blocks coordinates_found
           total_pages total_figures images_saved full_text visual_elements
           extracted_figures page_images app filter].
      rewrite <- app_assoc. cbn [app List.length].
      unfold has_coordinates at 2.
      destruct (bd_coordinates bd); cbn [List.length]; repeat split; lia.
    + cbn [app]. repeat split.
Qed.

(** X4: the page loop over the text blocks raises [total_blocks] by the
    number of blocks it kept and [coordinates_found] by the number of kept
    blocks that have coordinates, so never by more; the other counters and
    lists are left alone. *)
Theorem X4_block_counters (document_text : pystr) (page_idx : nat)
    (bs : list Block) (results : Results) :
  let out := extract_page_blocks document_text page_idx bs results in
  let kept :=
    keep_some
      (fun ib => _extract_text_block_with_coordinates (snd ib) document_text
                   (Z.of_nat page_idx + 1) (Z.of_nat (fst ib) + 1))
      (enumerate bs) in
  total_blocks (summary out)
    = total_blocks (summary results) + Z.of_nat (List.length kept)
  /\ coordinates_found (summary out)
     = coordinates_found (summary results)
       + Z.of_nat (List.length (filter has_coordinates kept))
  /\ coordinates_found (summary out) - coordinates_found (summary results)
     <= total_blocks (summary out) - total_blocks (summary results)
  /\ (List.length kept <= List.length bs)%nat
  /\ total_figures (summary out) = total_figures (summary results)
  /\ images_saved (summary out) = images_saved (summary results)
  /\ visual_elements out = visual_elements results
  /\ page_images out = page_images results.
Proof.
  intros out kept.
  pose proof (extract_page_blocks_state document_text page_idx
                (enumerate bs) results) as H.
  cbv zeta in H. fold (extract_page_blocks document_text page_idx bs results) in H.
  fold out in H. fold kept in H.
  destruct H as (H1 & H2 & H3 & H4 & H5 & H6 & H7 & H8 & H9 & H10).
  assert (Hk : (List.length kept <= List.length bs)%nat).
  { unfold kept, keep_some. rewrite length_flat_map.
    assert (Hl : forall l : list (nat * Block),
               (list_sum
                  (map (fun x =>
                          List.length
                            match _extract_text_block_with_coordinates (snd x)
                                    document_text (Z.of_nat page_idx + 1)
                                    (Z.of_nat (fst x) + 1) with
                            | Some y => [y]
                            | None => []
                            end) l) <= List.length l)%nat).
    { induction l as [|x l IHl]; simpl; [lia|].
      destruct (_extract_text_block_with_coordinates _ _ _ _); simpl; lia. }
    etransitivity; [apply Hl|].
    unfold enumerate. rewrite length_combine, length_seq. lia. }
  pose proof (filter_length_le has_coordinates kept) as Hf.
  repeat split; try assumption. lia.
Qed.

(** ** Text segments *)

Lemma firstn_plus {A : Type} (m k : nat) (l : list A) :
  firstn (m + k) l = firstn m l ++ firstn k (skipn m l).
Proof.
  revert l. induction m as [|m IH]; intros l; simpl.
  - reflexivity.
  - destruct l as [|a l]; simpl.
    + now rewrite firstn_nil.
    + now rewrite IH.
Qed.

Lemma slice_compose (s : pystr) (a b c : Z) :
  0 <= a <= b -> b <= c ->
  slice s a b ++ slice s b c = slice s a c.
Proof.
  intros Hab Hbc. unfold slice, slice_index.
  set (n := Z.of_nat (List.length s)).
  assert (Hn : 0 <= n) by (unfold n; lia).
  replace (a <? 0) with false by (symmetry; apply Z.ltb_ge; lia).
  replace (b <? 0) with false by (symmetry; apply Z.ltb_ge; lia).
  replace (c <? 0) with false by (symmetry; apply Z.ltb_ge; lia).
  replace (Z.to_nat (Z.min c n - Z.min a n))
    with (Z.to_nat (Z.min b n - Z.min a n)
          + Z.to_nat (Z.min c n - Z.min b n))%nat by lia.
  rewrite firstn_plus. f_equal. f_equal.
  rewrite skipn_skipn. f_equal. lia.
Qed.

(** X5: two segments that meet, [a, b) and [b, c) with
    [0 <= a <= b <= c], give the same text as the one segment [a, c),
    wherever the indices lie with respect to the end of the text. *)
Theorem X5_adjacent_segments_compose (full_text text : pystr) (a b c : Z) :
  0 <= a <= b -> b <= c ->
  append_segments full_text [segment a b; segment b c] text
  = append_segments full_text [segment a c] text.
Proof.
  intros Hab Hbc. rewrite !append_segments_concat. cbn.
  rewrite !app_nil_r. f_equal. now apply slice_compose.
Qed.

Lemma X5_adjacent_segments_compose_witness :
  append_segments (of_string "abcde") [segment 1 3; segment 3 9] []
  = of_string "bcde".
Proof.
  rewrite (X5_adjacent_segments_compose (of_string "abcde") [] 1 3 9);
    [reflexivity | lia | lia].
Defined.

(** ** Keyword estimates *)

(** X6: with offsets that are not negative and the centre of the matched
    block on the page, the estimated box is well formed and on the page:
    [0 <= left <= right <= 1], [0 <= top <= bottom <= 1], with width and
    height not negative; and the four coordinates written beside it give
    the same box back under the point 0 / point 2 reading. *)
Theorem X6_keyword_box_on_page (self : Processor) (tb : TextBlock)
    (keyword : pystr) (instance_num : Z) (area : VisualElement) (bb : BBox) :
  _create_estimated_image_area self tb keyword instance_num = Some area ->
  ve_bounding_box area = Some bb ->
  (0 <= off_left (area_offset self))%Q ->
  (0 <= off_right (area_offset self))%Q ->
  (0 <= off_top (area_offset self))%Q ->
  (0 <= off_bottom (area_offset self))%Q ->
  (0 <= center_x tb <= 1)%Q -> (0 <= center_y tb <= 1)%Q ->
  (0 <= left bb /\ left bb <= right bb /\ right bb <= 1
   /\ 0 <= top bb /\ top bb <= bottom bb /\ bottom bb <= 1
   /\ 0 <= width bb /\ 0 <= height bb)%Q
  /\ bbox_of_coordinates (ve_coordinates area) = Some bb.
Proof.
  unfold _create_estimated_image_area, center_x, center_y.
  intros [= <-] [= <-] Hl Hr Ht Hb [Hx0 Hx1] [Hy0 Hy1].
  cbn [left right top bottom width height ve_coordinates
       bbox_of_coordinates px py].
  set (cx := ((tb_left tb + tb_right tb) / 2)%Q) in *.
  set (cy := ((tb_top tb + tb_bottom tb) / 2)%Q) in *.
  assert (Hlr : (Qmax 0 (cx - off_left (area_offset self))
                 <= Qmin 1 (cx + off_right (area_offset self)))%Q).
  { apply Q.max_lub; apply Q.min_glb; lra. }
  assert (Htb : (Qmax 0 (cy - off_top (area_offset self))
                 <= Qmin 1 (cy + off_bottom (area_offset self)))%Q).
  { apply Q.max_lub; apply Q.min_glb; lra. }
  split; [|reflexivity].
  repeat split;
    try apply Q.le_max_l; try apply Q.le_min_l; try assumption; lra.
Qed.

Lemma X6_keyword_box_on_page_witness :
  exists bb,
    option_map ve_bounding_box
      (_create_estimated_image_area init_processor
         (mkTextBlock 1 [] [] (8 # 10) (1 # 10) (1 # 1) (2 # 10)) [] 1)
    = Some (Some bb)
    /\ (left bb <= right bb /\ right bb <= 1)%Q.
Proof.
  eexists. split; [reflexivity|].
  destruct (X6_keyword_box_on_page init_processor
              (mkTextBlock 1 [] [] (8 # 10) (1 # 10) (1 # 1) (2 # 10)) [] 1
              _ _ eq_refl eq_refl)
    as [(_ & H1 & H2 & _) _].
  all: try (split; assumption).
  all: try (unfold Qle; simpl; lia).
  all: split; unfold Qle; simpl; lia.
Defined.

(** Without the condition on the centre the box can come out inverted: a
    block centred at [x = 2] gets [left = 1.85] and [right = 1]. *)
Example keyword_box_off_page_is_inverted :
  exists area bb,
    _create_estimated_image_area init_processor
      (mkTextBlock 1 [] [] (19 # 10) (1 # 10) (21 # 10) (2 # 10)) [] 1
    = Some area
    /\ ve_bounding_box area = Some bb
    /\ (right bb < left bb)%Q.
Proof. eexists. eexists. repeat split. Qed.

Lemma matching_blocks_from_length (keyword full_text : pystr)
    (ibs : list (nat * Block)) :
  forall acc ms,
    matching_blocks_from keyword full_text ibs acc = Some ms ->
    List.length ms
    = (List.length acc
       + List.length (filter (block_matches keyword full_text) ibs))%nat.
Proof.
  induction ibs as [|[i b] ibs IH]; intros acc ms H; simpl in H.
  - injection H as <-. simpl. lia.
  - cbn [filter]. unfold block_matches at 1. cbn [fst snd].
    destruct (match_block keyword full_text i b) as [[m|]|]; [| |discriminate].
    + rewrite (IH _ _ H), length_app. simpl. lia.
    + exact (IH _ _ H).
Qed.

Lemma estimates_length (self : Processor) (keyword : pystr)
    (l : list (nat * TextBlock)) :
  List.length (flat_map (estimate_of self keyword) l) = List.length l.
Proof.
  induction l as [|im l IH]; [reflexivity|].
  cbn [flat_map]. rewrite length_app, IH. reflexivity.
Qed.

Lemma enumerate_length {A : Type} (l : list A) :
  List.length (enumerate l) = List.length l.
Proof. unfold enumerate. rewrite length_combine, length_seq. lia. Qed.

(** What the loop over the matches of one keyword does to the results. *)
Lemma append_estimates_state (self : Processor) (keyword : pystr)
    (ms : list TextBlock) (r : Results) :
  let out := append_estimates self keyword ms r in
  total_figures (summary out)
    = total_figures (summary r) + Z.of_nat (List.length ms)
  /\ total_pages (summary out) = total_pages (summary r)
  /\ total_blocks (summary out) = total_blocks (summary r)
  /\ coordinates_found (summary out) = coordinates_found (summary r)
  /\ images_saved (summary out) = images_saved (summary r)
  /\ full_text out = full_text r
  /\ text_blocks out = text_blocks r
  /\ extracted_figures out = extracted_figures r
  /\ page_images out = page_images r.
Proof.
  unfold append_estimates. rewrite <- (enumerate_length ms).
  generalize (enumerate ms) as l. intros l. revert r.
  induction l as [|im l IH]; intros r; cbn [fold_left].
  - cbn. rewrite Z.add_0_r. repeat split.
  - specialize (IH match _create_estimated_image_area self (snd im) keyword
                           (Z.of_nat (fst im) + 1) with
                   | Some a => append_figure a r
                   | None => r
                   end).
    cbv zeta in IH. destruct IH as (H1 & H2 & H3 & H4 & H5 & H6 & H7 & H8 & H9).
    cbv zeta. rewrite H1, H2, H3, H4, H5, H6, H7, H8, H9.
    unfold _create_estimated_image_area.
    cbn [append_figure summary total_figures set_total_figures total_pages
         total_blocks coordinates_found images_saved full_text text_blocks
         extracted_figures page_images List.length].
    repeat split. lia.
Qed.

Lemma keyword_loop_state (self : Processor) (bs : list Block)
    (document_text : pystr) (keywords : list pystr) :
  forall r,
    let out := keyword_loop self keywords bs document_text r in
    total_figures (summary out)
      = total_figures (summary r)
        + Z.of_nat (List.length (keyword_figures self keywords bs document_text))
    /\ total_pages (summary out) = total_pages (summary r)
    /\ total_blocks (summary out) = total_blocks (summary r)
    /\ coordinates_found (summary out) = coordinates_found (summary r)
    /\ images_saved (summary out) = images_saved (summary r)
    /\ full_text out = full_text r
    /\ text_blocks out = text_blocks r
    /\ extracted_figures out = extracted_figures r
    /\ page_images out = page_images r.
Proof.
  induction keywords as [|kw kws IH]; intros r; cbn [keyword_loop keyword_figures].
  - cbn. rewrite Z.add_0_r. repeat split.
  - destruct (matching_blocks_from kw document_text (enumerate bs) []) as [ms|].
    + specialize (IH (append_estimates self kw ms r)). cbv zeta in IH.
      destruct IH as (H1 & H2 & H3 & H4 & H5 & H6 & H7 & H8 & H9).
      destruct (append_estimates_state self kw ms r)
        as (K1 & K2 & K3 & K4 & K5 & K6 & K7 & K8 & K9).
      cbv zeta.
      rewrite H1, H2, H3, H4, H5, H6, H7, H8, H9.
      rewrite K1, K2, K3, K4, K5, K6, K7, K8, K9.
      rewrite length_app, estimates_length, enumerate_length.
      repeat split. lia.
    + cbn. rewrite Z.add_0_r. repeat split.
Qed.

Lemma keyword_figures_length (self : Processor) (bs : list Block)
    (full_text : pystr) (keywords : list pystr) :
  (forall kw, In kw keywords ->
     matching_blocks_from kw full_text (enumerate bs) [] <> None) ->
  List.length (keyword_figures self keywords bs full_text)
  = list_sum
      (map (fun kw =>
              List.length (filter (block_matches kw full_text) (enumerate bs)))
           keywords).
Proof.
  induction keywords as [|kw kws IH]; intros Hok; [reflexivity|].
  cbn [keyword_figures map list_sum].
  destruct (matching_blocks_from kw full_text (enumerate bs) []) as [ms|] eqn:E;
    [|exfalso; apply (Hok kw); [now left | exact E]].
  rewrite length_app, estimates_length, enumerate_length.
  rewrite (matching_blocks_from_length _ _ _ _ _ E).
  rewrite IH by (intros k Hk; apply Hok; now right).
  simpl. lia.
Qed.

(** X7: when no block makes the search raise, every keyword contributes
    one region per block that it matches: the number of regions appended,
    and the increase of [total_figures], is the sum over the keywords of
    the number of matching blocks; nothing is merged or deduplicated. *)
Theorem X7_one_region_per_match (self : Processor) (page : Page)
    (results : Results) (page_num : Z) (full_text : pystr)
    (bs : list Block) :
  page_blocks page = Some bs ->
  (forall kw, In kw (chair_keywords self) ->
     matching_blocks_from kw full_text (enumerate bs) [] <> None) ->
  let out :=
    _extract_estimated_image_areas_by_keywords self page results page_num
      full_text in
  let matches :=
    list_sum
      (map (fun kw =>
              List.length (filter (block_matches kw full_text) (enumerate bs)))
           (chair_keywords self)) in
  List.length (visual_elements out)
    = (List.length (visual_elements results) + matches)%nat
  /\ total_figures (summary out)
     = total_figures (summary results) + Z.of_nat matches.
Proof.
  intros Hp Hok out matches.
  unfold out, _extract_estimated_image_areas_by_keywords. rewrite Hp.
  destruct (keyword_loop_state self bs full_text (chair_keywords self) results)
    as (H1 & _).
  rewrite H1, keyword_loop_elements, length_app.
  rewrite (keyword_figures_length self bs full_text _ Hok).
  split; reflexivity.
Qed.

Lemma X7_one_region_per_match_witness :
  let keyword := [12456; 12483; 12464; 12481; 12455; 12450]%N in
  let block :=
    block_of (Some [segment 0 6])
             (Some (quad (4 # 10) (45 # 100) (6 # 10) (55 # 100))) in
  List.length
    (visual_elements
       (_extract_estimated_image_areas_by_keywords init_processor
          (mkPage (Some [block; block])) empty_results 1 keyword))
  = 2%nat.
Proof.
  intros keyword block.
  destruct (X7_one_region_per_match init_processor
              (mkPage (Some [block; block])) empty_results 1 keyword
              [block; block] eq_refl) as [H _].
  - intros kw Hkw. simpl in Hkw.
    repeat (destruct Hkw as [<-|Hkw]; [vm_compute; discriminate|]).
    destruct Hkw.
  - rewrite H. vm_compute. reflexivity.
Defined.

Lemma matching_blocks_from_raises (keyword full_text : pystr)
    (ibs : list (nat * Block)) (i : nat) (b : Block) :
  In (i, b) ibs ->
  match_block keyword full_text i b = None ->
  forall acc, matching_blocks_from keyword full_text ibs acc = None.
Proof.
  induction ibs as [|[j c] ibs IH]; intros Hin Hm acc; [destruct Hin|].
  simpl. destruct Hin as [[= -> ->]|Hin].
  - rewrite Hm. reflexivity.
  - destruct (match_block keyword full_text j c) as [[m|]|];
      [apply IH | apply IH | reflexivity]; assumption.
Qed.

(** X8: a block whose text anchor has no [text_segments] attribute makes
    the keyword search give up at the first keyword: nothing is appended
    for the page, whatever the other blocks contain. *)
Theorem X8_keyword_search_gives_up (self : Processor) (page : Page)
    (results : Results) (page_num : Z) (full_text : pystr)
    (bs : list Block) (b : Block) :
  page_blocks page = Some bs ->
  In b bs ->
  keyword_block_text b full_text = None ->
  _extract_estimated_image_areas_by_keywords self page results page_num
    full_text = results.
Proof.
  intros Hp Hin Hb.
  unfold _extract_estimated_image_areas_by_keywords. rewrite Hp.
  destruct (chair_keywords self) as [|kw kws]; [reflexivity|].
  cbn [keyword_loop].
  destruct (In_combine_seq b bs 0%nat Hin) as [i Hi].
  rewrite (matching_blocks_from_raises kw full_text (enumerate bs) i b Hi).
  - reflexivity.
  - unfold match_block. rewrite Hb. reflexivity.
Qed.

Lemma X8_keyword_search_gives_up_witness :
  let keyword := [12456; 12483; 12464; 12481; 12455; 12450]%N in
  let good :=
    block_of (Some [segment 0 6])
             (Some (quad (4 # 10) (45 # 100) (6 # 10) (55 # 100))) in
  let bad := mkBlock (Some (mkLayout (Some (mkTextAnchor None)) None)) in
  _extract_estimated_image_areas_by_keywords init_processor
    (mkPage (Some [good; bad])) empty_results 1 keyword
  = empty_results.
Proof.
  intros keyword good bad.
  apply (X8_keyword_search_gives_up init_processor
           (mkPage (Some [good; bad])) empty_results 1 keyword
           [good; bad] bad).
  - reflexivity.
  - right. now left.
  - reflexivity.
Defined.

(** ** Grid estimate *)

Lemma collect_text_regions_raises (bs : list Block) (b : Block)
    (ta : TextAnchor) (vs : list Vertex) :
  In b bs ->
  layout b = Some (mkLayout (Some ta) (Some (mkBoundingPoly (Some vs)))) ->
  (4 <= List.length vs)%nat ->
  region_of_vertices vs = None ->
  forall acc, collect_text_regions bs acc = None.
Proof.
  intros Hin Hl Hlen Hr.
  induction bs as [|c bs IH]; intros acc; [destruct Hin|].
  cbn [collect_text_regions].
  destruct Hin as [->|Hin].
  - rewrite Hl. cbn [bounding_poly text_anchor normalized_vertices].
    apply Nat.leb_le in Hlen. rewrite Hlen, Hr. reflexivity.
  - specialize (IH Hin).
    destruct (layout c) as [l|]; [|apply IH].
    destruct (bounding_poly l) as [bp|], (text_anchor l) as [t|];
      try apply IH.
    destruct (normalized_vertices bp) as [ws|]; [|apply IH].
    destruct (4 <=? List.length ws)%nat; [|apply IH].
    destruct (region_of_vertices ws); [apply IH | reflexivity].
Qed.

(** X9: a block with a text anchor and a polygon of four vertices or more
    whose vertex 0 or vertex 2 lacks [x] or [y] makes the grid estimate
    raise while it collects the text regions: the page gets no estimated
    region, whatever its other blocks are. *)
Theorem X9_grid_estimate_gives_up (page : Page) (results : Results)
    (page_num : Z) (bs : list Block) (b : Block) (ta : TextAnchor)
    (vs : list Vertex) :
  page_blocks page = Some bs ->
  In b bs ->
  layout b = Some (mkLayout (Some ta) (Some (mkBoundingPoly (Some vs)))) ->
  (4 <= List.length vs)%nat ->
  region_of_vertices vs = None ->
  _estimate_visual_regions_from_text_gaps page results page_num = results.
Proof.
  intros Hp Hin Hl Hlen Hr.
  unfold _estimate_visual_regions_from_text_gaps. rewrite Hp.
  rewrite (collect_text_regions_raises bs b ta vs Hin Hl Hlen Hr).
  reflexivity.
Qed.

Lemma X9_grid_estimate_gives_up_witness :
  let vs :=
    [mkVertex None (Some 0%Q); mkVertex (Some 1%Q) (Some 0%Q);
     mkVertex (Some 1%Q) (Some 1%Q); mkVertex (Some 0%Q) (Some 1%Q)] in
  let bad := block_of (Some []) (Some vs) in
  let good := block_of (Some []) (Some (quad 0 0 (1 # 2) (1 # 2))) in
  _estimate_visual_regions_from_text_gaps
    (mkPage (Some [good; good; bad])) empty_results 1
  = empty_results.
Proof.
  intros vs bad good.
  apply (X9_grid_estimate_gives_up (mkPage (Some [good; good; bad]))
           empty_results 1 [good; good; bad] bad (mkTextAnchor (Some [])) vs).
  - reflexivity.
  - right. right. now left.
  - reflexivity.
  - simpl. lia.
  - reflexivity.
Defined.

Lemma In_range (n z : Z) : In z (range n) <-> 0 <= z < n.
Proof.
  unfold range. rewrite in_map_iff. split.
  - intros (k & <- & Hk). apply in_seq in Hk. lia.
  - intros H. exists (Z.to_nat z). split; [lia|]. apply in_seq. lia.
Qed.

Lemma overlaps_text_false_iff (text_regions : list TextRegion) (cell : Area) :
  overlaps_text text_regions cell = false
  <-> forall tr, In tr text_regions -> ~ overlap cell tr.
Proof.
  unfold overlaps_text, overlap. split.
  - intros H tr Hin (H1 & H2 & H3 & H4).
    assert (Hex : existsb
                    (fun text_region =>
                       Qltb (rg_left text_region) (a_right cell)
                       && Qltb (a_left cell) (rg_right text_region)
                       && Qltb (rg_top text_region) (a_bottom cell)
                       && Qltb (a_top cell) (rg_bottom text_region))
                    text_regions = true).
    { apply existsb_exists. exists tr. split; [exact Hin|].
      rewrite !andb_true_iff, !Qltb_lt. tauto. }
    congruence.
  - intros H.
    destruct (existsb _ text_regions) eqn:E; [|reflexivity].
    apply existsb_exists in E. destruct E as (tr & Hin & Ht).
    rewrite !andb_true_iff, !Qltb_lt in Ht.
    exfalso. apply (H tr Hin). tauto.
Qed.

(** X10: the candidates of the grid scan are exactly the cells of the
    [grid_size] x [grid_size] grid that overlap no text region, where a
    cell and a region that only touch along an edge do not overlap. *)
Theorem X10_candidates_overlap_no_text (g : Z)
    (text_regions : list TextRegion) (cell : Area) :
  In cell (potential_image_areas g text_regions)
  <-> exists row col,
        0 <= row < g /\ 0 <= col < g
        /\ cell = grid_cell g row col
        /\ forall tr, In tr text_regions -> ~ overlap cell tr.
Proof.
  unfold potential_image_areas. rewrite in_flat_map. split.
  - intros (row & Hrow & Hin). apply in_flat_map in Hin.
    destruct Hin as (col & Hcol & Hin). cbv zeta in Hin.
    destruct (overlaps_text text_regions (grid_cell g row col)) eqn:E;
      [destruct Hin|].
    destruct Hin as [<-|[]].
    exists row, col. rewrite In_range in Hrow, Hcol.
    repeat split; try lia. now apply overlaps_text_false_iff.
  - intros (row & col & Hrow & Hcol & -> & Hno).
    exists row. split; [now apply In_range|].
    apply in_flat_map. exists col. split; [now apply In_range|].
    cbv zeta. apply overlaps_text_false_iff in Hno. rewrite Hno. now left.
Qed.

(** ** What the merge keeps *)

Section MergePreserves.

Variable P : Area -> Prop.
Hypothesis P_absorb : forall c o, P c -> P o -> P (absorb c o).
Variable tol : Q.
Variable areas : list Area.
Hypothesis P_areas : Forall P areas.

Lemma merge_pass_preserves (cur : Area) (used : list nat) :
  P cur -> P (ms_current (merge_pass tol areas cur used)).
Proof.
  intros Hc. unfold merge_pass.
  apply (fold_left_invariant (fun st => P (ms_current st))); [|exact Hc].
  intros st [j other] Hin Hst. unfold merge_step.
  destruct (used_mem j (ms_used st)); [exact Hst|].
  destruct (adjacent tol (ms_current st) other); [|exact Hst].
  cbn [ms_current]. apply P_absorb; [exact Hst|].
  rewrite Forall_forall in P_areas. apply P_areas.
  eapply nth_error_In. apply enumerate_nth. exact Hin.
Qed.

Lemma merge_while_preserves (fuel : nat) :
  forall cur used r,
    P cur -> merge_while fuel tol areas cur used = Some r -> P (fst r).
Proof.
  induction fuel as [|fuel IH]; intros cur used r Hc H; simpl in H.
  - discriminate.
  - pose proof (merge_pass_preserves cur used Hc) as Hp.
    destruct (ms_changed (merge_pass tol areas cur used)).
    + eapply IH; eassumption.
    + injection H as <-. exact Hp.
Qed.

Lemma merge_loop_preserves (fuel : nat) (merged : list Area)
    (used : list nat) :
  merge_loop fuel tol areas = Some (merged, used) -> Forall P merged.
Proof.
  unfold merge_loop. intros H.
  assert (Hinv : match fold_left (merge_outer_step fuel tol areas)
                         (enumerate areas) (Some ([], [])) with
                 | Some (m, _) => Forall P m
                 | None => True
                 end).
  { apply (fold_left_invariant
             (fun st : option (list Area * list nat) =>
                match st with
                | Some (m, _) => Forall P m
                | None => True
                end)); [|constructor].
    intros [[m u]|] [i area] Hin Hst; [|exact I].
    unfold merge_outer_step.
    destruct (used_mem i u); [exact Hst|].
    destruct (merge_while fuel tol areas area (i :: u)) as [[c u']|] eqn:E;
      [|exact I].
    apply Forall_app. split; [exact Hst|]. constructor; [|constructor].
    apply (merge_while_preserves fuel area (i :: u) (c, u')); [|exact E].
    rewrite Forall_forall in P_areas. apply P_areas.
    eapply nth_error_In. apply enumerate_nth. exact Hin. }
  rewrite H in Hinv. exact Hinv.
Qed.

End MergePreserves.

Lemma sound_absorb (c o : Area) :
  sound_area c -> sound_area o -> sound_area (absorb c o).
Proof.
  unfold sound_area, absorb.
  intros (H1 & H2 & H3 & H4 & H5 & H6 & _) (K1 & K2 & K3 & K4 & K5 & K6 & _).
  cbn [a_left a_top a_right a_bottom a_width a_height a_area].
  repeat split; try reflexivity.
  - now apply Q.min_glb.
  - eapply Qle_trans; [apply Q.le_min_l|].
    eapply Qle_trans; [exact H2 | apply Q.le_max_l].
  - now apply Q.max_lub.
  - now apply Q.min_glb.
  - eapply Qle_trans; [apply Q.le_min_l|].
    eapply Qle_trans; [exact H5 | apply Q.le_max_l].
  - now apply Q.max_lub.
Qed.

(** X12: the merge keeps areas sound. If every input area lies on the unit
    page with [left <= right] and [top <= bottom] and has [width],
    [height] and [area] in agreement with its edges, so does every output
    area. *)
Theorem X12_merge_keeps_areas_sound (areas : list Area) (g : Z)
    (merged : list Area) :
  Forall sound_area areas ->
  _merge_adjacent_areas areas g = Some merged ->
  Forall sound_area merged.
Proof.
  intros Hs H. unfold _merge_adjacent_areas in H.
  destruct ((g =? 0) && (2 <=? List.length areas)%nat); [discriminate|].
  destruct (merge_loop (S (List.length areas)) (tolerance g) areas)
    as [[m u]|] eqn:E; [|discriminate].
  injection H as <-.
  exact (merge_loop_preserves sound_area sound_absorb (tolerance g) areas Hs
           _ _ _ E).
Qed.

Lemma grid_cell_sound (row col : Z) :
  0 <= row < 20 -> 0 <= col < 20 -> sound_area (grid_cell 20 row col).
Proof.
  intros Hr Hc. unfold sound_area, grid_cell.
  cbn [a_left a_top a_right a_bottom a_width a_height a_area].
  repeat split; unfold Qle, Qeq; cbn; lia.
Qed.

Lemma X12_merge_keeps_areas_sound_witness :
  Forall sound_area
    [absorb (grid_cell 20 0 0) (grid_cell 20 19 1)].
Proof.
  apply (X12_merge_keeps_areas_sound
           [grid_cell 20 0 0; grid_cell 20 19 1] 20).
  - constructor; [|constructor; [|constructor]];
      apply grid_cell_sound; lia.
  - vm_compute. reflexivity.
Defined.

(** X11: every region of the grid estimate is recorded on the page it was
    estimated for, as an [estimated_figure] from [text_gap_analysis]; its
    box lies on the unit page, is not inverted, and has an area
    [width * height] between 0.002 and 0.8. *)
Theorem X11_grid_regions_are_sound (text_regions : list TextRegion)
    (page_num : Z) (e : VisualElement) :
  In e (gap_figures text_regions page_num) ->
  ve_page e = page_num
  /\ ve_type e = "estimated_figure"%string
  /\ ve_source e = Some "text_gap_analysis"%string
  /\ exists bb,
       ve_bounding_box e = Some bb
       /\ bbox_of_coordinates (ve_coordinates e)
          = Some (mkBBox (left bb) (top bb) (right bb) (bottom bb)
                         (right bb - left bb) (bottom bb - top bb))
       /\ (0 <= left bb /\ left bb <= right bb /\ right bb <= 1
           /\ 0 <= top bb /\ top bb <= bottom bb /\ bottom bb <= 1
           /\ width bb == right bb - left bb
           /\ height bb == bottom bb - top bb
           /\ 2 # 1000 <= width bb * height bb
           /\ width bb * height bb <= 8 # 10)%Q.
Proof.
  unfold gap_figures.
  destruct (List.length text_regions <? 2)%nat; [intros []|].
  destruct (potential_image_areas grid_size text_regions) as [|c cs] eqn:Ec;
    [intros []|].
  rewrite <- Ec.
  destruct (_merge_adjacent_areas (potential_image_areas grid_size text_regions)
              grid_size) as [merged|] eqn:Em; [|intros []].
  intros He. apply in_map_iff in He. destruct He as ([i area] & <- & Hin).
  apply enumerate_nth, nth_error_In, filter_In in Hin.
  destruct Hin as [Hin Hf]. apply andb_true_iff in Hf. destruct Hf as [Hlo Hhi].
  assert (Hcells : Forall sound_area
                     (potential_image_areas grid_size text_regions)).
  { apply Forall_forall. intros x Hx.
    unfold potential_image_areas in Hx. apply in_flat_map in Hx.
    destruct Hx as (row & Hrow & Hx). apply in_flat_map in Hx.
    destruct Hx as (col & Hcol & Hx). cbv zeta in Hx.
    destruct (overlaps_text text_regions (grid_cell grid_size row col));
      [destruct Hx|].
    destruct Hx as [<-|[]]. apply In_range in Hrow, Hcol.
    apply grid_cell_sound; assumption. }
  assert (Hm : Forall sound_area merged).
  { unfold _merge_adjacent_areas in Em.
    destruct ((grid_size =? 0) && _); [discriminate|].
    destruct (merge_loop _ (tolerance grid_size) _) as [[m u]|] eqn:E;
      [|discriminate].
    injection Em as <-.
    exact (merge_loop_preserves sound_area sound_absorb _ _ Hcells _ _ _ E). }
  rewrite Forall_forall in Hm.
  destruct (Hm area Hin) as (H1 & H2 & H3 & H4 & H5 & H6 & H7 & H8 & H9).
  cbn [estimated_figure ve_page ve_type ve_source ve_bounding_box
       ve_coordinates fst snd].
  repeat split.
  exists (mkBBox (a_left area) (a_top area) (a_right area) (a_bottom area)
                 (a_width area) (a_height area)).
  cbn [left top right bottom width height bbox_of_coordinates px py].
  repeat split; try assumption.
  - rewrite <- H9. unfold Qleb in Hlo. rewrite Qle_alt.
    destruct (2 # 1000 ?= a_area area)%Q; congruence.
  - rewrite <- H9. unfold Qleb in Hhi. rewrite Qle_alt.
    destruct (a_area area ?= 8 # 10)%Q; congruence.
Qed.

Lemma X11_grid_regions_are_sound_witness :
  Forall (fun e => ve_page e = 3)
    (gap_figures [mkTextRegion 0 0 1 (9 # 10);
                  mkTextRegion 0 (9 # 10) (1 # 2) 1] 3).
Proof.
  apply Forall_forall. intros e He.
  apply (X11_grid_regions_are_sound _ _ _ He).
Defined.

(** ** The groups behind the merged areas *)

Lemma absorb_edge (c o : Area) (f : Area -> Q) :
  In f edges -> f (absorb c o) = f c \/ f (absorb c o) = f o.
Proof.
  unfold edges, absorb.
  intros [<-|[<-|[<-|[<-|[]]]]];
    cbn [a_left a_top a_right a_bottom];
    unfold Qmin, Qmax, GenericMinMax.gmin, GenericMinMax.gmax;
    match goal with |- context [(?x ?= ?y)%Q] => destruct (x ?= y)%Q end;
    auto.
Qed.

Lemma nth_enumerate {A : Type} (l : list A) (j : nat) (a : A) :
  nth_error l j = Some a -> In (j, a) (enumerate l).
Proof.
  unfold enumerate.
  assert (H : forall s k, nth_error l k = Some a ->
              In ((s + k)%nat, a) (combine (seq s (List.length l)) l)).
  { induction l as [|x l IH]; intros s k Hk.
    - destruct k; discriminate.
    - destruct k as [|k]; simpl in Hk.
      + injection Hk as ->. rewrite Nat.add_0_r. now left.
      + right. rewrite <- Nat.add_succ_comm. apply IH. exact Hk. }
  intros Hj. exact (H 0%nat j Hj).
Qed.

Lemma NoDup_app_disjoint {A : Type} (l1 l2 : list A) (x : A) :
  NoDup (l1 ++ l2) -> In x l1 -> ~ In x l2.
Proof.
  induction l1 as [|a l1 IH]; intros Hnd Hin; [destruct Hin|].
  simpl in Hnd. inversion Hnd as [|? ? Hni Hnd']; subst.
  destruct Hin as [->|Hin].
  - intros Hx. apply Hni. apply in_or_app. now right.
  - now apply IH.
Qed.

Section MergeStructure.

Variable tol : Q.
Variable areas : list Area.

Lemma tight_from_refl (cur : Area) (used : list nat) :
  tight_from areas cur used cur used.
Proof. split; [apply incl_refl | intros f _; now left]. Qed.

Lemma tight_from_trans (c0 c1 c2 : Area) (u0 u1 u2 : list nat) :
  tight_from areas c0 u0 c1 u1 -> tight_from areas c1 u1 c2 u2 ->
  tight_from areas c0 u0 c2 u2.
Proof.
  intros [Hi1 H1] [Hi2 H2]. split; [eapply incl_tran; eassumption|].
  intros f Hf. destruct (H2 f Hf) as [E|(j & a & Hj & Hn & Ha & E)].
  - destruct (H1 f Hf) as [E1|(j & a & Hj & Hn & Ha & E1)].
    + left. congruence.
    + right. exists j, a. repeat split; try assumption.
      * now apply Hi2.
      * congruence.
  - right. exists j, a. repeat split; try assumption.
    intros Hc. apply Hn. now apply Hi1.
Qed.

Lemma merge_pass_tight (cur : Area) (used : list nat) :
  let st := merge_pass tol areas cur used in
  tight_from areas cur used (ms_current st) (ms_used st).
Proof.
  unfold merge_pass.
  apply (fold_left_invariant
           (fun st => tight_from areas cur used (ms_current st) (ms_used st)));
    [|apply tight_from_refl].
  intros st [j other] Hin Hst. unfold merge_step.
  destruct (used_mem j (ms_used st)) eqn:Ej; [exact Hst|].
  destruct (adjacent tol (ms_current st) other); [|exact Hst].
  cbn [ms_current ms_used].
  eapply tight_from_trans; [exact Hst|].
  split; [intros x Hx; now right|].
  intros f Hf. destruct (absorb_edge (ms_current st) other f Hf) as [E|E].
  - now left.
  - right. exists j, other. repeat split.
    + now left.
    + now apply used_mem_not_In.
    + now apply enumerate_nth.
    + now rewrite E.
Qed.

Lemma merge_while_tight (fuel : nat) :
  forall cur used r,
    merge_while fuel tol areas cur used = Some r ->
    tight_from areas cur used (fst r) (snd r).
Proof.
  induction fuel as [|fuel IH]; intros cur used r H; simpl in H.
  - discriminate.
  - pose proof (merge_pass_tight cur used) as Hp. cbv zeta in Hp.
    destruct (ms_changed (merge_pass tol areas cur used)).
    + eapply tight_from_trans; [exact Hp | apply IH; exact H].
    + injection H as <-. exact Hp.
Qed.

(** A pass that changes nothing has found no unused area adjacent to the
    current one. *)
Lemma merge_fold_unchanged (l : list (nat * Area)) :
  forall st,
    ms_changed (fold_left (merge_step tol) l st) = false ->
    fold_left (merge_step tol) l st = st
    /\ forall j other, In (j, other) l ->
         ~ In j (ms_used st) -> adjacent tol (ms_current st) other = false.
Proof.
  induction l as [|[j other] l IH]; intros st H; cbn [fold_left] in *.
  - split; [reflexivity | intros ? ? []].
  - destruct (IH _ H) as [Hfix Hno].
    rewrite Hfix in H.
    assert (Hstep : merge_step tol st (j, other) = st
                    /\ (~ In j (ms_used st) ->
                        adjacent tol (ms_current st) other = false)).
    { unfold merge_step in *.
      destruct (used_mem j (ms_used st)) eqn:Ej.
      - split; [reflexivity|]. intros Hn. exfalso. apply Hn.
        now apply used_mem_In.
      - destruct (adjacent tol (ms_current st) other);
          [discriminate H | split; reflexivity]. }
    destruct Hstep as [Hs Ha]. rewrite Hs in Hfix, Hno.
    split; [rewrite Hs; exact Hfix|].
    intros k o [[= <- <-]|Hin] Hk; [now apply Ha | exact (Hno k o Hin Hk)].
Qed.

Lemma merge_while_closed (fuel : nat) :
  forall cur used r,
    merge_while fuel tol areas cur used = Some r ->
    forall j a, nth_error areas j = Some a -> ~ In j (snd r) ->
                adjacent tol (fst r) a = false.
Proof.
  induction fuel as [|fuel IH]; intros cur used r H; simpl in H.
  - discriminate.
  - destruct (ms_changed (merge_pass tol areas cur used)) eqn:Ec.
    + eapply IH; exact H.
    + injection H as <-. cbn [fst snd].
      unfold merge_pass in *.
      destruct (merge_fold_unchanged _ _ Ec) as [Hfix Hno].
      rewrite Hfix. cbn [ms_current ms_used] in *.
      intros j a Hj Hn. apply (Hno j a); [now apply nth_enumerate | exact Hn].
Qed.

Lemma closed_after_snoc (merged : list Area) :
  forall groups cur gnew,
    List.length merged = List.length groups ->
    closed_after tol areas merged groups ->
    (forall m j a, In m merged -> In j gnew -> nth_error areas j = Some a ->
                   adjacent tol m a = false) ->
    closed_after tol areas (merged ++ [cur]) (groups ++ [gnew]).
Proof.
  induction merged as [|m ms IH]; intros [|g gs] cur gnew Hlen Hc Hnew;
    try discriminate.
  - cbn. split; [intros j a []|exact I].
  - cbn [app closed_after] in *. destruct Hc as [Hm Hrest]. split.
    + intros j a Hj Ha. rewrite concat_app in Hj. cbn in Hj.
      rewrite app_nil_r in Hj. apply in_app_or in Hj.
      destruct Hj as [Hj|Hj].
      * eapply Hm; eassumption.
      * eapply Hnew; [now left | eassumption | eassumption].
    + apply IH; [now injection Hlen | exact Hrest|].
      intros m' j a Hm' Hj Ha. eapply Hnew; [now right | eassumption..].
Qed.

Lemma merge_outer_step_inv2 (i : nat) (area : Area)
    (st : option (list Area * list nat)) :
  nth_error areas i = Some area ->
  outer_inv2 tol areas i st ->
  outer_inv2 tol areas (S i)
    (merge_outer_step (S (List.length areas)) tol areas st (i, area)).
Proof.
  intros Hi (merged & used & groups & -> & Hnd & Hlt & Hall & Hf & Hp
             & Ht & Hc & Hun).
  assert (Hin : (i < List.length areas)%nat).
  { apply nth_error_Some. rewrite Hi. discriminate. }
  unfold merge_outer_step.
  destruct (used_mem i used) eqn:Eu.
  - exists merged, used, groups. repeat split; try assumption.
    intros k Hk. destruct (Nat.eq_dec k i) as [->|Hne].
    + now apply used_mem_In.
    + apply Hall. lia.
  - assert (Hnd' : NoDup (i :: used))
      by (constructor; [now apply used_mem_not_In | exact Hnd]).
    destruct (merge_while_total tol areas (S (List.length areas)) area
                (i :: used) Hnd') as ([cur used'] & Hw).
    { pose proof (unused_le (List.length areas) (i :: used)). lia. }
    rewrite Hw.
    destruct (merge_while_spec tol areas _ _ _ _ Hnd' Hw)
      as (g & Hu & Hn' & Hm & Hcov).
    pose proof (merge_while_tight _ _ _ _ Hw) as [Hincl Htight].
    pose proof (merge_while_closed _ _ _ _ Hw) as Hclosed.
    cbn [fst snd] in *.
    assert (Hg : forall j, In j (g ++ [i]) <-> In j used' /\ ~ In j used).
    { intros j. rewrite Hu in *. split.
      - intros Hj. apply in_app_or in Hj. split.
        + apply in_or_app. destruct Hj as [Hj|[<-|[]]];
            [now left | right; now left].
        + assert (Hd : NoDup ((g ++ [i]) ++ used))
            by (rewrite <- app_assoc; exact Hn').
          apply (NoDup_app_disjoint _ _ j Hd).
          apply in_or_app. destruct Hj as [Hj|[<-|[]]];
            [now left | right; now left].
      - intros [Hj Hnu]. apply in_app_or in Hj. apply in_or_app.
        destruct Hj as [Hj|[<-|Hj]];
          [now left | right; now left | contradiction]. }
    exists (merged ++ [cur]), used', (groups ++ [g ++ [i]]).
    repeat split.
    + exact Hn'.
    + intros j Hj. rewrite Hu in Hj. apply in_app_or in Hj.
      destruct Hj as [Hj|[<-|Hj]].
      * destruct (Hm j Hj) as (a & Ha & _).
        apply nth_error_Some. rewrite Ha. discriminate.
      * exact Hin.
      * now apply Hlt.
    + intros k Hk. rewrite Hu. apply in_or_app. right.
      destruct (Nat.eq_dec k i) as [->|Hne]; [now left|].
      right. apply Hall. lia.
    + apply Forall2_app; [exact Hf|]. constructor; [|constructor].
      split.
      * destruct g; discriminate.
      * intros j Hj. apply in_app_or in Hj. destruct Hj as [Hj|[<-|[]]].
        -- now apply Hm.
        -- exists area. split; assumption.
    + rewrite concat_app. simpl. rewrite app_nil_r, Hu.
      replace (g ++ i :: used) with ((g ++ [i]) ++ used)
        by (now rewrite <- app_assoc).
      etransitivity; [apply Permutation_app_comm|].
      apply Permutation_app_head. exact Hp.
    + apply Forall2_app; [exact Ht|]. constructor; [|constructor].
      intros f Hfe. destruct (Htight f Hfe) as [E|(j & a & Hj & Hnj & Ha & E)].
      * exists i, area. repeat split; [|exact Hi | now rewrite E].
        apply in_or_app. right. now left.
      * exists j, a. repeat split; try assumption.
        apply Hg. split; [exact Hj|]. intros Hc'. apply Hnj. now right.
    + apply closed_after_snoc.
      * exact (Forall2_length Hf).
      * exact Hc.
      * intros m j a Hm' Hj Ha. apply (Hun m j a Hm' Ha).
        now apply Hg in Hj.
    + intros m j a Hm' Ha Hnj. apply in_app_or in Hm'.
      destruct Hm' as [Hm'|[<-|[]]].
      * apply (Hun m j a Hm' Ha). intros Hc'. apply Hnj.
        rewrite Hu. apply in_or_app. right. now right.
      * exact (Hclosed j a Ha Hnj).
Qed.

Lemma merge_outer_fold_inv2 (l : list Area) :
  forall s st,
    (forall k a, nth_error l k = Some a ->
                 nth_error areas (s + k) = Some a) ->
    outer_inv2 tol areas s st ->
    outer_inv2 tol areas (s + List.length l)
      (fold_left (merge_outer_step (S (List.length areas)) tol areas)
                 (combine (seq s (List.length l)) l) st).
Proof.
  induction l as [|a l IH]; intros s st Hnth Hinv; simpl.
  - now rewrite Nat.add_0_r.
  - rewrite <- Nat.add_succ_comm. apply IH.
    + intros k b Hk. rewrite Nat.add_succ_comm. apply Hnth. exact Hk.
    + apply merge_outer_step_inv2; [|exact Hinv].
      rewrite <- (Nat.add_0_r s). apply Hnth. reflexivity.
Qed.

Lemma merge_loop_structure :
  exists merged used groups,
    merge_loop (S (List.length areas)) tol areas = Some (merged, used)
    /\ Forall2 (group_of areas) merged groups
    /\ Permutation (List.concat groups) (seq 0 (List.length areas))
    /\ Forall2 (tight areas) merged groups
    /\ closed_after tol areas merged groups.
Proof.
  destruct (merge_outer_fold_inv2 areas 0%nat (Some ([], [])))
    as (merged & used & groups & Hst & Hnd & Hlt & Hall & Hf & Hp
        & Ht & Hc & _).
  - intros k a Hk. exact Hk.
  - exists [], [], []. repeat split; try constructor.
    + intros j [].
    + intros i Hi. lia.
    + intros m j a [].
  - simpl in Hall, Hst.
    exists merged, used, groups. repeat split; try assumption.
    etransitivity; [exact Hp|].
    apply NoDup_Permutation; [exact Hnd | apply seq_NoDup|].
    intros x. rewrite in_seq. split.
    + intros Hx. specialize (Hlt x Hx). lia.
    + intros Hx. apply Hall. lia.
Qed.

End MergeStructure.

Lemma merge_wrapper_result (areas : list Area) (grid_size : Z)
    (merged : list Area) (used : list nat) :
  merge_loop (S (List.length areas)) (tolerance grid_size) areas
    = Some (merged, used) ->
  grid_size <> 0 \/ (List.length areas < 2)%nat ->
  _merge_adjacent_areas areas grid_size = Some merged.
Proof.
  intros Hl Hg. unfold _merge_adjacent_areas.
  replace ((grid_size =? 0) && (2 <=? List.length areas)%nat) with false.
  - rewrite Hl. reflexivity.
  - symmetry. apply andb_false_iff. destruct Hg as [Hg|Hg].
    + left. now apply Z.eqb_neq.
    + right. apply Nat.leb_gt. exact Hg.
Qed.

Lemma Forall2_and {A B : Type} (R1 R2 : A -> B -> Prop) (l1 : list A)
    (l2 : list B) :
  Forall2 R1 l1 l2 -> Forall2 R2 l1 l2 ->
  Forall2 (fun a b => R1 a b /\ R2 a b) l1 l2.
Proof.
  intros H1. induction H1 as [|a b l1 l2 Hab _ IH]; intros H2.
  - constructor.
  - inversion H2; subst. constructor; [split; assumption | now apply IH].
Qed.

(** X13: the box of every merged area is exactly the bounding box of the
    input areas of its group: it contains each of them, and each of its
    four edges is the same edge of one of them. The groups split the input
    indices, every index in one group. *)
Theorem X13_merged_box_is_bounding_box (areas : list Area) (tol : Q) :
  exists merged used groups,
    merge_loop (S (List.length areas)) tol areas = Some (merged, used)
    /\ Permutation (List.concat groups) (seq 0 (List.length areas))
    /\ Forall2 (fun m g => group_of areas m g /\ tight areas m g)
               merged groups
    /\ forall grid_size,
         tol = tolerance grid_size ->
         grid_size <> 0 \/ (List.length areas < 2)%nat ->
         _merge_adjacent_areas areas grid_size = Some merged.
Proof.
  destruct (merge_loop_structure tol areas)
    as (merged & used & groups & Hl & Hf & Hp & Ht & _).
  exists merged, used, groups. split; [exact Hl|]. split; [exact Hp|].
  split; [now apply Forall2_and|].
  intros grid_size -> Hg. now apply merge_wrapper_result with (used := used).
Qed.

Lemma closed_after_nth (tol : Q) (areas merged : list Area) :
  forall groups k k' m g' j a,
    closed_after tol areas merged groups ->
    (k < k')%nat ->
    nth_error merged k = Some m -> nth_error groups k' = Some g' ->
    In j g' -> nth_error areas j = Some a ->
    adjacent tol m a = false.
Proof.
  induction merged as [|m0 ms IH]; intros groups k k' m g' j a Hc Hk Hm Hg Hj Ha.
  - destruct k; discriminate.
  - destruct groups as [|g0 gs]; [destruct k'; discriminate|].
    cbn [closed_after] in Hc. destruct Hc as [H0 Hrest].
    destruct k' as [|k']; [lia|]. cbn [nth_error] in Hg.
    destruct k as [|k]; cbn [nth_error] in Hm.
    + injection Hm as <-. apply (H0 j a); [|exact Ha].
      apply in_concat. exists g'. split; [|exact Hj].
      eapply nth_error_In. exact Hg.
    + apply (IH gs k k' m g' j a); try assumption. lia.
Qed.

(** X14: a merged area is closed against what comes later: no input area
    that ends up in the group of a later output area passes the adjacency
    test against an earlier output area. *)
Theorem X14_later_groups_are_not_adjacent (areas : list Area) (tol : Q) :
  exists merged used groups,
    merge_loop (S (List.length areas)) tol areas = Some (merged, used)
    /\ Forall2 (group_of areas) merged groups
    /\ Permutation (List.concat groups) (seq 0 (List.length areas))
    /\ (forall k k' m g' j a,
         (k < k')%nat ->
         nth_error merged k = Some m -> nth_error groups k' = Some g' ->
         In j g' -> nth_error areas j = Some a ->
         adjacent tol m a = false)
    /\ forall grid_size,
         tol = tolerance grid_size ->
         grid_size <> 0 \/ (List.length areas < 2)%nat ->
         _merge_adjacent_areas areas grid_size = Some merged.
Proof.
  destruct (merge_loop_structure tol areas)
    as (merged & used & groups & Hl & Hf & Hp & _ & Hc).
  exists merged, used, groups.
  split; [exact Hl|]. split; [exact Hf|]. split; [exact Hp|]. split.
  - intros k k' m g' j a Hk Hm Hg Hj Ha.
    eapply closed_after_nth; eassumption.
  - intros grid_size -> Hg. now apply merge_wrapper_result with (used := used).
Qed.

(** ** The adjacency test against the running union *)

Lemma adjacent_passes (grid_size : Z) (c o : Area) :
  0 < grid_size ->
  adjacent (tolerance grid_size) c o = true <-> passes_edge_test grid_size c o.
Proof.
  intros Hpos. unfold passes_edge_test.
  rewrite adjacent_iff, (tolerance_eq grid_size) by lia. tauto.
Qed.

(** C10, as stated, fails: the cell of row 0, column 0 and the cell of
    row 19, column 1 lie in adjacent columns and pass the edge test
    against each other, yet with the cell of row 0, column 5 listed
    between them they end in two regions: by the time the second is
    tested, the first has grown into a union that it does not pass. *)
Lemma C10_adjacent_columns_stay_apart :
  let a := grid_cell 20 0 0 in
  let c := grid_cell 20 0 5 in
  let b := grid_cell 20 19 1 in
  passes_edge_test 20 a b
  /\ ~ passes_edge_test 20 (absorb a c) b
  /\ _merge_adjacent_areas [a; c; b] 20 = Some [absorb a c; b].
Proof.
  split; [|split].
  - left. vm_compute. reflexivity.
  - intros H. apply adjacent_passes in H; [|lia].
    vm_compute in H. discriminate H.
  - vm_compute. reflexivity.
Qed.

(** C10, amended: the test is made between the running union of the
    region being built and each area not yet used. Such an area is
    absorbed into the union exactly when one pair of opposite edges (right
    and left, left and right, bottom and top, top and bottom) of the union
    and the area differs by less than [1.1 / grid_size] in absolute value,
    with no condition on the other axis. So no area that ended in a later
    region passes the test against an earlier region, every area that
    passes it against a finished region is part of that region or of an
    earlier one, and two areas given alone that pass it are merged into
    the one area spanning both. *)
Theorem C10_union_absorbs_on_one_edge_pair (areas : list Area)
    (grid_size : Z) :
  0 < grid_size ->
  (forall st j other,
      ~ In j (ms_used st) ->
      passes_edge_test grid_size (ms_current st) other ->
      merge_step (tolerance grid_size) st (j, other)
      = mkMergeState (absorb (ms_current st) other) (j :: ms_used st) true)
  /\ (forall st j other,
        ~ passes_edge_test grid_size (ms_current st) other ->
        merge_step (tolerance grid_size) st (j, other) = st)
  /\ (exists merged groups,
        _merge_adjacent_areas areas grid_size = Some merged
        /\ Forall2 (group_of areas) merged groups
        /\ Permutation (List.concat groups) (seq 0 (List.length areas))
        /\ (forall k k' m g' j a,
              (k < k')%nat ->
              nth_error merged k = Some m -> nth_error groups k' = Some g' ->
              In j g' -> nth_error areas j = Some a ->
              ~ passes_edge_test grid_size m a)
        /\ forall k m j a,
             nth_error merged k = Some m -> nth_error areas j = Some a ->
             passes_edge_test grid_size m a ->
             exists k' g',
               (k' <= k)%nat /\ nth_error groups k' = Some g' /\ In j g')
  /\ forall a b,
       areas = [a; b] -> passes_edge_test grid_size a b ->
       _merge_adjacent_areas areas grid_size = Some [absorb a b].
Proof.
  intros Hpos. split; [|split; [|split]].
  - intros st j other Hj Hp. unfold merge_step.
    apply used_mem_not_In in Hj. rewrite Hj.
    apply (adjacent_passes grid_size _ _ Hpos) in Hp. rewrite Hp.
    reflexivity.
  - intros st j other Hp. unfold merge_step.
    destruct (used_mem j (ms_used st)); [reflexivity|].
    destruct (adjacent (tolerance grid_size) (ms_current st) other) eqn:E;
      [|reflexivity].
    exfalso. apply Hp. now apply adjacent_passes.
  - destruct (merge_loop_structure (tolerance grid_size) areas)
      as (merged & used & groups & Hl & Hf & Hp & _ & Hc).
    assert (Hlater : forall k k' m g' j a,
               (k < k')%nat ->
               nth_error merged k = Some m -> nth_error groups k' = Some g' ->
               In j g' -> nth_error areas j = Some a ->
               ~ passes_edge_test grid_size m a).
    { intros k k' m g' j a Hk Hm Hg Hj Ha Hpass.
      apply (adjacent_passes grid_size _ _ Hpos) in Hpass.
      rewrite (closed_after_nth _ _ _ _ _ _ _ _ _ _ Hc Hk Hm Hg Hj Ha)
        in Hpass.
      discriminate Hpass. }
    exists merged, groups.
    split; [|split; [exact Hf|split; [exact Hp|split; [exact Hlater|]]]].
    + apply merge_wrapper_result with (used := used); [exact Hl|].
      left. lia.
    + intros k m j a Hm Ha Hpass.
      assert (Hin : In j (List.concat groups)).
      { apply (Permutation_in j (Permutation_sym Hp)).
        apply in_seq. split; [lia|]. cbn.
        apply nth_error_Some. rewrite Ha. discriminate. }
      apply in_concat in Hin. destruct Hin as (g' & Hg' & Hj).
      apply In_nth_error in Hg'. destruct Hg' as [k' Hk'].
      exists k', g'. split; [|split; [exact Hk' | exact Hj]].
      destruct (Nat.le_gt_cases k' k) as [Hle|Hgt]; [exact Hle|].
      exfalso. exact (Hlater k k' m g' j a Hgt Hm Hk' Hj Ha Hpass).
  - intros a b -> Hp. apply merge_two_areas; assumption.
Qed.

Lemma C10_union_absorbs_on_one_edge_pair_witness :
  _merge_adjacent_areas [grid_cell 20 0 0; grid_cell 20 19 1] 20
  = Some [absorb (grid_cell 20 0 0) (grid_cell 20 19 1)].
Proof.
  apply (C10_union_absorbs_on_one_edge_pair
           [grid_cell 20 0 0; grid_cell 20 19 1] 20).
  - lia.
  - reflexivity.
  - left. vm_compute. reflexivity.
Defined.

(** ** Pixel boxes *)

Lemma pixel_coordinate_bounds (x : Q) (w : Z) :
  (0 <= x)%Q -> (x <= 1)%Q -> 0 <= w ->
  0 <= int_of_float (x * inject_Z w) <= w.
Proof.
  intros H0 H1 Hw.
  rewrite int_of_float_nonneg by (now apply scaled_nonneg).
  split.
  - change 0 with (Qfloor 0). apply Qfloor_resp_le.
    now apply scaled_nonneg.
  - rewrite <- (Qfloor_Z w) at 2. apply Qfloor_resp_le.
    rewrite <- (Qmult_1_l (inject_Z w)) at 2.
    apply Qmult_le_compat_r; [exact H1|]. unfold Qle; simpl. lia.
Qed.

Lemma pixel_coordinate_mono (x y : Q) (w : Z) :
  (0 <= x)%Q -> (x <= y)%Q -> 0 <= w ->
  int_of_float (x * inject_Z w) <= int_of_float (y * inject_Z w).
Proof.
  intros H0 Hxy Hw.
  assert (Hy : (0 <= y)%Q) by (eapply Qle_trans; eassumption).
  rewrite !int_of_float_nonneg by (now apply scaled_nonneg).
  apply Qfloor_resp_le. apply Qmult_le_compat_r; [exact Hxy|].
  unfold Qle; simpl. lia.
Qed.

(** X15: for a box on the unit page with [left <= right] and
    [top <= bottom], a crop that succeeds reports a pixel box inside the
    raster, [0 <= left <= right <= width] and
    [0 <= top <= bottom <= height], so the reported width and height are
    not negative and not larger than the raster. *)
Theorem X15_pixel_box_inside_raster (lib : ImageLibrary)
    (figure : VisualElement) (page_image : PageImage) (info : CroppedInfo)
    (bbox : BBox) (page_img : image lib) :
  _crop_figure_from_page lib figure page_image = Some info ->
  ve_bounding_box figure = Some bbox ->
  image_open lib (pi_filepath page_image) = Some page_img ->
  0 <= fst (image_size lib page_img) ->
  0 <= snd (image_size lib page_img) ->
  (0 <= left bbox /\ left bbox <= right bbox /\ right bbox <= 1)%Q ->
  (0 <= top bbox /\ top bbox <= bottom bbox /\ bottom bbox <= 1)%Q ->
  let box := ci_pixel_coordinates info in
  let w := fst (image_size lib page_img) in
  let h := snd (image_size lib page_img) in
  0 <= pix_left box <= pix_right box /\ pix_right box <= w
  /\ 0 <= pix_top box <= pix_bottom box /\ pix_bottom box <= h
  /\ 0 <= ci_width info <= w /\ 0 <= ci_height info <= h.
Proof.
  intros Hc Hb Ho Hw Hh (Hl0 & Hlr & Hr1) (Ht0 & Htb & Hb1).
  apply crop_some_iff in Hc.
  destruct Hc as (p & bb & c & fn & Ho' & Hb' & _ & _ & _ & ->).
  rewrite Ho in Ho'. injection Ho' as <-.
  rewrite Hb in Hb'. injection Hb' as <-.
  cbv zeta. cbn [ci_pixel_coordinates ci_width ci_height].
  unfold to_pixel_box. cbn [pix_left pix_top pix_right pix_bottom].
  assert (Hr0 : (0 <= right bbox)%Q) by exact (Qle_trans _ _ _ Hl0 Hlr).
  assert (Hbt0 : (0 <= bottom bbox)%Q) by exact (Qle_trans _ _ _ Ht0 Htb).
  assert (Hl1 : (left bbox <= 1)%Q) by exact (Qle_trans _ _ _ Hlr Hr1).
  assert (Ht1 : (top bbox <= 1)%Q) by exact (Qle_trans _ _ _ Htb Hb1).
  pose proof (pixel_coordinate_bounds _ _ Hl0 Hl1 Hw).
  pose proof (pixel_coordinate_bounds _ _ Hr0 Hr1 Hw).
  pose proof (pixel_coordinate_bounds _ _ Ht0 Ht1 Hh).
  pose proof (pixel_coordinate_bounds _ _ Hbt0 Hb1 Hh).
  pose proof (pixel_coordinate_mono _ _ _ Hl0 Hlr Hw).
  pose proof (pixel_coordinate_mono _ _ _ Ht0 Htb Hh).
  lia.
Qed.

Lemma X15_pixel_box_inside_raster_witness :
  exists info,
    _crop_figure_from_page (raster_library (fun _ => Some (1000, 800)))
      (detected_figure 1 1 (1 # 3) (1 # 7) (2 # 3) (6 # 7))
      (page_image_of 1 1000 800) = Some info
    /\ 0 <= ci_width info <= 1000 /\ 0 <= ci_height info <= 800.
Proof.
  eexists. split; [reflexivity|].
  destruct (X15_pixel_box_inside_raster
              (raster_library (fun _ => Some (1000, 800)))
              (detected_figure 1 1 (1 # 3) (1 # 7) (2 # 3) (6 # 7))
              (page_image_of 1 1000 800) _ _ (1000, 800)
              eq_refl eq_refl eq_refl)
    as (_ & _ & _ & _ & Hw & Hh).
  all: try (split; assumption).
  all: try (simpl; lia).
  all: repeat split; unfold Qle; simpl; lia.
Defined.

(** X16: each pixel coordinate of a crop is the normalized coordinate
    scaled by the raster size and cut to a whole pixel: it lies at or
    below the scaled value and less than one pixel away, for every box
    whose coordinates are not negative. *)
Theorem X16_pixel_box_within_one_pixel (lib : ImageLibrary)
    (figure : VisualElement) (page_image : PageImage) (info : CroppedInfo)
    (bbox : BBox) (page_img : image lib) :
  _crop_figure_from_page lib figure page_image = Some info ->
  ve_bounding_box figure = Some bbox ->
  image_open lib (pi_filepath page_image) = Some page_img ->
  0 <= fst (image_size lib page_img) ->
  0 <= snd (image_size lib page_img) ->
  (0 <= left bbox)%Q -> (0 <= top bbox)%Q ->
  (0 <= right bbox)%Q -> (0 <= bottom bbox)%Q ->
  let box := ci_pixel_coordinates info in
  let w := inject_Z (fst (image_size lib page_img)) in
  let h := inject_Z (snd (image_size lib page_img)) in
  (inject_Z (pix_left box) <= left bbox * w
   /\ left bbox * w < inject_Z (pix_left box + 1)
   /\ inject_Z (pix_top box) <= top bbox * h
   /\ top bbox * h < inject_Z (pix_top box + 1)
   /\ inject_Z (pix_right box) <= right bbox * w
   /\ right bbox * w < inject_Z (pix_right box + 1)
   /\ inject_Z (pix_bottom box) <= bottom bbox * h
   /\ bottom bbox * h < inject_Z (pix_bottom box + 1))%Q.
Proof.
  intros Hc Hb Ho Hw Hh Hl Ht Hr Hbt.
  apply crop_some_iff in Hc.
  destruct Hc as (p & bb & c & fn & Ho' & Hb' & _ & _ & _ & ->).
  rewrite Ho in Ho'. injection Ho' as <-.
  rewrite Hb in Hb'. injection Hb' as <-.
  cbv zeta. cbn [ci_pixel_coordinates].
  unfold to_pixel_box. cbn [pix_left pix_top pix_right pix_bottom].
  rewrite !int_of_float_nonneg by (now apply scaled_nonneg).
  repeat split; apply Qfloor_le || apply Qlt_floor.
Qed.

Lemma X16_pixel_box_within_one_pixel_witness :
  (inject_Z 333 <= (1 # 3) * inject_Z 1000
   /\ (1 # 3) * inject_Z 1000 < inject_Z (333 + 1))%Q.
Proof.
  destruct (X16_pixel_box_within_one_pixel
              (raster_library (fun _ => Some (1000, 800)))
              (detected_figure 1 1 (1 # 3) (1 # 7) (2 # 3) (6 # 7))
              (page_image_of 1 1000 800) _ _ (1000, 800)
              eq_refl eq_refl eq_refl)
    as (H1 & H2 & _).
  all: try (split; assumption).
  all: try (simpl; lia).
  all: unfold Qle; simpl; lia.
Defined.

(** ** Where the crops come from *)

(** X17: every crop that the cropping loop adds is the crop of an element
    of [visual_elements] whose type is [figure], [estimated_figure] or
    [potential_image], taken from the first page image recorded for the
    element's page, and carries the page and the identifier of that
    element; elements of any other type are never cropped. *)
Theorem X17_crops_come_from_figures (lib : ImageLibrary) (results : Results)
    (info : CroppedInfo) :
  In info (extracted_figures (fst (_extract_figure_images lib results))) ->
  In info (extracted_figures results)
  \/ exists figure page_image,
       In figure (visual_elements results)
       /\ is_figure_type (ve_type figure) = true
       /\ find_page_image results (ve_page figure) = Some page_image
       /\ In page_image (page_images results)
       /\ pi_page page_image = ve_page figure
       /\ _crop_figure_from_page lib figure page_image = Some info
       /\ ci_page info = ve_page figure
       /\ ci_element_id info = ve_element_id figure.
Proof.
  unfold _extract_figure_images.
  destruct (figure_elements results) as [|f fs] eqn:Ef.
  - cbn [fst]. now left.
  - rewrite <- Ef. cbn [fst extracted_figures].
    destruct (crop_loop_state lib results (figure_elements results)
                (mkCropState results 0
                   [LogStart (List.length (figure_elements results))])
                eq_refl) as (He & _).
    rewrite He. cbn [cs_results]. intros Hin. apply in_app_or in Hin.
    destruct Hin as [Hin|Hin]; [now left|]. right.
    unfold keep_some in Hin. apply in_flat_map in Hin.
    destruct Hin as (figure & Hfig & Hin).
    unfold crop_of in Hin.
    destruct (find_page_image results (ve_page figure)) as [pi|] eqn:Efind;
      [|destruct Hin].
    destruct (_crop_figure_from_page lib figure pi) as [i|] eqn:Ec;
      [|destruct Hin].
    destruct Hin as [->|[]].
    unfold figure_elements in Hfig. apply filter_In in Hfig.
    destruct Hfig as [Hv Hty].
    unfold find_page_image in Efind.
    pose proof (find_some _ _ Efind) as [Hpi Hpage].
    apply Z.eqb_eq in Hpage.
    pose proof Ec as Ec'. apply crop_some_iff in Ec'.
    destruct Ec' as (p & bb & c & fn & _ & _ & _ & _ & _ & ->).
    exists figure, pi. repeat split; assumption.
Qed.

Lemma X17_crops_come_from_figures_witness :
  let f2 := detected_figure 1 2 (1 # 10) (1 # 10) (3 # 10) (3 # 10) in
  let table :=
    mkVisualElement 1 (IdNumber 1) "table" None None None
      (ve_coordinates f2) (ve_bounding_box f2) in
  let results :=
    mkResults [] [] [table; f2] [] [page_image_of 1 1000 1000]
              (mkSummary 1 0 1 0 1) in
  map ci_element_id
    (extracted_figures
       (fst (_extract_figure_images
               (raster_library (fun _ => Some (1000, 1000))) results)))
  = [IdNumber 2].
Proof.
  intros f2 table results.
  destruct (X17_crops_come_from_figures
              (raster_library (fun _ => Some (1000, 1000))) results
              (mkCroppedInfo 1 (IdNumber 2) (FigureFile 1 (IdNumber 2))
                 (FigureFile 1 (IdNumber 2)) (ve_coordinates f2)
                 (mkPixelBox 100 100 300 300) 200 200)
              (or_introl eq_refl))
    as [[]|(figure & pi & _ & _ & _ & _ & _ & _ & _ & Hid)].
  cbn in Hid |- *. reflexivity.
Defined.

(** ** Tables of the form parser *)

Lemma fold_left_snoc_map {A B : Type} (f : A -> B) (l : list A) :
  forall acc,
    fold_left (fun acc x => acc ++ [f x]) l acc = acc ++ map f l.
Proof.
  induction l as [|x l IH]; intros acc; simpl.
  - now rewrite app_nil_r.
  - rewrite IH, <- app_assoc. reflexivity.
Qed.

Lemma row_cells_of_map (full_text : pystr) (cs : list TableCell) :
  row_cells_of full_text cs
  = map (fun ic => cell_entry full_text (fst ic) (snd ic)) (enumerate cs).
Proof.
  unfold row_cells_of.
  rewrite (fold_left_snoc_map
             (fun ic => cell_entry full_text (fst ic) (snd ic))).
  reflexivity.
Qed.

Lemma enumerate_nth_iff {A : Type} (l : list A) (k : nat) (a : A) :
  nth_error l k = Some a ->
  nth_error (enumerate l) k = Some (k, a).
Proof.
  unfold enumerate.
  assert (H : forall s, nth_error l k = Some a ->
              nth_error (combine (seq s (List.length l)) l) k
              = Some ((s + k)%nat, a)).
  { revert k. induction l as [|x l IH]; intros k s Hk.
    - destruct k; discriminate.
    - destruct k as [|k]; simpl in *.
      + injection Hk as ->. now rewrite Nat.add_0_r.
      + rewrite <- Nat.add_succ_comm. now apply IH. }
  intros Hk. exact (H 0%nat Hk).
Qed.

(** X18: a table row is returned exactly when it has at least one cell;
    the returned row has one entry per cell, in order, numbered from 0,
    with the stripped text of the cell, also for a cell without text. *)
Theorem X18_table_row_keeps_every_cell (row : TableRow) (full_text : pystr)
    (id : RowId) :
  (_extract_table_row_data row full_text id = None <-> cells_of row = [])
  /\ forall rd,
       _extract_table_row_data row full_text id = Some rd ->
       row_id rd = id
       /\ List.length (row_cells rd) = List.length (cells_of row)
       /\ forall k c, nth_error (cells_of row) k = Some c ->
            nth_error (row_cells rd) k = Some (cell_entry full_text k c).
Proof.
  unfold _extract_table_row_data, cells_of. cbn [row_cells].
  destruct (cells row) as [cs|]; [|split; [tauto | discriminate]].
  rewrite row_cells_of_map.
  assert (Hlen : List.length
                   (map (fun ic => cell_entry full_text (fst ic) (snd ic))
                        (enumerate cs)) = List.length cs)
    by (now rewrite length_map, enumerate_length).
  assert (Hnth : forall k c, nth_error cs k = Some c ->
             nth_error (map (fun ic => cell_entry full_text (fst ic) (snd ic))
                            (enumerate cs)) k
             = Some (cell_entry full_text k c)).
  { intros k c Hk.
    rewrite nth_error_map, (enumerate_nth_iff _ _ _ Hk). reflexivity. }
  destruct (map (fun ic => cell_entry full_text (fst ic) (snd ic))
                (enumerate cs)) as [|e es].
  - destruct cs; [|discriminate]. split; [tauto | discriminate].
  - split.
    + split; [discriminate|]. intros ->. discriminate.
    + intros rd [= <-]. cbn [row_id row_cells]. repeat split; assumption.
Qed.

Lemma append_rows_keep (full_text : pystr) (mk_id : nat -> RowId)
    (rows : option (list TableRow)) (acc : list RowData) :
  append_rows full_text mk_id rows acc
  = acc ++ keep_some
             (fun ir => _extract_table_row_data (snd ir) full_text
                          (mk_id (fst ir)))
             (enumerate (rows_of rows)).
Proof.
  unfold append_rows, rows_of. destruct rows as [rs|];
    [|cbn; now rewrite app_nil_r].
  generalize (enumerate rs) as l. intros l. revert acc.
  induction l as [|ir l IH]; intros acc; cbn [fold_left].
  - cbn. now rewrite app_nil_r.
  - rewrite IH. unfold keep_some. cbn [flat_map].
    destruct (_extract_table_row_data (snd ir) full_text (mk_id (fst ir)));
      [now rewrite <- app_assoc | reflexivity].
Qed.

(** X19: the rows of an extracted table are its header rows that have
    cells, in order, followed by its body rows that have cells, each
    numbered by its position among the header or body rows; the table is
    returned exactly when that list is not empty, so a table with a box
    but no cell is dropped. *)
Theorem X19_table_rows_header_then_body (table : Table) (full_text : pystr)
    (page_num table_num : Z) :
  let rows :=
    keep_some
      (fun ir => _extract_table_row_data (snd ir) full_text
                   (HeaderRow (fst ir)))
      (enumerate (rows_of (header_rows table)))
    ++ keep_some
         (fun ir => _extract_table_row_data (snd ir) full_text
                      (BodyRow (fst ir)))
         (enumerate (rows_of (body_rows table))) in
  (_extract_table_data table full_text page_num table_num = None
   <-> rows = [])
  /\ forall td,
       _extract_table_data table full_text page_num table_num = Some td ->
       td_rows td = rows
       /\ td_page td = page_num /\ td_table_id td = table_num
       /\ td_coordinates td = fst (block_box_of (mkBlock (table_layout table)))
       /\ td_bounding_box td
          = snd (block_box_of (mkBlock (table_layout table))).
Proof.
  intros rows. unfold _extract_table_data.
  destruct (block_box_of (mkBlock (table_layout table))) as [cs bb].
  cbn [td_rows fst snd].
  rewrite !append_rows_keep. cbn [app]. fold rows.
  destruct rows as [|r rs].
  - split; [tauto | discriminate].
  - split.
    + split; discriminate.
    + intros td [= <-]. repeat split.
Qed.

(** ** The counters of the summary *)

Lemma figure_elements_snoc (e : VisualElement) (l : list VisualElement) :
  filter (fun elem => is_figure_type (ve_type elem)) (l ++ [e])
  = filter (fun elem => is_figure_type (ve_type elem)) l
    ++ (if is_figure_type (ve_type e) then [e] else []).
Proof. rewrite filter_app. reflexivity. Qed.

Lemma counted_append_figure (n : Z) (e : VisualElement) (r : Results) :
  is_figure_type (ve_type e) = true ->
  counted n r -> counted n (append_figure e r).
Proof.
  intros Hty (H1 & H2 & H3 & H4 & H5 & H6).
  unfold counted, append_figure, figure_elements in *.
  cbn [summary total_pages total_blocks coordinates_found images_saved
       total_figures set_total_figures text_blocks page_images
       extracted_figures visual_elements].
  rewrite figure_elements_snoc, Hty, length_app. cbn [List.length].
  repeat split; try assumption; lia.
Qed.

Lemma counted_add_visual_element (n : Z) (e : VisualElement) (r : Results) :
  counted n r -> counted n (add_visual_element e r).
Proof.
  intros (H1 & H2 & H3 & H4 & H5 & H6).
  unfold counted, add_visual_element, figure_elements in *.
  cbn [summary text_blocks page_images extracted_figures visual_elements].
  rewrite figure_elements_snoc, length_app.
  repeat split; try assumption; lia.
Qed.

Lemma counted_add_text_block (n : Z) (bd : BlockData) (r : Results) :
  counted n r -> counted n (add_text_block bd r).
Proof.
  intros (H1 & H2 & H3 & H4 & H5 & H6).
  unfold counted, add_text_block, figure_elements in *.
  cbn [summary total_pages total_blocks coordinates_found images_saved
       total_figures text_blocks page_images extracted_figures
       visual_elements].
  rewrite filter_app, !length_app. cbn [filter List.length].
  unfold has_coordinates at 2.
  destruct (bd_coordinates bd); cbn [List.length];
    repeat split; try assumption; lia.
Qed.

Lemma counted_add_page_image (n : Z) (info : PageImage) (r : Results) :
  counted n r -> counted n (add_page_image info r).
Proof.
  intros (H1 & H2 & H3 & H4 & H5 & H6).
  unfold counted, add_page_image, figure_elements in *.
  cbn [summary total_pages total_blocks coordinates_found images_saved
       total_figures text_blocks page_images extracted_figures
       visual_elements].
  rewrite length_app. cbn [List.length].
  repeat split; try assumption; lia.
Qed.

Lemma counted_extract_page_blocks (n : Z) (document_text : pystr)
    (page_idx : nat) (bs : list Block) (r : Results) :
  counted n r -> counted n (extract_page_blocks document_text page_idx bs r).
Proof.
  unfold extract_page_blocks. apply fold_left_invariant.
  intros st [i b] _ Hst.
  destruct (_extract_text_block_with_coordinates b document_text
              (Z.of_nat page_idx + 1) (Z.of_nat i + 1));
    [now apply counted_add_text_block | exact Hst].
Qed.

Lemma counted_visual_loop (n : Z) (page_idx : nat)
    (elements : list VisualProto) (r : Results) :
  counted n r -> counted n (visual_loop page_idx elements r).
Proof.
  unfold visual_loop. apply fold_left_invariant.
  intros st ie _ Hst.
  destruct (_extract_visual_element_with_coordinates (snd ie)
              (Z.of_nat page_idx + 1) (Z.of_nat (fst ie) + 1)) as [e|];
    [|exact Hst].
  destruct (String.eqb (ve_type e) "figure") eqn:E.
  - apply counted_append_figure; [|exact Hst].
    unfold is_figure_type. rewrite E. reflexivity.
  - now apply counted_add_visual_element.
Qed.

Lemma counted_investigate (n : Z) (page : Page) (r : Results)
    (page_num : Z) :
  counted n r ->
  counted n (_investigate_image_blocks_in_text_blocks page r page_num).
Proof.
  intros Hr. unfold _investigate_image_blocks_in_text_blocks.
  destruct (page_blocks page) as [bs|]; [|exact Hr].
  destruct Hr as (H1 & H2 & H3 & H4 & H5 & H6).
  unfold investigate_loop.
  pose proof (investigate_loop_state page_num (enumerate bs) (r, 0)) as H.
  cbv zeta in H. cbn [fst snd] in H.
  destruct (fold_left _ (enumerate bs) (r, 0)) as [r' found].
  cbn [fst snd] in H. destruct H as (K1 & K2 & K3 & K4 & K5 & K6 & K7).
  set (new := keep_some
                (fun ib => potential_image_of page_num (fst ib) (snd ib))
                (enumerate bs)) in *.
  assert (Hfig : List.length (figure_elements r')
                 = (List.length (figure_elements r) + List.length new)%nat).
  { unfold figure_elements. rewrite K1, filter_app, length_app. f_equal.
    f_equal. apply forallb_filter_id. apply forallb_forall.
    intros e He. unfold new, keep_some in He. apply in_flat_map in He.
    destruct He as (ib & _ & He).
    destruct (potential_image_of page_num (fst ib) (snd ib)) as [d|] eqn:Ed;
      [|destruct He].
    destruct He as [<-|[]].
    destruct (potential_image_of_spec _ _ _ _ Ed) as (_ & Hty & _).
    rewrite Hty. reflexivity. }
  unfold counted, figure_elements in *.
  destruct (0 <? found);
    cbn [summary total_pages total_blocks coordinates_found images_saved
         total_figures set_total_figures text_blocks page_images
         extracted_figures visual_elements];
    rewrite ?K4, ?K5, ?K6, ?K7, Hfig;
    repeat split; try assumption; lia.
Qed.

Lemma counted_gap_estimate (n : Z) (page : Page) (r : Results)
    (page_num : Z) :
  counted n r ->
  counted n (_estimate_visual_regions_from_text_gaps page r page_num).
Proof.
  intros Hr. unfold _estimate_visual_regions_from_text_gaps.
  destruct (page_blocks page) as [bs|]; [|exact Hr].
  destruct (collect_text_regions bs []) as [trs|]; [|exact Hr].
  assert (Hty : forall e, In e (gap_figures trs page_num) ->
                  is_figure_type (ve_type e) = true).
  { unfold gap_figures. intros e He.
    destruct (List.length trs <? 2)%nat; [destruct He|].
    destruct (potential_image_areas grid_size trs); [destruct He|].
    destruct (_merge_adjacent_areas _ grid_size); [|destruct He].
    apply in_map_iff in He. destruct He as (ia & <- & _). reflexivity. }
  revert Hr. apply fold_left_invariant.
  intros st e He Hst. apply counted_append_figure; [now apply Hty | exact Hst].
Qed.

Lemma counted_keyword_loop (n : Z) (self : Processor) (bs : list Block)
    (document_text : pystr) (keywords : list pystr) :
  forall r, counted n r ->
            counted n (keyword_loop self keywords bs document_text r).
Proof.
  induction keywords as [|kw kws IH]; intros r Hr; cbn [keyword_loop].
  - exact Hr.
  - destruct (matching_blocks_from kw document_text (enumerate bs) [])
      as [ms|]; [|exact Hr].
    apply IH. unfold append_estimates. revert Hr.
    apply fold_left_invariant. intros st im _ Hst.
    unfold _create_estimated_image_area.
    apply counted_append_figure; [reflexivity | exact Hst].
Qed.

Lemma counted_process_page (n : Z) (self : Processor)
    (save_page_image : DocPage -> Z -> option PageImage)
    (document_text : pystr) (r : Results) (ip : nat * DocPage) :
  counted n r ->
  counted n (process_page self save_page_image document_text r ip).
Proof.
  intros Hr. destruct ip as [page_idx page]. unfold process_page.
  set (r1 := match page_blocks (dp_page page) with
             | Some bs => extract_page_blocks document_text page_idx bs r
             | None => r
             end).
  assert (H1 : counted n r1).
  { unfold r1. destruct (page_blocks (dp_page page));
      [now apply counted_extract_page_blocks | exact Hr]. }
  set (r2 := match dp_visual_elements page with
             | Some [] => _
             | Some (_ :: _) => _
             | None => r1
             end).
  assert (H2 : counted n r2).
  { unfold r2. destruct (dp_visual_elements page) as [[|v vs]|].
    - unfold _extract_estimated_image_areas_by_keywords.
      destruct (page_blocks (dp_page page)).
      + apply counted_keyword_loop.
        now apply counted_gap_estimate, counted_investigate.
      + now apply counted_gap_estimate, counted_investigate.
    - now apply counted_visual_loop.
    - exact H1. }
  destruct (dp_image page); [|exact H2].
  destruct (save_page_image page (Z.of_nat page_idx + 1));
    [now apply counted_add_page_image | exact H2].
Qed.

Lemma counted_analyze_pages (self : Processor)
    (save_page_image : DocPage -> Z -> option PageImage)
    (document_text : pystr) (pages : list DocPage) :
  counted (Z.of_nat (List.length pages))
          (analyze_pages self save_page_image document_text pages).
Proof.
  unfold analyze_pages. destruct pages as [|p ps] eqn:Ep.
  - repeat split; cbn; lia.
  - rewrite <- Ep. apply fold_left_invariant.
    + intros st ip _ Hst. now apply counted_process_page.
    + repeat split; cbn; lia.
Qed.

(** X20: after the page loop and the cropping, every counter of the
    summary agrees with the lists of the results: [total_pages] is the
    number of pages, [total_blocks] the number of text blocks,
    [coordinates_found] the number of text blocks with coordinates,
    [images_saved] the number of page images, and [total_figures] the
    number of crops made, not the number of figures detected or
    estimated. *)
Theorem X20_summary_agrees_with_lists (self : Processor)
    (lib : ImageLibrary)
    (save_page_image : DocPage -> Z -> option PageImage)
    (document_text : pystr) (pages : list DocPage) :
  let out :=
    fst (analyze_document self lib save_page_image document_text pages) in
  total_pages (summary out) = Z.of_nat (List.length pages)
  /\ total_blocks (summary out) = Z.of_nat (List.length (text_blocks out))
  /\ coordinates_found (summary out)
     = Z.of_nat (List.length (filter has_coordinates (text_blocks out)))
  /\ images_saved (summary out) = Z.of_nat (List.length (page_images out))
  /\ total_figures (summary out)
     = Z.of_nat (List.length (extracted_figures out)).
Proof.
  intros out. unfold out, analyze_document.
  pose proof (counted_analyze_pages self save_page_image document_text pages)
    as (H1 & H2 & H3 & H4 & H5 & H6).
  set (r := analyze_pages self save_page_image document_text pages) in *.
  unfold _extract_figure_images.
  destruct (figure_elements r) as [|f fs] eqn:Ef.
  - cbn [fst]. rewrite H5. cbn [List.length] in *.
    repeat split; try assumption; lia.
  - rewrite <- Ef.
    destruct (crop_loop_state lib r (figure_elements r)
                (mkCropState r 0 [LogStart (List.length (figure_elements r))])
                eq_refl) as (He & Hc & _ & _ & K2 & _ & K4 & K5).
    cbn [fst summary total_pages total_blocks coordinates_found images_saved
         total_figures set_total_figures text_blocks page_images
         extracted_figures].
    rewrite He, Hc, K2, K4, K5. cbn [cs_results cs_extracted_count].
    rewrite H5. cbn [app].
    repeat split; try assumption; lia.
Qed.

(** ** Text elements of the form parser *)

(** X21: the extractor for paragraphs, lines and tokens drops an element
    exactly when its text is empty or all white space; otherwise it
    returns the text, the coordinates and the box that the block extractor
    returns for the same layout, with the element type it was given. *)
Theorem X21_text_element_like_text_block (element : Block)
    (full_text : pystr) (page_num elem_num : Z) (elem_type : string) :
  (_extract_text_element_with_coordinates element full_text page_num
     elem_num elem_type = None
   <-> forallb isspace (block_text_of element full_text) = true)
  /\ _extract_text_element_with_coordinates element full_text page_num
       elem_num elem_type
     = option_map
         (fun bd =>
            mkTextElementData (bd_page bd) (bd_block_id bd) elem_type
              (bd_text bd) (bd_coordinates bd) (bd_bounding_box bd))
         (_extract_text_block_with_coordinates element full_text page_num
            elem_num).
Proof.
  unfold _extract_text_element_with_coordinates,
    _extract_text_block_with_coordinates.
  destruct (block_box_of element) as [cs bb].
  cbn [te_text bd_text].
  destruct (truthy (strip (block_text_of element full_text))) eqn:E.
  - split; [|reflexivity]. split; [discriminate|].
    intros H. apply strip_nil_iff in H. rewrite H in E. discriminate.
  - split; [|reflexivity]. split; [|reflexivity].
    intros _. now apply strip_nil_iff, truthy_false_iff.
Qed.

(** ** Detected elements and estimates *)

Lemma visual_loop_state (page_idx : nat) (l : list (nat * VisualProto)) :
  forall r,
    let out :=
      fold_left
        (fun r ie =>
           match _extract_visual_element_with_coordinates (snd ie)
                   (Z.of_nat page_idx + 1) (Z.of_nat (fst ie) + 1) with
           | Some elem_data =>
               if String.eqb (ve_type elem_data) "figure"
               then append_figure elem_data r
               else add_visual_element elem_data r
           | None => r
           end) l r in
    visual_elements out
    = visual_elements r
      ++ keep_some
           (fun ie => _extract_visual_element_with_coordinates (snd ie)
                        (Z.of_nat page_idx + 1) (Z.of_nat (fst ie) + 1)) l.
Proof.
  induction l as [|ie l IH]; intros r; cbn [fold_left].
  - cbn. now rewrite app_nil_r.
  - cbv zeta. rewrite IH. unfold keep_some. cbn [flat_map].
    destruct (_extract_visual_element_with_coordinates (snd ie)
                (Z.of_nat page_idx + 1) (Z.of_nat (fst ie) + 1)) as [e|];
      [|reflexivity].
    destruct (String.eqb (ve_type e) "figure");
      cbn [append_figure add_visual_element visual_elements];
      now rewrite <- app_assoc.
Qed.

(** X22: estimates are a fallback. On a page for which the service
    reports at least one visual element, the page loop adds only detected
    elements: each has no [source], the number of the page, and the
    position of a reported element as its identifier; nothing is estimated
    for that page, even when every reported element is dropped. *)
Theorem X22_no_estimate_beside_detected (self : Processor)
    (save_page_image : DocPage -> Z -> option PageImage)
    (document_text : pystr) (results : Results) (page_idx : nat)
    (page : DocPage) (v : VisualProto) (vs : list VisualProto) :
  dp_visual_elements page = Some (v :: vs) ->
  let out :=
    process_page self save_page_image document_text results
      (page_idx, page) in
  exists new,
    visual_elements out = visual_elements results ++ new
    /\ (List.length new <= List.length (v :: vs))%nat
    /\ forall e, In e new ->
         ve_source e = None
         /\ ve_page e = Z.of_nat page_idx + 1
         /\ exists k p,
              nth_error (v :: vs) k = Some p
              /\ ve_element_id e = IdNumber (Z.of_nat k + 1)
              /\ (4 <= List.length
                         (collect_coordinates
                            (layout_vertices (vp_layout p))))%nat.
Proof.
  intros Hv out. unfold out, process_page. rewrite Hv.
  set (r1 := match page_blocks (dp_page page) with
             | Some bs => extract_page_blocks document_text page_idx bs results
             | None => results
             end).
  assert (H1 : visual_elements r1 = visual_elements results).
  { unfold r1. destruct (page_blocks (dp_page page)) as [bs|]; [|reflexivity].
    pose proof (extract_page_blocks_state document_text page_idx
                  (enumerate bs) results) as H.
    cbv zeta in H. now destruct H as (_ & _ & _ & _ & _ & _ & _ & H & _). }
  set (f := fun ie : nat * VisualProto =>
              _extract_visual_element_with_coordinates (snd ie)
                (Z.of_nat page_idx + 1) (Z.of_nat (fst ie) + 1)).
  exists (keep_some f (enumerate (v :: vs))).
  assert (H2 : visual_elements (visual_loop page_idx (v :: vs) r1)
               = visual_elements results
                 ++ keep_some f (enumerate (v :: vs))).
  { unfold visual_loop. rewrite visual_loop_state, H1. reflexivity. }
  split; [|split].
  - destruct (dp_image page); [|exact H2].
    destruct (save_page_image page (Z.of_nat page_idx + 1)); exact H2.
  - unfold keep_some. rewrite length_flat_map.
    rewrite <- (enumerate_length (v :: vs)).
    generalize (enumerate (v :: vs)) as l. intros l.
    induction l as [|x l IHl]; simpl; [lia|].
    destruct (f x); simpl; lia.
  - intros e He. unfold keep_some in He. apply in_flat_map in He.
    destruct He as ([k p] & Hkp & He). unfold f in He. cbn [fst snd] in He.
    destruct (_extract_visual_element_with_coordinates p
                (Z.of_nat page_idx + 1) (Z.of_nat k + 1)) as [d|] eqn:Ed;
      [|destruct He].
    destruct He as [<-|[]].
    unfold _extract_visual_element_with_coordinates in Ed.
    destruct (block_box_cases (mkBlock (vp_layout p)))
      as [[E _]|(p0 & p1 & p2 & p3 & rest & Hp & E)];
      cbv zeta in *; cbn [layout] in *; rewrite E in Ed;
      cbn [ve_coordinates] in Ed.
    + discriminate Ed.
    + rewrite Hp in Ed. injection Ed as <-.
      cbn [ve_source ve_page ve_element_id]. repeat split.
      exists k, p. repeat split; [now apply enumerate_nth|].
      rewrite Hp. simpl. lia.
Qed.

Lemma X22_no_estimate_beside_detected_witness :
  let keyword := [12456; 12483; 12464; 12481; 12455; 12450]%N in
  let block :=
    block_of (Some [segment 0 6])
             (Some (quad (4 # 10) (45 # 100) (6 # 10) (55 # 100))) in
  let v := mkVisualProto (Some "TABLE"%string) None in
  let page := mkDocPage (mkPage (Some [block])) (Some [v]) false in
  visual_elements
    (process_page init_processor (fun _ _ => None) keyword
       (initial_results keyword) (0%nat, page))
  = [].
Proof.
  intros keyword block v page.
  destruct (X22_no_estimate_beside_detected init_processor (fun _ _ => None)
              keyword (initial_results keyword) 0 page v [] eq_refl)
    as (new & Hv & Hlen & Hall).
  destruct new as [|e new].
  - rewrite Hv. reflexivity.
  - exfalso.
    destruct (Hall e (or_introl eq_refl)) as (_ & _ & k & p & Hk & _ & Hp).
    destruct k as [|[|k]]; cbn [nth_error] in Hk;
      [|discriminate Hk | discriminate Hk].
    injection Hk as <-. cbn in Hp. lia.
Defined.

